(** * email_batch_tool: the send pipeline

    A shallow embedding of [email_batch_tool/utils/email_sender.py] and of
    [load_recipients] from [email_batch_tool/main.py].

    Conventions.
    - A Python [str] is a [string]; each [ascii] stands for one code point
      below 256, and the character classes ([str.isspace], [str.lower]) are
      Python's restricted to that range.
    - A Python [int] is a [Z].  A [datetime] is a [Z] counting microseconds,
      so that [timedelta(minutes=m)] is [m * 60 * 10^6].
    - The outside world (the identity provider, the mail API, the clock, the
      random generator, the HTML parsers, the file system, the JSON decoder)
      is a record of oracles.  The k-th call of an effectful primitive asks
      its oracle for answer number k; the state counts the calls.
    - Effectful code lives in the monad [M]: state passing, a trace of the
      effects performed, and Python exceptions.  The state reached before an
      exception is kept, as in Python. *)

From Stdlib Require Import ZArith List String Ascii Bool Arith Lia.
Import ListNotations.

Local Open Scope string_scope.
Local Open Scope list_scope.
Local Open Scope Z_scope.

(** ** Python strings *)

Module PyStr.

(** [str.isspace] on one character, for code points below 256. *)
Definition isspace (c : ascii) : bool :=
  let n := nat_of_ascii c in
  ((9 <=? n) && (n <=? 13) || (28 <=? n) && (n <=? 32)
   || (n =? 133) || (n =? 160))%nat.

Fixpoint lstrip (s : string) : string :=
  match s with
  | EmptyString => EmptyString
  | String c s' => if isspace c then lstrip s' else s
  end.

Fixpoint rstrip (s : string) : string :=
  match s with
  | EmptyString => EmptyString
  | String c s' =>
      match rstrip s' with
      | EmptyString => if isspace c then EmptyString else String c EmptyString
      | r => String c r
      end
  end.

(** [s.strip()] *)
Definition strip (s : string) : string := rstrip (lstrip s).

(** [s.startswith(p)] *)
Fixpoint startswith (p s : string) : bool :=
  match p with
  | EmptyString => true
  | String c p' =>
      match s with
      | EmptyString => false
      | String d s' => Ascii.eqb c d && startswith p' s'
      end
  end.

(** [c in s] for a one-character [c]. *)
Fixpoint contains_char (c : ascii) (s : string) : bool :=
  match s with
  | EmptyString => false
  | String d s' => if Ascii.eqb c d then true else contains_char c s'
  end.

(** [p in s] for strings: substring test. *)
Definition contains (p s : string) : bool :=
  match String.index 0 p s with Some _ => true | None => false end.

(** [s.split(sep)] for a one-character separator: never empty, the pieces
    between consecutive separators, empty pieces kept. *)
Fixpoint split (sep : ascii) (s : string) : list string :=
  match s with
  | EmptyString => [EmptyString]
  | String c s' =>
      if Ascii.eqb c sep then EmptyString :: split sep s'
      else match split sep s' with
           | [] => [String c EmptyString]
           | p :: ps => String c p :: ps
           end
  end.

(** [s.lower()] on the letters A-Z and on the Latin-1 capitals. *)
Definition lower_char (c : ascii) : ascii :=
  let n := nat_of_ascii c in
  if ((65 <=? n) && (n <=? 90)
      || (192 <=? n) && (n <=? 222) && negb (n =? 215))%nat
  then ascii_of_nat (n + 32) else c.

Fixpoint lower (s : string) : string :=
  match s with
  | EmptyString => EmptyString
  | String c s' => String (lower_char c) (lower s')
  end.

(** A string is falsy exactly when it is empty. *)
Definition truthy (s : string) : bool :=
  match s with EmptyString => false | _ => true end.

(** [str(n)] for an [int]. *)
Definition digit (n : nat) : ascii := ascii_of_nat (48 + n).

Fixpoint digits_fuel (fuel : nat) (n : nat) (acc : string) : string :=
  match fuel with
  | O => acc
  | S fuel' =>
      let acc' := String (digit (n mod 10)) acc in
      match (n / 10)%nat with
      | O => acc'
      | q => digits_fuel fuel' q acc'
      end
  end.

Definition of_nat (n : nat) : string := digits_fuel (S n) n EmptyString.

Definition of_Z (z : Z) : string :=
  if z <? 0 then String "-"%char (of_nat (Z.to_nat (- z)))
  else of_nat (Z.to_nat z).

End PyStr.

(** ** JSON values, as [json.loads] and [response.json()] build them *)

Local Set Warnings "-register-all".

Inductive json : Type :=
| JNull
| JBool (b : bool)
| JInt (n : Z)
| JFloat (repr : string)
| JStr (s : string)
| JList (items : list json)
| JDict (items : list (string * json)).

(** Exceptions that the modelled code can meet. *)
Inductive exn : Type :=
| ValueError
| TypeError
| KeyError
| JSONDecodeError
| RequestException
| MsalError
| OverflowError
| OSError
| ParserRejectedMarkup.

(** The result of running a piece of Python: a value or a raised exception. *)
Inductive outcome (A : Type) : Type :=
| Return (a : A)
| Raise (e : exn).
Arguments Return {A} a.
Arguments Raise {A} e.

Module PyJson.

Fixpoint lookup (k : string) (items : list (string * json)) : option json :=
  match items with
  | [] => None
  | (k', v) :: rest => if String.eqb k k' then Some v else lookup k rest
  end.

Definition is_str (k : string) (v : json) : bool :=
  match v with JStr s => String.eqb s k | _ => false end.

(** [k in v] for a string [k]: key membership in a dict, element
    membership in a list, substring test in a string, [TypeError] on the
    values that are not containers. *)
Definition contains (k : string) (v : json) : outcome bool :=
  match v with
  | JDict items =>
      Return (match lookup k items with Some _ => true | None => false end)
  | JList items => Return (existsb (is_str k) items)
  | JStr s => Return (PyStr.contains k s)
  | _ => Raise TypeError
  end.

(** [v[k]] for a string [k]: only a dict can be subscripted by a string. *)
Definition getitem (v : json) (k : string) : outcome json :=
  match v with
  | JDict items =>
      match lookup k items with Some x => Return x | None => Raise KeyError end
  | _ => Raise TypeError
  end.

(** [v == s] for a string [s]. *)
Definition eq_str (v : json) (s : string) : bool := is_str s v.

End PyJson.

(** ** The mail API: requests and responses *)

(** An attachment descriptor, the dict built by [extract_inline_images]. *)
Record attachment : Type := {
  odata_type : string;
  name : string;
  contentType : string;
  contentBytes : string;
  isInline : bool;
  contentId : string
}.

(** The [message] part of [email_data].  [ccRecipients] and [attachments] are
    keys that the code adds only when the argument is truthy. *)
Record message : Type := {
  subject : string;
  content : string;
  toRecipients : list string;
  ccRecipients : option (list string);
  attachments : option (list attachment)
}.

Record request : Type := {
  url : string;
  authorization : string;
  body : message;
  saveToSentItems : bool
}.

(** What the code reads of a response: [status_code], and [json()], which
    raises when the body is not JSON. *)
Record response : Type := {
  status_code : Z;
  json_body : option json
}.

(** [requests.post] answers or raises. *)
Inductive post_outcome : Type :=
| Responded (r : response)
| TransportError.

(** [acquire_token_for_client] gives a dict with an [access_token], a dict
    without one, or raises (building the msal application included). *)
Inductive token_result : Type :=
| TokenGranted (tok : string)
| TokenRefused
| TokenRaised.

(** The two call sites of [time.sleep] in [send_batch]. *)
Inductive sleep_site : Type :=
| Backoff
| BetweenRecipients.

(** The trace: the effects of the run in order, and, as an observation
    point, each return of [send_email] to the retry loop. *)
Inductive event : Type :=
| Authenticated (r : token_result)
| Posted (req : request) (r : post_outcome)
| Slept (site : sleep_site) (seconds : Z)
| SendEmailReturned (to : string) (ok : bool).

(** ** The sender object and the world *)

Record OutlookEmailSender : Type := {
  tenant_id : string;
  client_id : string;
  client_secret : string;
  shared_mailbox : string;
  access_token : option string;
  token_expires_at : option Z;
  base_url : string
}.

(** [OutlookEmailSender.__init__] *)
Definition new_sender (tenant client secret mailbox : string)
  : OutlookEmailSender :=
  {| tenant_id := tenant;
     client_id := client;
     client_secret := secret;
     shared_mailbox := mailbox;
     access_token := None;
     token_expires_at := None;
     base_url := "https://graph.microsoft.com/v1.0" |}.

Definition set_access_token (tok : string) (s : OutlookEmailSender)
  : OutlookEmailSender :=
  {| tenant_id := tenant_id s;
     client_id := client_id s;
     client_secret := client_secret s;
     shared_mailbox := shared_mailbox s;
     access_token := Some tok;
     token_expires_at := token_expires_at s;
     base_url := base_url s |}.

Definition set_token_expires_at (t : Z) (s : OutlookEmailSender)
  : OutlookEmailSender :=
  {| tenant_id := tenant_id s;
     client_id := client_id s;
     client_secret := client_secret s;
     shared_mailbox := shared_mailbox s;
     access_token := access_token s;
     token_expires_at := Some t;
     base_url := base_url s |}.

(** The oracles of the delivery side. *)
Record network : Type := {
  acquire_token_for_client : nat -> token_result;
  requests_post : nat -> request -> post_outcome;
  datetime_now : nat -> Z;
  random_source : nat -> Z;
  os_sleep : nat -> Z -> bool
}.

(** The state: the sender object, and how many times each oracle was asked. *)
Record state : Type := {
  sender : OutlookEmailSender;
  token_calls : nat;
  post_calls : nat;
  clock_reads : nat;
  random_draws : nat;
  sleep_calls : nat
}.

Definition with_sender (f : OutlookEmailSender -> OutlookEmailSender)
  (st : state) : state :=
  {| sender := f (sender st);
     token_calls := token_calls st;
     post_calls := post_calls st;
     clock_reads := clock_reads st;
     random_draws := random_draws st;
     sleep_calls := sleep_calls st |}.

Definition count_token_call (st : state) : state :=
  {| sender := sender st;
     token_calls := S (token_calls st);
     post_calls := post_calls st;
     clock_reads := clock_reads st;
     random_draws := random_draws st;
     sleep_calls := sleep_calls st |}.

Definition count_post (st : state) : state :=
  {| sender := sender st;
     token_calls := token_calls st;
     post_calls := S (post_calls st);
     clock_reads := clock_reads st;
     random_draws := random_draws st;
     sleep_calls := sleep_calls st |}.

Definition count_clock_read (st : state) : state :=
  {| sender := sender st;
     token_calls := token_calls st;
     post_calls := post_calls st;
     clock_reads := S (clock_reads st);
     random_draws := random_draws st;
     sleep_calls := sleep_calls st |}.

Definition count_random_draw (st : state) : state :=
  {| sender := sender st;
     token_calls := token_calls st;
     post_calls := post_calls st;
     clock_reads := clock_reads st;
     random_draws := S (random_draws st);
     sleep_calls := sleep_calls st |}.

Definition count_sleep (st : state) : state :=
  {| sender := sender st;
     token_calls := token_calls st;
     post_calls := post_calls st;
     clock_reads := clock_reads st;
     random_draws := random_draws st;
     sleep_calls := S (sleep_calls st) |}.

(** ** The monad of effectful code *)

Definition M (A : Type) : Type := state -> outcome A * state * list event.

Definition ret {A : Type} (a : A) : M A := fun st => (Return a, st, []).

Definition raise {A : Type} (e : exn) : M A := fun st => (Raise e, st, []).

Definition bind {A B : Type} (m : M A) (f : A -> M B) : M B :=
  fun st =>
    match m st with
    | (Return a, st1, t1) =>
        match f a st1 with
        | (r, st2, t2) => (r, st2, t1 ++ t2)
        end
    | (Raise e, st1, t1) => (Raise e, st1, t1)
    end.

(** [try: m  except Exception as e: h e] *)
Definition try_except {A : Type} (m : M A) (h : exn -> M A) : M A :=
  fun st =>
    match m st with
    | (Return a, st1, t1) => (Return a, st1, t1)
    | (Raise e, st1, t1) =>
        match h e st1 with
        | (r, st2, t2) => (r, st2, t1 ++ t2)
        end
    end.

Definition lift {A : Type} (o : outcome A) : M A :=
  match o with Return a => ret a | Raise e => raise e end.

Declare Scope py_scope.
Delimit Scope py_scope with py.
Notation "x <- m ;; k" := (bind m (fun x => k))
  (at level 61, m at next level, right associativity) : py_scope.
Notation "m ;; k" := (bind m (fun _ => k))
  (at level 61, right associativity) : py_scope.
Local Open Scope py_scope.

Definition emit (e : event) : M unit := fun st => (Return tt, st, [e]).

Definition get_sender : M OutlookEmailSender :=
  fun st => (Return (sender st), st, []).

Definition modify_sender (f : OutlookEmailSender -> OutlookEmailSender)
  : M unit :=
  fun st => (Return tt, with_sender f st, []).

(** ** Credential session and delivery client *)

Definition minutes (m : Z) : Z := m * 60 * 1000000.

Section Delivery.

Variable net : network.

(** *** Primitives: one oracle question each *)

(** [msal.ConfidentialClientApplication(...).acquire_token_for_client(...)] *)
Definition msal_acquire_token : M token_result :=
  fun st =>
    let r := acquire_token_for_client net (token_calls st) in
    match r with
    | TokenRaised => (Raise MsalError, count_token_call st, [Authenticated r])
    | _ => (Return r, count_token_call st, [Authenticated r])
    end.

(** [requests.post(url, headers=headers, json=email_data)] *)
Definition post (req : request) : M response :=
  fun st =>
    let r := requests_post net (post_calls st) req in
    match r with
    | Responded resp => (Return resp, count_post st, [Posted req r])
    | TransportError => (Raise RequestException, count_post st, [Posted req r])
    end.

(** [datetime.now()] *)
Definition now : M Z :=
  fun st =>
    (Return (datetime_now net (clock_reads st)), count_clock_read st, []).

(** [random.randint(a, b)]: an integer N with a <= N <= b, [ValueError]
    when the range is empty. *)
Definition randint (a b : Z) : M Z :=
  fun st =>
    if b <? a then (Raise ValueError, st, [])
    else
      (Return (a + random_source net (random_draws st) mod (b - a + 1)),
       count_random_draw st, []).

(** The longest sleep, in seconds, that fits the 64-bit count of
    nanoseconds into which [time.sleep] converts its argument. *)
Definition sleep_limit : Z := 9223372036.

(** [time.sleep(d)] for an [int]: [OverflowError] when the length does not
    fit the count of nanoseconds, [ValueError] when it is negative; then
    the operating system is asked, and either sleeps or rejects the length
    ([OSError]), which it does to lengths near the limit, the deadline of
    which its clock cannot hold.  A sleep that was taken returns. *)
Definition sleep (site : sleep_site) (d : Z) : M unit :=
  fun st =>
    if (d <? - sleep_limit) || (sleep_limit <? d)
    then (Raise OverflowError, st, [])
    else if d <? 0 then (Raise ValueError, st, [])
    else if os_sleep net (sleep_calls st) d
         then (Return tt, count_sleep st, [Slept site d])
         else (Raise OSError, count_sleep st, []).

(** [response.json()] *)
Definition response_json (r : response) : M json :=
  match json_body r with
  | Some j => ret j
  | None => raise JSONDecodeError
  end.

(** *** [OutlookEmailSender.authenticate] *)
Definition authenticate : M bool :=
  try_except
    (result <- msal_acquire_token ;;
     match result with
     | TokenGranted tok =>
         modify_sender (set_access_token tok) ;;
         t <- now ;;
         modify_sender (set_token_expires_at (t + minutes 55)) ;;
         ret true
     | _ => ret false
     end)
    (fun _ => ret false).

(** [not self.access_token]: true on [None] and on the empty string. *)
Definition no_token (s : OutlookEmailSender) : bool :=
  match access_token s with
  | Some tok => negb (PyStr.truthy tok)
  | None => true
  end.

(** *** [OutlookEmailSender.is_token_expired] *)
Definition is_token_expired : M bool :=
  s <- get_sender ;;
  if no_token s then ret true
  else
    match token_expires_at s with
    | None => ret true
    | Some expires => t <- now ;; ret (expires - minutes 5 <=? t)
    end.

(** [f"Bearer {self.access_token}"] *)
Definition bearer (s : OutlookEmailSender) : string :=
  "Bearer " ++ match access_token s with Some tok => tok | None => "None" end.

(** A list argument is used only when truthy: neither [None] nor empty. *)
Definition if_truthy {A : Type} (l : option (list A)) : option (list A) :=
  match l with
  | Some (_ :: _) => l
  | _ => None
  end.

Definition email_data (to_address subj html_body : string)
  (atts : option (list attachment)) (cc_addresses : option (list string))
  : message :=
  {| subject := subj;
     content := html_body;
     toRecipients := [to_address];
     ccRecipients := if_truthy cc_addresses;
     attachments := if_truthy atts |}.

(** The request of line 164: [url], [headers] and [email_data]. *)
Definition send_request (s : OutlookEmailSender) (auth : string)
  (data : message) : request :=
  {| url := base_url s ++ "/users/" ++ shared_mailbox s ++ "/sendMail";
     authorization := auth;
     body := data;
     saveToSentItems := true |}.

(** Line 174: [headers["Authorization"] = ...], the rest as it was. *)
Definition with_authorization (auth : string) (req : request) : request :=
  {| url := url req;
     authorization := auth;
     body := body req;
     saveToSentItems := saveToSentItems req |}.

(** The test of lines 167-169 on a 401 response:
    ["error" in error_response and
     error_response["error"]["code"] == "InvalidAuthenticationToken"]. *)
Definition invalid_token_body (error_response : json) : outcome bool :=
  match PyJson.contains "error" error_response with
  | Raise e => Raise e
  | Return false => Return false
  | Return true =>
      match PyJson.getitem error_response "error" with
      | Raise e => Raise e
      | Return err =>
          match PyJson.getitem err "code" with
          | Raise e => Raise e
          | Return code =>
              Return (PyJson.eq_str code "InvalidAuthenticationToken")
          end
      end
  end.

(** Lines 167-178: what stands for [response] after the 401 check; [None]
    is the [return False] of line 178. *)
Definition refresh_on_401 (req : request) (resp : response)
  : M (option response) :=
  if status_code resp =? 401 then
    error_response <- response_json resp ;;
    invalid <- lift (invalid_token_body error_response) ;;
    if invalid then
      ok <- authenticate ;;
      if ok then
        s <- get_sender ;;
        resp' <- post (with_authorization (bearer s) req) ;;
        ret (Some resp')
      else ret None
    else ret (Some resp)
  else ret (Some resp).

(** Lines 121-189, after the token check. *)
Definition send_prepared (to_address subj html_body : string)
  (atts : option (list attachment)) (cc_addresses : option (list string))
  : M bool :=
  s <- get_sender ;;
  let headers := bearer s in
  let data := email_data to_address subj html_body atts cc_addresses in
  let req := send_request s headers data in
  try_except
    (resp <- post req ;;
     final <- refresh_on_401 req resp ;;
     match final with
     | None => ret false
     | Some r => ret (status_code r =? 202)
     end)
    (fun _ => ret false).

(** *** [OutlookEmailSender.send_email] *)
Definition send_email (to_address subj html_body : string)
  (atts : option (list attachment)) (cc_addresses : option (list string))
  : M bool :=
  s <- get_sender ;;
  stale <- (if no_token s then ret true else is_token_expired) ;;
  if stale then
    ok <- authenticate ;;
    if ok then send_prepared to_address subj html_body atts cc_addresses
    else ret false
  else send_prepared to_address subj html_body atts cc_addresses.

End Delivery.

(** ** Markup preprocessor *)

(** The parse tree of BeautifulSoup: tags with their attributes in order,
    and the leaves between them: strings, comments, the doctype, CDATA
    sections, processing instructions and declarations. *)
Inductive node : Type :=
| Tag (tag_name : string) (attrs : list (string * string))
      (children : list node)
| NavigableString (text : string)
| Comment (text : string)
| Doctype (text : string)
| CData (text : string)
| ProcessingInstruction (text : string)
| Declaration (text : string).

(** A [BeautifulSoup] object: the top-level nodes of the document. *)
Definition soup : Type := list node.

(** The oracles of the markup side: the two parsers that BeautifulSoup
    drives, and the file system under the project root.  A parser gives a
    document or [None]: html5lib when [BeautifulSoup(..., 'html5lib')]
    raises anything, html.parser when it rejects the markup and
    [BeautifulSoup(..., 'html.parser')] raises [ParserRejectedMarkup]. *)
Record markup_world : Type := {
  parse_html5lib : string -> option soup;
  parse_html_parser : string -> option soup;
  project_root : string;
  os_path_exists : string -> bool;
  read_base64 : string -> option string
}.

Module Bs4.

Definition in_names (nm : string) (names : list string) : bool :=
  existsb (String.eqb nm) names.

Fixpoint get_attr (k : string) (attrs : list (string * string))
  : option string :=
  match attrs with
  | [] => None
  | (k', v) :: rest => if String.eqb k k' then Some v else get_attr k rest
  end.

(** [tag[k] = v] on a tag that has the attribute. *)
Fixpoint set_attr (k v : string) (attrs : list (string * string))
  : list (string * string) :=
  match attrs with
  | [] => []
  | (k', v') :: rest =>
      if String.eqb k k' then (k', v) :: rest
      else (k', v') :: set_attr k v rest
  end.

(** [soup.find_all(names)]: the tags of these names, in document order,
    a tag before its descendants. *)
Fixpoint find_all (names : list string) (n : node) : list node :=
  match n with
  | Tag nm attrs ch =>
      (if in_names nm names then [n] else [])
        ++ flat_map (find_all names) ch
  | _ => []
  end.

(** The tree after [decompose()] was called on every tag that
    [find_all(names)] listed: each such tag is taken out of its parent
    together with what it contains. *)
Fixpoint decompose_all (names : list string) (n : node) : list node :=
  match n with
  | Tag nm attrs ch =>
      if in_names nm names then []
      else [Tag nm attrs (flat_map (decompose_all names) ch)]
  | _ => [n]
  end.

(** Entity substitution of the default formatter. *)
Fixpoint substitute_xml (s : string) : string :=
  match s with
  | EmptyString => EmptyString
  | String c s' =>
      (if Ascii.eqb c "&" then "&amp;"
       else if Ascii.eqb c "<" then "&lt;"
       else if Ascii.eqb c ">" then "&gt;"
       else String c EmptyString) ++ substitute_xml s'
  end.

Definition dquote : ascii := ascii_of_nat 34.

Fixpoint replace_double_quotes (s : string) : string :=
  match s with
  | EmptyString => EmptyString
  | String c s' =>
      (if Ascii.eqb c dquote then "&quot;" else String c EmptyString)
        ++ replace_double_quotes s'
  end.

Definition quoted_attribute_value (v : string) : string :=
  if PyStr.contains_char dquote v then
    if PyStr.contains_char "'" v
    then String dquote (replace_double_quotes v ++ String dquote EmptyString)
    else "'" ++ v ++ "'"
  else String dquote (v ++ String dquote EmptyString).

(** The order of [sorted] on the items of [tag.attrs]: by name, then by
    value, strings compared code point by code point. *)
Definition attr_leb (a b : string * string) : bool :=
  match String.compare (fst a) (fst b) with
  | Lt => true
  | Eq => String.leb (snd a) (snd b)
  | Gt => false
  end.

Fixpoint insert_attr (a : string * string) (l : list (string * string))
  : list (string * string) :=
  match l with
  | [] => [a]
  | b :: l' => if attr_leb a b then a :: l else b :: insert_attr a l'
  end.

(** [formatter.attributes(tag)]: the attributes sorted. *)
Definition sorted_attrs (attrs : list (string * string))
  : list (string * string) :=
  fold_right insert_attr [] attrs.

Fixpoint decode_attrs (attrs : list (string * string)) : string :=
  match attrs with
  | [] => EmptyString
  | (k, v) :: rest =>
      " " ++ k ++ "=" ++ quoted_attribute_value (substitute_xml v)
          ++ decode_attrs rest
  end.

Definition empty_element_tags : list string :=
  ["area"; "base"; "br"; "col"; "embed"; "hr"; "img"; "input"; "keygen";
   "link"; "menuitem"; "meta"; "param"; "source"; "track"; "wbr";
   "basefont"; "bgsound"; "command"; "frame"; "image"; "isindex";
   "nextid"; "spacer"].

Definition cdata_containing_tags : list string := ["script"; "style"].

(** [str(node)]; [raw] says that the parent keeps its strings verbatim. *)
Fixpoint decode_node (raw : bool) (n : node) : string :=
  match n with
  | Tag nm attrs ch =>
      match ch with
      | [] =>
          if in_names nm empty_element_tags
          then "<" ++ nm ++ decode_attrs (sorted_attrs attrs) ++ "/>"
          else "<" ++ nm ++ decode_attrs (sorted_attrs attrs)
                   ++ "></" ++ nm ++ ">"
      | _ =>
          "<" ++ nm ++ decode_attrs (sorted_attrs attrs) ++ ">"
            ++ String.concat EmptyString
                 (map (decode_node (in_names nm cdata_containing_tags)) ch)
            ++ "</" ++ nm ++ ">"
      end
  | NavigableString t => if raw then t else substitute_xml t
  | Comment t => "<!--" ++ t ++ "-->"
  | Doctype t => "<!DOCTYPE " ++ t ++ ">" ++ String (ascii_of_nat 10) EmptyString
  | CData t => "<![CDATA[" ++ t ++ "]]>"
  | ProcessingInstruction t => "<?" ++ t ++ ">"
  | Declaration t => "<?" ++ t ++ "?>"
  end.

(** [str(soup)] *)
Definition decode (doc : soup) : string :=
  String.concat EmptyString (map (decode_node false) doc).

End Bs4.

Module OsPath.

(** [os.path.join(a, b)] on POSIX. *)
Definition join (a b : string) : string :=
  if PyStr.startswith "/" b then b
  else match a with
       | EmptyString => b
       | _ =>
           if String.eqb (substring (String.length a - 1) 1 a) "/"
           then a ++ b
           else a ++ "/" ++ b
       end.

(** [p.split('/')[-1]] *)
Definition last_component (p : string) : string :=
  last (PyStr.split "/" p) EmptyString.

Fixpoint skip_dots (s : string) : string :=
  match s with
  | String "." s' => skip_dots s'
  | _ => s
  end.

(** The part of [s] from its last dot on, if it has a dot. *)
Fixpoint from_last_dot (s : string) : option string :=
  match s with
  | EmptyString => None
  | String c s' =>
      match from_last_dot s' with
      | Some e => Some e
      | None => if Ascii.eqb c "." then Some s else None
      end
  end.

(** The second component of [os.path.splitext(p)]: the extension is
    looked for in the last path component, its leading dots skipped. *)
Definition splitext_ext (p : string) : string :=
  match from_last_dot (skip_dots (last_component p)) with
  | Some e => e
  | None => EmptyString
  end.

End OsPath.

Section Markup.

Variable world : markup_world.

(** *** [OutlookEmailSender.sanitize_html] *)
Definition sanitize_html (html_content : string) : string :=
  match parse_html5lib world html_content with
  | Some doc =>
      Bs4.decode (flat_map (Bs4.decompose_all ["script"; "style"]) doc)
  | None => html_content
  end.

(** *** [OutlookEmailSender.extract_inline_images] *)

Definition LF : ascii := ascii_of_nat 10.

(** [s] without the prefix [p], when it starts with [p]. *)
Fixpoint strip_prefix (p s : string) : option string :=
  match p with
  | EmptyString => Some s
  | String c p' =>
      match s with
      | EmptyString => None
      | String d s' => if Ascii.eqb c d then strip_prefix p' s' else None
      end
  end.

(** The longest prefix of [s] without the character [c], and the rest. *)
Fixpoint break_at (c : ascii) (s : string) : string * string :=
  match s with
  | EmptyString => (EmptyString, EmptyString)
  | String d s' =>
      if Ascii.eqb d c then (EmptyString, s)
      else let (a, b) := break_at c s' in (String d a, b)
  end.

(** [re.match] of line 211 and its two groups: the pattern is [data:],
    then group 1 [image/[^;]+], then [;base64,], then group 2, any run of
    characters matched by the dot.  [[^;]+] takes every character up to the first semicolon and
    must take one; the literal [;base64,] has to follow at once, since a
    shorter first group would leave a character that is not a semicolon
    in front of it; [.] does not match a line feed, so the second group
    stops at the first one; nothing is required after it. *)
Definition match_data_uri (src : string) : option (string * string) :=
  match strip_prefix "data:image/" src with
  | None => None
  | Some rest =>
      let (subtype, after) := break_at ";" rest in
      match subtype with
      | EmptyString => None
      | _ =>
          match strip_prefix ";base64," after with
          | None => None
          | Some payload =>
              Some (("image/" ++ subtype)%string, fst (break_at LF payload))
          end
      end
  end.

(** [f"image_{len(attachments)+1}"] *)
Definition image_name (atts : list attachment) : string :=
  "image_" ++ PyStr.of_nat (List.length atts + 1).

(** [f"image_{len(attachments)+1}@example.com"] *)
Definition new_cid (atts : list attachment) : string :=
  image_name atts ++ "@example.com".

Definition file_attachment (nm mime_type base64_data cid : string)
  : attachment :=
  {| odata_type := "#microsoft.graph.fileAttachment";
     name := nm;
     contentType := mime_type;
     contentBytes := base64_data;
     isInline := true;
     contentId := cid |}.

(** Lines 244-252: where a relative [src] is looked for. *)
Definition resolve_image_path (src : string) : string :=
  let template_dir := OsPath.join (project_root world) "template" in
  let images_dir := OsPath.join template_dir "images" in
  let image_path := OsPath.join images_dir src in
  if negb (os_path_exists world image_path) && PyStr.contains_char "/" src
  then OsPath.join template_dir src
  else image_path.

(** Lines 257-262 *)
Definition mime_of_extension (src : string) : string :=
  let ext := PyStr.lower (OsPath.splitext_ext src) in
  if String.eqb ext ".jpg" || String.eqb ext ".jpeg" then "image/jpeg"
  else if String.eqb ext ".gif" then "image/gif"
  else "image/png".

(** The body of the loop of line 205 for one [img] tag: the value of its
    [src] afterwards, and the attachment list afterwards. *)
Definition process_img (atts : list attachment) (src : string)
  : string * list attachment :=
  if PyStr.startswith "data:" src then
    match match_data_uri src with
    | Some (mime_type, base64_data) =>
        let cid := new_cid atts in
        (("cid:" ++ cid)%string,
         atts ++ [file_attachment (image_name atts) mime_type base64_data cid])
    | None => (src, atts)
    end
  else if PyStr.startswith "file://" src || PyStr.startswith "/" src then
    (src, atts)
  else if negb (PyStr.startswith "http" src)
          && negb (PyStr.startswith "cid:" src) then
    let image_path := resolve_image_path src in
    if os_path_exists world image_path then
      match read_base64 world image_path with
      | Some base64_data =>
          let cid := new_cid atts in
          (("cid:" ++ cid)%string,
           atts ++ [file_attachment (OsPath.last_component src)
                      (mime_of_extension src) base64_data cid])
      | None => (src, atts)
      end
    else (src, atts)
  else (src, atts).

(** The loop of line 205 over the [src] values of the tags found. *)
Fixpoint process_imgs (atts : list attachment) (srcs : list string)
  : list string * list attachment :=
  match srcs with
  | [] => ([], atts)
  | src :: rest =>
      let (src', atts1) := process_img atts src in
      let (rest', atts2) := process_imgs atts1 rest in
      (src' :: rest', atts2)
  end.

(** [find_all('img', src=True)], read through [img_tag['src']]. *)
Fixpoint img_srcs (n : node) : list string :=
  match n with
  | Tag nm attrs ch =>
      (if String.eqb nm "img" then
         match Bs4.get_attr "src" attrs with
         | Some src => [src]
         | None => []
         end
       else []) ++ flat_map img_srcs ch
  | _ => []
  end.

(** The tree once the tags found carry the given [src] values: the
    assignments [img_tag['src'] = ...] act on the tags of the tree itself.
    Gives the tree and the values that were not used. *)
Fixpoint assign_srcs (n : node) (srcs : list string) : node * list string :=
  match n with
  | Tag nm attrs ch =>
      let '(attrs', srcs1) :=
        if String.eqb nm "img" then
          match Bs4.get_attr "src" attrs, srcs with
          | Some _, src' :: rest => (Bs4.set_attr "src" src' attrs, rest)
          | _, _ => (attrs, srcs)
          end
        else (attrs, srcs) in
      let '(ch', srcs2) :=
        (fix go (l : list node) (acc : list string) {struct l}
           : list node * list string :=
           match l with
           | [] => ([], acc)
           | x :: xs =>
               let (x', acc1) := assign_srcs x acc in
               let (xs', acc2) := go xs acc1 in
               (x' :: xs', acc2)
           end) ch srcs1 in
      (Tag nm attrs' ch', srcs2)
  | _ => (n, srcs)
  end.

Fixpoint assign_srcs_all (doc : soup) (srcs : list string)
  : soup * list string :=
  match doc with
  | [] => ([], srcs)
  | x :: xs =>
      let (x', acc1) := assign_srcs x srcs in
      let (xs', acc2) := assign_srcs_all xs acc1 in
      (x' :: xs', acc2)
  end.

(** Lines 201-295 on the parsed document. *)
Definition extract_from_soup (doc : soup) : soup * list attachment :=
  let (srcs', atts) := process_imgs [] (flat_map img_srcs doc) in
  (fst (assign_srcs_all doc srcs'), atts).

Definition extract_inline_images (html_content : string)
  : outcome (string * list attachment) :=
  match parse_html_parser world html_content with
  | None => Raise ParserRejectedMarkup
  | Some doc =>
      let (doc', atts) := extract_from_soup doc in
      Return (Bs4.decode doc', atts)
  end.

End Markup.

(** ** Batch scheduler *)

(** A delivery attempt record; [timestamp] is the [datetime] whose
    [isoformat()] the code stores. *)
Record detail : Type := {
  timestamp : Z;
  recipient : string;
  status : string
}.

(** The [results] dict of [send_batch]. *)
Record summary : Type := {
  total : Z;
  sent : Z;
  failed : Z;
  skipped : Z;
  details : list detail
}.

(** Lines 393-408: the counter and the record of one recipient. *)
Definition record_result (results : summary) (ts : Z) (to : string)
  (success : bool) : summary :=
  if success then
    {| total := total results;
       sent := sent results + 1;
       failed := failed results;
       skipped := skipped results;
       details := details results
                    ++ [{| timestamp := ts; recipient := to;
                           status := "success" |}] |}
  else
    {| total := total results;
       sent := sent results;
       failed := failed results + 1;
       skipped := skipped results;
       details := details results
                    ++ [{| timestamp := ts; recipient := to;
                           status := "failed" |}] |}.

(** Line 388: [min(60 * (2 ** attempt), 300)] *)
Definition backoff_delay (attempt : Z) : Z := Z.min (60 * 2 ^ attempt) 300.

Section Batch.

Variable net : network.
Variable world : markup_world.

Section Loop.

Variables (subj processed_html : string) (atts : list attachment).
Variables (min_delay max_delay max_retries : Z).
Variable cc_addresses : option (list string).

(** Lines 376-390: the loop [for attempt in range(max_retries + 1)]
    for one recipient, [remaining] iterations from [attempt] on; the
    result is [success]. *)
Fixpoint retry_loop (to : string) (remaining : nat) (attempt : Z)
  : M bool :=
  match remaining with
  | O => ret false
  | S remaining' =>
      ok <- send_email net to subj processed_html (Some atts)
              cc_addresses ;;
      emit (SendEmailReturned to ok) ;;
      if ok then ret true
      else if attempt <? max_retries then
        sleep net Backoff (backoff_delay attempt) ;;
        retry_loop to remaining' (attempt + 1)
      else retry_loop to remaining' (attempt + 1)
  end.

(** [range(max_retries + 1)] from its start. *)
Definition deliver (to : string) : M bool :=
  retry_loop to (Z.to_nat (max_retries + 1)) 0.

(** Lines 372-414: the loop [for i, recipient in enumerate(recipients)]
    from index [i] on; [n] is [len(recipients)]. *)
Fixpoint batch_loop (i n : Z) (rest : list string) (results : summary)
  : M summary :=
  match rest with
  | [] => ret results
  | to :: rest' =>
      success <- deliver to ;;
      ts <- now net ;;
      let results' := record_result results ts to success in
      (if i <? n - 1 then
         delay <- randint net min_delay max_delay ;;
         sleep net BetweenRecipients delay
       else ret tt) ;;
      batch_loop (i + 1) n rest' results'
  end.

End Loop.

(** *** [BatchEmailProcessor.send_batch] *)
Definition send_batch (recipients : list string)
  (subj html_template : string) (min_delay max_delay max_retries : Z)
  (cc_addresses : option (list string)) : M summary :=
  let clean_html := sanitize_html world html_template in
  extracted <- lift (extract_inline_images world clean_html) ;;
  let (processed_html, atts) := extracted in
  let n := Z.of_nat (List.length recipients) in
  batch_loop subj processed_html atts min_delay max_delay max_retries
    cc_addresses 0 n recipients
    {| total := n; sent := 0; failed := 0; skipped := 0; details := [] |}.

End Batch.

(** ** Recipient file ([main.py]) *)

(** [open(file_path).read()] *)
Inductive read_result : Type :=
| FileContent (text : string)
| FileNotFound
| ReadFailed.

(** [json.loads(content)]: a value, [json.JSONDecodeError], or another
    exception. *)
Inductive loads_result : Type :=
| Loaded (v : json)
| NotJson
| LoadsRaised.

(** The oracles of [load_recipients]: the file system, the JSON decoder,
    and [repr] of the containers that the decoder can build. *)
Record file_world : Type := {
  read_text : string -> read_result;
  json_loads : string -> loads_result;
  repr_container : json -> string
}.

(** How a call of a function of [main.py] ends: with a value, with the
    implicit [None] of a body that runs off its end, or in [sys.exit]. *)
Inductive call_result (A : Type) : Type :=
| Returns (a : A)
| ReturnsNone
| Exits (code : Z).
Arguments Returns {A} a.
Arguments ReturnsNone {A}.
Arguments Exits {A} code.

Section Recipients.

Variable files : file_world.

(** [str(v)] for a decoded value; a float carries its [repr]. *)
Definition py_str (v : json) : string :=
  match v with
  | JStr s => s
  | JNull => "None"
  | JBool true => "True"
  | JBool false => "False"
  | JInt n => PyStr.of_Z n
  | JFloat r => r
  | _ => repr_container files v
  end.

(** Line 28 *)
Definition stripped_items (items : list json) : list string :=
  filter PyStr.truthy (map (fun email => PyStr.strip (py_str email)) items).

(** Line 31 *)
Definition stripped_lines (content : string) : list string :=
  filter PyStr.truthy
    (map PyStr.strip (PyStr.split (ascii_of_nat 10) content)).

(** *** [load_recipients] *)
Definition load_recipients (file_path : string)
  : call_result (list string) :=
  match read_text files file_path with
  | FileNotFound => Exits 1
  | ReadFailed => Exits 1
  | FileContent text =>
      let content := PyStr.strip text in
      match json_loads files content with
      | Loaded (JList items) => Returns (stripped_items items)
      | Loaded _ => ReturnsNone
      | NotJson => Returns (stripped_lines content)
      | LoadsRaised => Exits 1
      end
  end.

End Recipients.

(** * Observations on runs *)

(** The state after a successful [authenticate] from [st]: one more token
    call, the token stored, the clock read once, the expiry stored. *)
Definition granted_state (net : network) (tok : string) (st : state)
  : state :=
  count_clock_read
    (with_sender
       (set_token_expires_at (datetime_now net (clock_reads st) + minutes 55))
       (with_sender (set_access_token tok) (count_token_call st))).

Definition is_granted (r : token_result) : bool :=
  match r with TokenGranted _ => true | _ => false end.

(** A response is accepted when its status is 202. *)
Definition accepted_outcome (o : post_outcome) : bool :=
  match o with
  | Responded r => status_code r =? 202
  | TransportError => false
  end.

(** The outcome of the last request of a trace, if it has a request. *)
Definition last_post (tr : list event) : option post_outcome :=
  fold_left
    (fun acc e => match e with Posted _ r => Some r | _ => acc end) tr None.

(** The last request of the trace was answered with status 202. *)
Definition accepted (tr : list event) : bool :=
  match last_post tr with
  | Some o => accepted_outcome o
  | None => false
  end.

Definition is_post (e : event) : bool :=
  match e with Posted _ _ => true | _ => false end.

Definition is_token_call (e : event) : bool :=
  match e with Authenticated _ => true | _ => false end.

(** The first request of a trace, its outcome, and what came after it. *)
Fixpoint first_post (tr : list event)
  : option (request * post_outcome * list event) :=
  match tr with
  | [] => None
  | Posted req r :: rest => Some (req, r, rest)
  | _ :: rest => first_post rest
  end.

(** The invalid-token condition on a response: status 401 and a JSON
    object whose [error] member is an object whose [code] member is the
    string [InvalidAuthenticationToken]. *)
Definition token_invalid (resp : response) : bool :=
  (status_code resp =? 401)
  && match json_body resp with
     | Some (JDict items) =>
         match PyJson.lookup "error" items with
         | Some (JDict err) =>
             match PyJson.lookup "code" err with
             | Some (JStr c) => String.eqb c "InvalidAuthenticationToken"
             | _ => false
             end
         | _ => false
         end
     | _ => false
     end.

(** The runs of [send_email] once it holds a token, as traces with their
    result: the request fails in transport; it is answered without the
    invalid-token condition; it meets the condition and the token is not
    renewed; it meets the condition, the token is renewed and the request
    goes out once more under the new token. *)
Inductive prepared_run (req : request) : list event -> bool -> Prop :=
| run_transport_error :
    prepared_run req [Posted req TransportError] false
| run_answered resp :
    token_invalid resp = false ->
    prepared_run req [Posted req (Responded resp)] (status_code resp =? 202)
| run_not_renewed resp g :
    token_invalid resp = true ->
    is_granted g = false ->
    prepared_run req [Posted req (Responded resp); Authenticated g] false
| run_reissued resp tok o :
    token_invalid resp = true ->
    prepared_run req
      [Posted req (Responded resp);
       Authenticated (TokenGranted tok);
       Posted (with_authorization ("Bearer " ++ tok) req) o]
      (accepted_outcome o).

(** The runs of [send_email]: the token is missing or stale and cannot be
    renewed; it is renewed first; it is fresh. *)
Inductive email_run : list event -> bool -> Prop :=
| run_no_token g :
    is_granted g = false ->
    email_run [Authenticated g] false
| run_renewed_first tok req tr b :
    prepared_run req tr b ->
    email_run (Authenticated (TokenGranted tok) :: tr) b
| run_fresh req tr b :
    prepared_run req tr b ->
    email_run tr b.

(** What the scheduler does, read off a trace: the attempts with their
    results and the waits. *)
Inductive step : Type :=
| Attempt (to : string) (ok : bool)
| Wait (site : sleep_site) (seconds : Z).

Definition step_of (e : event) : list step :=
  match e with
  | SendEmailReturned to ok => [Attempt to ok]
  | Slept site d => [Wait site d]
  | _ => []
  end.

Definition schedule (tr : list event) : list step := flat_map step_of tr.

(** The length of the i-th backoff wait of a recipient, i = 1, 2, ... *)
Definition nth_backoff (i : nat) : Z :=
  Z.min (60 * 2 ^ (Z.of_nat i - 1)) 300.

(** [j] failed attempts, each followed by its backoff wait; the first of
    them is attempt number [first] of the recipient (1-based). *)
Fixpoint failed_steps (to : string) (first j : nat) : list step :=
  match j with
  | O => []
  | S j' =>
      Attempt to false :: Wait Backoff (nth_backoff first)
        :: failed_steps to (S first) j'
  end.



(** The waits of one call site, in order. *)
Definition waits_at (site : sleep_site) (steps : list step) : list Z :=
  flat_map
    (fun s =>
       match s, site with
       | Wait Backoff d, Backoff => [d]
       | Wait BetweenRecipients d, BetweenRecipients => [d]
       | _, _ => []
       end) steps.






(** * Example worlds *)

Module Example.

Definition accepted_response : response :=
  {| status_code := 202; json_body := None |}.

Definition server_error : response :=
  {| status_code := 500; json_body := None |}.

(** The 401 answer of the mail API to an expired token. *)
Definition invalid_token_response : response :=
  {| status_code := 401;
     json_body :=
       Some (JDict
               [("error",
                 JDict [("code", JStr "InvalidAuthenticationToken");
                        ("message", JStr "Access token has expired.")])]) |}.

(** Every token call grants a token, every request is accepted; the
    operating system takes the sleeps below 9 * 10^9 seconds. *)
Definition accepting_net : network :=
  {| acquire_token_for_client :=
       fun k => TokenGranted ("token" ++ PyStr.of_nat k);
     requests_post := fun _ _ => Responded accepted_response;
     datetime_now := fun k => Z.of_nat k * 1000000;
     random_source := fun k => Z.of_nat k;
     os_sleep := fun _ d => d <? 9000000000 |}.

(** As [accepting_net], but the first request meets an expired token. *)
Definition expiring_net : network :=
  {| acquire_token_for_client :=
       fun k => TokenGranted ("token" ++ PyStr.of_nat k);
     requests_post :=
       fun k _ =>
         match k with
         | O => Responded invalid_token_response
         | _ => Responded accepted_response
         end;
     datetime_now := fun k => Z.of_nat k * 1000000;
     random_source := fun k => Z.of_nat k;
     os_sleep := fun _ d => d <? 9000000000 |}.

(** As [accepting_net], but every request is answered with status 500. *)
Definition failing_net : network :=
  {| acquire_token_for_client :=
       fun k => TokenGranted ("token" ++ PyStr.of_nat k);
     requests_post := fun _ _ => Responded server_error;
     datetime_now := fun k => Z.of_nat k * 1000000;
     random_source := fun k => Z.of_nat k;
     os_sleep := fun _ d => d <? 9000000000 |}.

(** No html5lib, a parser that sees one string, no image files. *)
Definition plain_world : markup_world :=
  {| parse_html5lib := fun _ => None;
     parse_html_parser := fun s => Some [NavigableString s];
     project_root := "/srv/email_batch_tool";
     os_path_exists := fun _ => false;
     read_base64 := fun _ => None |}.

(** A sender fresh from [__init__], before any call. *)
Definition fresh_state : state :=
  {| sender := new_sender "tenant" "client" "secret" "shared@example.com";
     token_calls := 0;
     post_calls := 0;
     clock_reads := 0;
     random_draws := 0;
     sleep_calls := 0 |}.

Definition two_recipients : list string :=
  ["ann@example.com"; "bob@example.com"].


End Example.

(** * Observations on documents *)

(** What a node is, apart from its children. *)
Inductive label : Type :=
| LTag (tag_name : string) (attrs : list (string * string))
| LString (text : string)
| LComment (text : string)
| LDoctype (text : string)
| LCData (text : string)
| LProcessingInstruction (text : string)
| LDeclaration (text : string).

(** The nodes of a tree in document order, each with its depth: the tree
    written down flat. *)
Fixpoint outline (depth : nat) (n : node) : list (nat * label) :=
  match n with
  | Tag nm attrs ch =>
      (depth, LTag nm attrs) :: flat_map (outline (S depth)) ch
  | NavigableString t => [(depth, LString t)]
  | Comment t => [(depth, LComment t)]
  | Doctype t => [(depth, LDoctype t)]
  | CData t => [(depth, LCData t)]
  | ProcessingInstruction t => [(depth, LProcessingInstruction t)]
  | Declaration t => [(depth, LDeclaration t)]
  end.

(** The same without the tags of the given names and what they contain. *)
Fixpoint outline_outside (names : list string) (depth : nat) (n : node)
  : list (nat * label) :=
  match n with
  | Tag nm attrs ch =>
      if Bs4.in_names nm names then []
      else (depth, LTag nm attrs)
             :: flat_map (outline_outside names (S depth)) ch
  | NavigableString t => [(depth, LString t)]
  | Comment t => [(depth, LComment t)]
  | Doctype t => [(depth, LDoctype t)]
  | CData t => [(depth, LCData t)]
  | ProcessingInstruction t => [(depth, LProcessingInstruction t)]
  | Declaration t => [(depth, LDeclaration t)]
  end.

(** [src] has the form [data:image/<subtype>;base64,<payload>], with
    [mime] for [image/<subtype>]: the subtype is not empty and holds no
    semicolon. *)
Definition image_data_uri_form (src mime payload : string) : Prop :=
  exists subtype,
    subtype <> EmptyString
    /\ PyStr.contains_char ";" subtype = false
    /\ mime = ("image/" ++ subtype)%string
    /\ src = ("data:" ++ mime ++ ";base64," ++ payload)%string.




(** The loop body turns an element of this [src] into an attachment. *)
Definition converted (world : markup_world) (src : string) : bool :=
  match snd (process_img world [] src) with
  | [] => false
  | _ => true
  end.

(** The attachment that the code builds for the [n]-th converted image. *)
Definition inline_image (n : nat) (mime payload : string) : attachment :=
  {| odata_type := "#microsoft.graph.fileAttachment";
     name := "image_" ++ PyStr.of_nat n;
     contentType := mime;
     contentBytes := payload;
     isInline := true;
     contentId := "image_" ++ PyStr.of_nat n ++ "@example.com" |}.

Module MarkupExample.

(** A string between double quotes. *)
Definition quoted (s : string) : string :=
  String Bs4.dquote (s ++ String Bs4.dquote EmptyString).

(** Scenario A: the input, and the document html5lib builds from it. *)
Definition script_input : string := "<p>Hi</p><script>evil()</script>".

Definition script_doc : soup :=
  [Tag "html" []
     [Tag "head" [] [];
      Tag "body" []
        [Tag "p" [] [NavigableString "Hi"];
         Tag "script" [] [NavigableString "evil()"]]]].

(** Scenario B: the input, and the document html.parser builds from it. *)
Definition image_input : string :=
  "<img src=" ++ quoted "data:image/png;base64,QUJD" ++ ">".

Definition image_doc : soup :=
  [Tag "img" [("src", "data:image/png;base64,QUJD")] []].

(** A data URI that is no base64 image, between two that are. *)
Definition mixed_doc : soup :=
  [Tag "p" []
     [Tag "img" [("src", "data:image/png;base64,QUJD")] [];
      Tag "img" [("src", "data:text/plain;base64,SGk=")] [];
      Tag "img" [("alt", "logo"); ("src", "data:image/gif;base64,R0lG")] []]].

(** Parsers that know the two scenario inputs; no image files. *)
Definition world : markup_world :=
  {| parse_html5lib :=
       fun s => if String.eqb s script_input then Some script_doc else None;
     parse_html_parser :=
       fun s => if String.eqb s image_input then Some image_doc
                else Some [NavigableString s];
     project_root := "/srv/email_batch_tool";
     os_path_exists := fun _ => false;
     read_base64 := fun _ => None |}.

End MarkupExample.

(** The tags found in [n] take the first values of [srcs], in order. *)
Definition assigned (n : node) : Prop :=
  forall srcs,
    (List.length (img_srcs n) <= List.length srcs)%nat ->
    img_srcs (fst (assign_srcs n srcs))
    = firstn (List.length (img_srcs n)) srcs
    /\ snd (assign_srcs n srcs) = skipn (List.length (img_srcs n)) srcs.

Module RecipientsExample.

Definition newline : string := String (ascii_of_nat 10) EmptyString.

(** The text [{"to": "ann@example.com"}]: JSON, and no array. *)
Definition object_text : string :=
  "{" ++ MarkupExample.quoted "to" ++ ": "
      ++ MarkupExample.quoted "ann@example.com" ++ "}".

(** The text ["ann@example.com"], one quoted address: a JSON string. *)
Definition quoted_address_text : string :=
  MarkupExample.quoted "ann@example.com".

(** The text [["ann@example.com", " bob@example.com ", ""]]. *)
Definition array_text : string :=
  "[" ++ MarkupExample.quoted "ann@example.com" ++ ", "
      ++ MarkupExample.quoted " bob@example.com " ++ ", "
      ++ MarkupExample.quoted "" ++ "]".

(** Two addresses, one per line, and an empty line. *)
Definition lines_text : string :=
  "ann@example.com" ++ newline ++ "  bob@example.com " ++ newline
    ++ newline.

(** A file system with four files, and [json.loads] on their contents. *)
Definition files : file_world :=
  {| read_text :=
       fun path =>
         if String.eqb path "object.json"
         then FileContent (object_text ++ newline)
         else if String.eqb path "address.txt"
         then FileContent (quoted_address_text ++ newline)
         else if String.eqb path "array.json"
         then FileContent (array_text ++ newline)
         else if String.eqb path "lines.txt"
         then FileContent lines_text
         else FileNotFound;
     json_loads :=
       fun text =>
         if String.eqb text object_text
         then Loaded (JDict [("to", JStr "ann@example.com")])
         else if String.eqb text quoted_address_text
         then Loaded (JStr "ann@example.com")
         else if String.eqb text array_text
         then Loaded (JList [JStr "ann@example.com";
                             JStr " bob@example.com "; JStr ""])
         else NotJson;
     repr_container := fun _ => "..." |}.

End RecipientsExample.

(** * Observations for the further properties *)

(** The fields of the sender that [__init__] sets and nothing else
    should touch. *)
Definition same_config (s s' : OutlookEmailSender) : Prop :=
  tenant_id s' = tenant_id s
  /\ client_id s' = client_id s
  /\ client_secret s' = client_secret s
  /\ shared_mailbox s' = shared_mailbox s
  /\ base_url s' = base_url s.

(** The token that the token calls of a trace leave behind, from the token
    held before it: the last one granted, if any. *)
Fixpoint last_granted (tok : option string) (tr : list event)
  : option string :=
  match tr with
  | [] => tok
  | Authenticated (TokenGranted t) :: rest => last_granted (Some t) rest
  | _ :: rest => last_granted tok rest
  end.

(** [f"Bearer {tok}"] *)
Definition bearer_of (tok : option string) : string :=
  "Bearer " ++ match tok with Some t => t | None => "None" end.

(** Every request of the trace carries the token that was the last one
    granted when it went out ([tok] before the first token call). *)
Fixpoint well_authorised (tok : option string) (tr : list event) : Prop :=
  match tr with
  | [] => True
  | Authenticated (TokenGranted t) :: rest => well_authorised (Some t) rest
  | Posted req _ :: rest =>
      authorization req = bearer_of tok /\ well_authorised tok rest
  | _ :: rest => well_authorised tok rest
  end.

(** [req] is, but for its authorization, the request of one message to the
    one recipient [to]: the [sendMail] address of the mailbox of [s], the
    subject and the body given, the carbon copies and the attachments when
    there are some, and the flag to save the sent item. *)
Definition request_for (s : OutlookEmailSender) (subj html : string)
  (atts : option (list attachment)) (cc : option (list string))
  (to : string) (req : request) : Prop :=
  url req = (base_url s ++ "/users/" ++ shared_mailbox s ++ "/sendMail")%string
  /\ saveToSentItems req = true
  /\ toRecipients (body req) = [to]
  /\ subject (body req) = subj
  /\ content (body req) = html
  /\ ccRecipients (body req)
     = match cc with Some (_ :: _) => cc | _ => None end
  /\ attachments (body req)
     = match atts with Some (_ :: _) => atts | _ => None end.

(** An event that is a request is a request for an allowed recipient. *)
Definition request_to (allowed : string -> Prop) (s : OutlookEmailSender)
  (subj html : string) (atts : option (list attachment))
  (cc : option (list string)) (e : event) : Prop :=
  match e with
  | Posted req _ =>
      exists to, allowed to /\ request_for s subj html atts cc to req
  | _ => True
  end.

(** What a run from [st] to [st'] with the trace [tr] keeps: the
    configuration of the sender; the stored token, which is the last one
    granted; the authorization and the shape of every request. *)
Definition delivery_invariant (allowed : string -> Prop)
  (subj html : string) (atts : option (list attachment))
  (cc : option (list string)) (st st' : state) (tr : list event) : Prop :=
  same_config (sender st) (sender st')
  /\ access_token (sender st')
     = last_granted (access_token (sender st)) tr
  /\ well_authorised (access_token (sender st)) tr
  /\ Forall (request_to allowed (sender st) subj html atts cc) tr.

(** The relation [I] holds of every run of [m]. *)
Definition holds {A : Type} (I : state -> state -> list event -> Prop)
  (m : M A) : Prop :=
  forall st, I st (snd (fst (m st))) (snd (m st)).

(** The number of events of a kind in a trace. *)
Definition count_events (f : event -> bool) (tr : list event) : nat :=
  List.length (filter f tr).

Definition is_attempt (e : event) : bool :=
  match e with SendEmailReturned _ _ => true | _ => false end.

Definition is_success (e : event) : bool :=
  match e with SendEmailReturned _ true => true | _ => false end.

(** [f"image_{k}@example.com"] *)
Definition numbered_cid (k : nat) : string :=
  "image_" ++ PyStr.of_nat k ++ "@example.com".

(** What the loop of [extract_inline_images] puts into every
    attachment. *)
Definition inline_image_attachment (a : attachment) : Prop :=
  odata_type a = "#microsoft.graph.fileAttachment"
  /\ isInline a = true
  /\ PyStr.startswith "image/" (contentType a) = true.

(** The [src] values that the loop of [extract_inline_images] leaves
    behind, the converted ones counted from [k]. *)
Fixpoint relabel (world : markup_world) (k : nat) (srcs : list string)
  : list string :=
  match srcs with
  | [] => []
  | src :: rest =>
      if converted world src
      then ("cid:" ++ numbered_cid k)%string :: relabel world (S k) rest
      else src :: relabel world k rest
  end.

(** A [src] that names a local path, a remote address, a content id, or
    an image file that is not there. *)
Definition left_alone (world : markup_world) (src : string) : bool :=
  PyStr.startswith "file://" src
  || PyStr.startswith "/" src
  || PyStr.startswith "http" src
  || PyStr.startswith "cid:" src
  || negb (PyStr.startswith "data:" src)
     && negb (os_path_exists world (resolve_image_path world src)).

(** Some character of [s] is white space. *)
Fixpoint has_space (s : string) : bool :=
  match s with
  | EmptyString => false
  | String c s' => PyStr.isspace c || has_space s'
  end.

(** Every character of [s] is white space. *)
Fixpoint all_space (s : string) : bool :=
  match s with
  | EmptyString => true
  | String c s' => PyStr.isspace c && all_space s'
  end.

(** An address as a file of lines can hold it: not empty, no white
    space. *)
Definition plain_address (s : string) : Prop :=
  s <> EmptyString /\ has_space s = false.

(** * The program ([main.py]) *)

(** The namespace that [parser.parse_args()] returns. *)
Module Args.

Record arguments : Type := {
  recipients : string;
  template : string;
  subject : string;
  config : option string;
  tenant_id : option string;
  client_id : option string;
  client_secret : option string;
  shared_mailbox : option string;
  min_delay : Z;
  max_delay : Z;
  max_retries : Z;
  cc : option (list string);
  output : option string;
  dry_run : bool
}.

End Args.

(** The same arguments with [--dry-run] given or not. *)
Definition set_dry_run (b : bool) (a : Args.arguments) : Args.arguments :=
  {| Args.recipients := Args.recipients a;
     Args.template := Args.template a;
     Args.subject := Args.subject a;
     Args.config := Args.config a;
     Args.tenant_id := Args.tenant_id a;
     Args.client_id := Args.client_id a;
     Args.client_secret := Args.client_secret a;
     Args.shared_mailbox := Args.shared_mailbox a;
     Args.min_delay := Args.min_delay a;
     Args.max_delay := Args.max_delay a;
     Args.max_retries := Args.max_retries a;
     Args.cc := Args.cc a;
     Args.output := Args.output a;
     Args.dry_run := b |}.

(** Truth value of a decoded value. *)
Definition json_truthy (v : json) : bool :=
  match v with
  | JNull => false
  | JBool b => b
  | JInt n => negb (n =? 0)
  | JFloat r => negb (String.eqb r "0.0" || String.eqb r "-0.0")
  | JStr s => PyStr.truthy s
  | JList items => match items with [] => false | _ => true end
  | JDict items => match items with [] => false | _ => true end
  end.

(** An exception that leaves [main]: one of those the delivery code
    knows, or the [AttributeError] of [config.get] on a value that is no
    dict. *)
Inductive main_error : Type :=
| Uncaught (e : exn)
| AttributeError.

(** How [main] ends: in [sys.exit], at the [return] of the dry run, at
    its last line with the summary of the batch and the path that the
    summary was to be saved to, or with an exception.  What is printed is
    not part of the model; a failure to write the summary is caught and
    only printed. *)
Inductive main_result : Type :=
| MainExit (code : Z)
| MainDryRun
| MainDone (results : summary) (saved_to : option string)
| MainRaised (e : main_error).

(** An argument that was not given is [None]. *)
Definition json_of_option (o : option string) : json :=
  match o with Some s => JStr s | None => JNull end.

(** [d.get(field)] on a dict: the value, [None] when the key is not
    there. *)
Definition field_of (items : list (string * json)) (field : string) : json :=
  match PyJson.lookup field items with
  | Some v => v
  | None => JNull
  end.

(** [config.get(field)]; [None] stands for the [AttributeError] of a
    value without [get]. *)
Definition config_get (config : json) (field : string) : option json :=
  match config with
  | JDict items => Some (field_of items field)
  | _ => None
  end.

(** Line 137 *)
Definition required_fields : list string :=
  ["tenant_id"; "client_id"; "client_secret"; "shared_mailbox"].

(** Lines 138-141: the loop over the required fields; [None] when every
    field passed. *)
Fixpoint validate (config : json) (fields : list string)
  : option main_result :=
  match fields with
  | [] => None
  | field :: rest =>
      match config_get config field with
      | None => Some (MainRaised AttributeError)
      | Some v =>
          if json_truthy v then validate config rest
          else Some (MainExit 1)
      end
  end.

Section Main.

Variable net : network.
Variable world : markup_world.
Variable files : file_world.

(** *** [load_html_template] *)

(** [None] stands for the error printed and [sys.exit(1)]. *)
Definition load_html_template (file_path : string) : option string :=
  match read_text files file_path with
  | FileContent text => Some text
  | FileNotFound => None
  | ReadFailed => None
  end.

(** Lines 121-134: the configuration, from the file or from the
    arguments; [None] stands for the error printed and [sys.exit(1)]. *)
Definition load_config (args : Args.arguments) : option json :=
  match Args.config args with
  | Some (String c p) =>
      match read_text files (String c p) with
      | FileContent text =>
          match json_loads files text with
          | Loaded v => Some v
          | NotJson => None
          | LoadsRaised => None
          end
      | FileNotFound => None
      | ReadFailed => None
      end
  | _ =>
      Some (JDict [("tenant_id", json_of_option (Args.tenant_id args));
                   ("client_id", json_of_option (Args.client_id args));
                   ("client_secret",
                    json_of_option (Args.client_secret args));
                   ("shared_mailbox",
                    json_of_option (Args.shared_mailbox args))])
  end.

(** Lines 160-165: the sender built from the configuration.  The code
    reads the fields of the sender through [str] only (in the address of
    a request), so a field holds the string of its value. *)
Definition configured_sender (config : json) : outcome OutlookEmailSender :=
  match PyJson.getitem config "tenant_id" with
  | Raise e => Raise e
  | Return tenant =>
      match PyJson.getitem config "client_id" with
      | Raise e => Raise e
      | Return client =>
          match PyJson.getitem config "client_secret" with
          | Raise e => Raise e
          | Return secret =>
              match PyJson.getitem config "shared_mailbox" with
              | Raise e => Raise e
              | Return mailbox =>
                  Return (new_sender (py_str files tenant)
                            (py_str files client) (py_str files secret)
                            (py_str files mailbox))
              end
          end
      end
  end.

(** The state when the program starts: no oracle was asked yet. *)
Definition start_state (s : OutlookEmailSender) : state :=
  {| sender := s;
     token_calls := 0;
     post_calls := 0;
     clock_reads := 0;
     random_draws := 0;
     sleep_calls := 0 |}.

(** Lines 168-204: authentication, the batch, and the summary. *)
Definition deliver_batch (args : Args.arguments) (rs : list string)
  (html_template : string) (s : OutlookEmailSender)
  : main_result * list event :=
  match authenticate net (start_state s) with
  | (Raise e, _, tr) => (MainRaised (Uncaught e), tr)
  | (Return false, _, tr) => (MainExit 1, tr)
  | (Return true, st1, tr) =>
      match send_batch net world rs (Args.subject args) html_template
              (Args.min_delay args) (Args.max_delay args)
              (Args.max_retries args) (Args.cc args) st1 with
      | (Raise e, _, tr2) => (MainRaised (Uncaught e), tr ++ tr2)
      | (Return results, _, tr2) =>
          (MainDone results
             (match Args.output args with
              | Some (String c p) => Some (String c p)
              | _ => None
              end),
           tr ++ tr2)
      end
  end.

(** *** [main], after [parse_args] *)
Definition main (args : Args.arguments) : main_result * list event :=
  match load_config args with
  | None => (MainExit 1, [])
  | Some config =>
      match validate config required_fields with
      | Some r => (r, [])
      | None =>
          match load_recipients files (Args.recipients args) with
          | Exits code => (MainExit code, [])
          | loaded =>
              match load_html_template (Args.template args) with
              | None => (MainExit 1, [])
              | Some html_template =>
                  match loaded with
                  | Returns rs =>
                      match PyJson.getitem config "shared_mailbox" with
                      | Raise e => (MainRaised (Uncaught e), [])
                      | Return _ =>
                          if Args.dry_run args then (MainDryRun, [])
                          else
                            match configured_sender config with
                            | Raise e => (MainRaised (Uncaught e), [])
                            | Return s =>
                                deliver_batch args rs html_template s
                            end
                      end
                  | _ => (MainRaised (Uncaught TypeError), [])
                  end
              end
          end
      end
  end.

End Main.

(** A run of the program from the command line of the README, with two
    recipients in a file of lines. *)
Module MainExample.

Definition files : file_world :=
  {| read_text :=
       fun path =>
         if String.eqb path "recipients.txt"
         then FileContent RecipientsExample.lines_text
         else if String.eqb path "template.html"
         then FileContent "<p>Hi</p>"
         else if String.eqb path "object.json"
         then FileContent RecipientsExample.object_text
         else if String.eqb path "clean.txt"
         then FileContent
                ("ann@example.com" ++ RecipientsExample.newline
                   ++ "bob@example.com" ++ RecipientsExample.newline)
         else FileNotFound;
     json_loads :=
       fun text =>
         if String.eqb text RecipientsExample.object_text
         then Loaded (JDict [("to", JStr "ann@example.com")])
         else NotJson;
     repr_container := fun _ => "..." |}.

Definition args : Args.arguments :=
  {| Args.recipients := "recipients.txt";
     Args.template := "template.html";
     Args.subject := "Hello";
     Args.config := None;
     Args.tenant_id := Some "tenant";
     Args.client_id := Some "client";
     Args.client_secret := Some "secret";
     Args.shared_mailbox := Some "shared@example.com";
     Args.min_delay := 30;
     Args.max_delay := 120;
     Args.max_retries := 3;
     Args.cc := None;
     Args.output := None;
     Args.dry_run := false |}.

Definition without_secret (a : Args.arguments) : Args.arguments :=
  {| Args.recipients := Args.recipients a;
     Args.template := Args.template a;
     Args.subject := Args.subject a;
     Args.config := Args.config a;
     Args.tenant_id := Args.tenant_id a;
     Args.client_id := Args.client_id a;
     Args.client_secret := None;
     Args.shared_mailbox := Args.shared_mailbox a;
     Args.min_delay := Args.min_delay a;
     Args.max_delay := Args.max_delay a;
     Args.max_retries := Args.max_retries a;
     Args.cc := Args.cc a;
     Args.output := Args.output a;
     Args.dry_run := Args.dry_run a |}.

Definition with_recipients (path : string) (a : Args.arguments)
  : Args.arguments :=
  {| Args.recipients := path;
     Args.template := Args.template a;
     Args.subject := Args.subject a;
     Args.config := Args.config a;
     Args.tenant_id := Args.tenant_id a;
     Args.client_id := Args.client_id a;
     Args.client_secret := Args.client_secret a;
     Args.shared_mailbox := Args.shared_mailbox a;
     Args.min_delay := Args.min_delay a;
     Args.max_delay := Args.max_delay a;
     Args.max_retries := Args.max_retries a;
     Args.cc := Args.cc a;
     Args.output := Args.output a;
     Args.dry_run := Args.dry_run a |}.

End MainExample.

(** Two passes over a document with one embedded image: the parser knows
    the input and the markup that the first pass returns. *)
Module SecondPassExample.

Definition cid_doc : soup :=
  [Tag "img" [("src", "cid:image_1@example.com")] []].

Definition world : markup_world :=
  {| parse_html5lib := fun _ => None;
     parse_html_parser :=
       fun s =>
         if String.eqb s MarkupExample.image_input
         then Some MarkupExample.image_doc
         else if String.eqb s (Bs4.decode cid_doc) then Some cid_doc
         else Some [NavigableString s];
     project_root := "/srv/email_batch_tool";
     os_path_exists := fun _ => false;
     read_base64 := fun _ => None |}.

(** A remote image, a local path and an image file that is not there. *)
Definition remote_input : string := "<p>three images</p>".

Definition remote_doc : soup :=
  [Tag "p" []
     [Tag "img" [("src", "https://example.com/logo.png")] [];
      Tag "img" [("src", "file:///tmp/logo.png")] [];
      Tag "img" [("src", "images/missing.png")] []]].

Definition remote_world : markup_world :=
  {| parse_html5lib := fun _ => None;
     parse_html_parser :=
       fun s => if String.eqb s remote_input then Some remote_doc
                else Some [NavigableString s];
     project_root := "/srv/email_batch_tool";
     os_path_exists := fun _ => false;
     read_base64 := fun _ => None |}.

End SecondPassExample.

(** * Observations that tie a run to its oracles *)

(** The answers of the trace are the oracles': counting the token calls
    from [tc] and the requests from [pc], each token call carries what the
    identity provider answers to the call of its number, and each request
    what the mail API answers to the request of its number. *)
Fixpoint answers (net : network) (tc pc : nat) (tr : list event) : Prop :=
  match tr with
  | [] => True
  | Authenticated g :: rest =>
      g = acquire_token_for_client net tc /\ answers net (S tc) pc rest
  | Posted req o :: rest =>
      o = requests_post net pc req /\ answers net tc (S pc) rest
  | _ :: rest => answers net tc pc rest
  end.

(** A run from [st] to [st'] with the trace [tr] asked the oracles in
    order, and the state counts what the trace shows. *)
Definition oracle_run (net : network) (st st' : state) (tr : list event)
  : Prop :=
  answers net (token_calls st) (post_calls st) tr
  /\ token_calls st' = (token_calls st + count_events is_token_call tr)%nat
  /\ post_calls st' = (post_calls st + count_events is_post tr)%nat.

(** The test of line 115 in the state [st]: no token, no expiry, or an
    expiry less than 5 minutes after the clock reading. *)
Definition stale (net : network) (st : state) : bool :=
  no_token (sender st)
  || match token_expires_at (sender st) with
     | None => true
     | Some expires =>
         expires - minutes 5 <=? datetime_now net (clock_reads st)
     end.

Definition starts_with_token_call (tr : list event) : bool :=
  match tr with
  | Authenticated _ :: _ => true
  | _ => false
  end.

(** The operating system takes every sleep of a length from [lo] to
    [hi]. *)
Definition sleeps_taken (net : network) (lo hi : Z) : Prop :=
  forall k d, lo <= d <= hi -> os_sleep net k d = true.

(** The trace of the retry loop of one recipient, put together from the
    traces of its calls of [send_email]: the calls that failed, each with
    its return and the backoff wait after it, then the last call with its
    return.  The first call is attempt number [first] of the recipient. *)
Fixpoint retry_trace (to : string) (first : nat) (failures : list (list event))
  (last : list event) (ok : bool) : list event :=
  match failures with
  | [] => last ++ [SendEmailReturned to ok]
  | run :: rest =>
      run ++ SendEmailReturned to false
          :: Slept Backoff (nth_backoff first)
          :: retry_trace to (S first) rest last ok
  end.

(** [part] is the trace of the retry loop for [to], and [ok] its result:
    under a negative budget nothing happens and the result is [False];
    otherwise there are at most [max_retries] failed calls of
    [send_email], then a last call, which gave [ok]; a last call that
    failed is call number [max_retries + 1]. *)
Definition delivery (max_retries : Z) (to : string) (part : list event)
  (ok : bool) : Prop :=
  if max_retries <? 0 then part = [] /\ ok = false
  else
    exists failures last,
      part = retry_trace to 1 failures last ok
      /\ Forall (fun run => email_run run false) failures
      /\ email_run last ok
      /\ Z.of_nat (List.length failures) <= max_retries
      /\ (ok = false -> Z.of_nat (List.length failures) = max_retries).




(** * Properties *)

(** ** Running the monad *)

Lemma bind_Return {A B : Type} (m : M A) (f : A -> M B) st a st1 t1 :
  m st = (Return a, st1, t1) ->
  bind m f st = (let '(r, st2, t2) := f a st1 in (r, st2, t1 ++ t2)).
Proof. unfold bind; intros ->; reflexivity. Qed.

Lemma bind_Raise {A B : Type} (m : M A) (f : A -> M B) st e st1 t1 :
  m st = (Raise e, st1, t1) -> bind m f st = (Raise e, st1, t1).
Proof. unfold bind; intros ->; reflexivity. Qed.

(** ** Relations that every run of a piece of code keeps *)

Section HoldsFacts.

Variable I : state -> state -> list event -> Prop.
Hypothesis I_refl : forall st, I st st [].
Hypothesis I_trans :
  forall st st1 st2 t1 t2,
    I st st1 t1 -> I st1 st2 t2 -> I st st2 (t1 ++ t2).

Lemma holds_ret {A : Type} (a : A) : holds I (ret a).
Proof. intros st. apply I_refl. Qed.

Lemma holds_raise {A : Type} (e : exn) : holds I (@raise A e).
Proof. intros st. apply I_refl. Qed.

Lemma holds_bind {A B : Type} (m : M A) (f : A -> M B) :
  holds I m -> (forall a, holds I (f a)) -> holds I (bind m f).
Proof.
  intros Hm Hf st. specialize (Hm st). unfold bind.
  destruct (m st) as [[[a|e] st1] t1]; simpl in *; [|exact Hm].
  specialize (Hf a st1). destruct (f a st1) as [[r st2] t2]. simpl in *.
  eapply I_trans; eassumption.
Qed.

Lemma holds_try_except {A : Type} (m : M A) (h : exn -> M A) :
  holds I m -> (forall e, holds I (h e)) -> holds I (try_except m h).
Proof.
  intros Hm Hh st. specialize (Hm st). unfold try_except.
  destruct (m st) as [[[a|e] st1] t1]; simpl in *; [exact Hm|].
  specialize (Hh e st1). destruct (h e st1) as [[r st2] t2]. simpl in *.
  eapply I_trans; eassumption.
Qed.

Lemma holds_lift {A : Type} (o : outcome A) : holds I (lift o).
Proof. destruct o; [apply holds_ret|apply holds_raise]. Qed.

Section LoopFacts.

Variable net : network.
Variables (subj processed_html : string) (atts : list attachment).
Variables (min_delay max_delay max_retries : Z).
Variable cc_addresses : option (list string).
Variable allowed : string -> Prop.

Hypothesis I_send :
  forall to,
    allowed to ->
    holds I (send_email net to subj processed_html (Some atts) cc_addresses).
Hypothesis I_emit : forall to ok, holds I (emit (SendEmailReturned to ok)).
Hypothesis I_sleep : forall site d, holds I (sleep net site d).
Hypothesis I_now : holds I (now net).
Hypothesis I_randint : forall a b, holds I (randint net a b).

Lemma holds_retry_loop to remaining :
  allowed to ->
  forall attempt,
    holds I (retry_loop net subj processed_html atts max_retries
               cc_addresses to remaining attempt).
Proof.
  intros Hto. induction remaining as [|r IH]; intros attempt.
  - apply holds_ret.
  - cbn [retry_loop]. apply holds_bind; [now apply I_send|]. intros ok.
    apply holds_bind; [apply I_emit|]. intros _.
    destruct ok; [apply holds_ret|].
    destruct (attempt <? max_retries); [|apply IH].
    apply holds_bind; [apply I_sleep|]. intros _. apply IH.
Qed.

Lemma holds_batch_loop n rest :
  Forall allowed rest ->
  forall i results,
    holds I (batch_loop net subj processed_html atts min_delay max_delay
               max_retries cc_addresses i n rest results).
Proof.
  induction 1 as [|to rest Hto _ IH]; intros i results.
  - apply holds_ret.
  - cbn [batch_loop].
    apply holds_bind; [now apply holds_retry_loop|]. intros success.
    apply holds_bind; [apply I_now|]. intros ts.
    apply holds_bind; [|intros _; apply IH].
    destruct (i <? n - 1); [|apply holds_ret].
    apply holds_bind; [apply I_randint|]. intros delay. apply I_sleep.
Qed.

End LoopFacts.

End HoldsFacts.

(** ** Credential session *)

Section AuthenticateFacts.

Variable net : network.

Lemma authenticate_run st :
  authenticate net st =
    match acquire_token_for_client net (token_calls st) with
    | TokenGranted tok =>
        (Return true, granted_state net tok st,
         [Authenticated (TokenGranted tok)])
    | r => (Return false, count_token_call st, [Authenticated r])
    end.
Proof.
  unfold authenticate, try_except, bind, msal_acquire_token.
  destruct (acquire_token_for_client net (token_calls st)); reflexivity.
Qed.

End AuthenticateFacts.

(** ** Delivery client *)

Section DeliveryFacts.

Variable net : network.

Lemma invalid_token_body_true resp j :
  status_code resp = 401 ->
  json_body resp = Some j ->
  invalid_token_body j = Return true <-> token_invalid resp = true.
Proof.
  intros Hs Hj. unfold token_invalid. rewrite Hs, Hj. simpl.
  unfold invalid_token_body.
  destruct j as [ | b | n | r | s | l | items ]; simpl;
    try (split; discriminate).
  - destruct (PyStr.contains "error" s); simpl; split; discriminate.
  - destruct (existsb (PyJson.is_str "error") l); simpl; split; discriminate.
  - destruct (PyJson.lookup "error" items) as [err|]; simpl;
      [|split; discriminate].
    destruct err as [ | b | n | r | s | l | err ]; simpl;
      try (split; discriminate).
    destruct (PyJson.lookup "code" err) as [code|]; simpl;
      [|split; discriminate].
    unfold PyJson.eq_str, PyJson.is_str.
    destruct code; simpl; try (split; discriminate).
    split; intros H; [injection H as H | f_equal]; exact H.
Qed.

Lemma token_invalid_status resp :
  token_invalid resp = true -> status_code resp = 401.
Proof.
  unfold token_invalid. intros H.
  apply andb_true_iff in H as [H _]. now apply Z.eqb_eq in H.
Qed.

Lemma bearer_granted tok st :
  bearer (sender (granted_state net tok st)) = ("Bearer " ++ tok)%string.
Proof. reflexivity. Qed.

Lemma send_prepared_run to subj html atts cc st :
  exists b st' tr,
    send_prepared net to subj html atts cc st = (Return b, st', tr)
    /\ prepared_run
         (send_request (sender st) (bearer (sender st))
            (email_data to subj html atts cc)) tr b.
Proof.
  unfold send_prepared, try_except, bind, get_sender, post.
  set (req := send_request _ _ _).
  destruct (requests_post net (post_calls st) req) as [resp|] eqn:Hpost.
  2: { simpl. do 3 eexists. split; [reflexivity|constructor]. }
  unfold refresh_on_401.
  destruct (status_code resp =? 401) eqn:H401.
  - apply Z.eqb_eq in H401.
    unfold response_json, bind.
    destruct (json_body resp) as [j|] eqn:Hj.
    + pose proof (invalid_token_body_true resp j H401 Hj) as Hinv.
      simpl.
      destruct (invalid_token_body j) as [[|]|e] eqn:Hbody; simpl.
      * assert (Hti : token_invalid resp = true) by now apply Hinv.
        rewrite authenticate_run.
        destruct (acquire_token_for_client net (token_calls (count_post st)))
          as [tok| |] eqn:Htok; simpl.
        -- unfold post.
           match goal with
           | |- context [requests_post net ?k ?r] =>
               destruct (requests_post net k r) as [resp'|] eqn:Hpost'
           end; simpl.
           ++ do 3 eexists. split; [reflexivity|].
              apply (run_reissued req resp tok (Responded resp') Hti).
           ++ do 3 eexists. split; [reflexivity|].
              apply (run_reissued req resp tok TransportError Hti).
        -- do 3 eexists. split; [reflexivity|].
           now apply (run_not_renewed req resp TokenRefused).
        -- do 3 eexists. split; [reflexivity|].
           now apply (run_not_renewed req resp TokenRaised).
      * do 3 eexists. split; [reflexivity|].
        apply run_answered.
        destruct (token_invalid resp); [|reflexivity].
        destruct Hinv as [_ Hinv]. specialize (Hinv eq_refl). discriminate.
      * do 3 eexists. split; [reflexivity|].
        replace false with (status_code resp =? 202)
          by (rewrite H401; reflexivity).
        apply run_answered.
        destruct (token_invalid resp); [|reflexivity].
        destruct Hinv as [_ Hinv]. specialize (Hinv eq_refl). discriminate.
    + simpl. do 3 eexists. split; [reflexivity|].
      replace false with (status_code resp =? 202)
        by (rewrite H401; reflexivity).
      apply run_answered. unfold token_invalid. rewrite Hj.
      now rewrite andb_false_r.
  - simpl. do 3 eexists. split; [reflexivity|].
    apply run_answered. unfold token_invalid. now rewrite H401.
Qed.

Lemma is_token_expired_run st :
  exists stale st1, is_token_expired net st = (Return stale, st1, []).
Proof.
  unfold is_token_expired, bind, get_sender.
  destruct (no_token (sender st)); simpl; [now eauto|].
  destruct (token_expires_at (sender st)); simpl; now eauto.
Qed.

Lemma send_email_run to subj html atts cc st :
  exists b st' tr,
    send_email net to subj html atts cc st = (Return b, st', tr)
    /\ email_run tr b.
Proof.
  unfold send_email.
  set (prepared := send_prepared net to subj html atts cc).
  assert (Hstale : exists stale st1,
    (if no_token (sender st) then ret true else is_token_expired net) st
    = (Return stale, st1, [])).
  { destruct (no_token (sender st)); [now unfold ret; eauto|].
    apply is_token_expired_run. }
  destruct Hstale as (stale & st1 & Hstale).
  unfold bind at 1. unfold get_sender at 1.
  unfold bind at 1. rewrite Hstale.
  destruct stale; simpl.
  - unfold bind at 1. rewrite authenticate_run.
    destruct (acquire_token_for_client net (token_calls st1)) as [tok| |];
      simpl.
    + destruct (send_prepared_run to subj html atts cc
                  (granted_state net tok st1)) as (b & st' & tr & Hrun & Hp).
      fold prepared in Hrun. rewrite Hrun.
      do 3 eexists. split; [reflexivity|].
      eapply run_renewed_first; eassumption.
    + do 3 eexists. split; [reflexivity|]. now constructor.
    + do 3 eexists. split; [reflexivity|]. now constructor.
  - destruct (send_prepared_run to subj html atts cc st1)
      as (b & st' & tr & Hrun & Hp).
    fold prepared in Hrun. rewrite Hrun.
    do 3 eexists. split; [reflexivity|].
    eapply run_fresh; eassumption.
Qed.
End DeliveryFacts.

(** ** The oracles behind a run *)

Lemma count_events_app f t1 t2 :
  count_events f (t1 ++ t2) = (count_events f t1 + count_events f t2)%nat.
Proof. unfold count_events. now rewrite filter_app, length_app. Qed.

Lemma answers_app net t1 :
  forall tc pc t2,
    answers net tc pc t1 ->
    answers net (tc + count_events is_token_call t1)
      (pc + count_events is_post t1) t2 ->
    answers net tc pc (t1 ++ t2).
Proof.
  induction t1 as [|e t1 IH]; intros tc pc t2 H1 H2.
  - cbn in H2. now rewrite !Nat.add_0_r in H2.
  - destruct e as [g|req o|site d|to ok]; cbn in H1, H2 |- *.
    + destruct H1 as [Hg H1]. split; [exact Hg|].
      apply IH; [exact H1|]. now rewrite Nat.add_succ_r in H2.
    + destruct H1 as [Ho H1]. split; [exact Ho|].
      apply IH; [exact H1|]. now rewrite Nat.add_succ_r in H2.
    + now apply IH.
    + now apply IH.
Qed.

Lemma answers_app_inv net t1 :
  forall tc pc t2,
    answers net tc pc (t1 ++ t2) ->
    answers net tc pc t1
    /\ answers net (tc + count_events is_token_call t1)
         (pc + count_events is_post t1) t2.
Proof.
  induction t1 as [|e t1 IH]; intros tc pc t2 H.
  - cbn. rewrite !Nat.add_0_r. now split.
  - destruct e as [g|req o|site d|to ok]; cbn in H |- *.
    + destruct H as [Hg H]. apply IH in H as [H1 H2].
      rewrite Nat.add_succ_r. now repeat split.
    + destruct H as [Ho H]. apply IH in H as [H1 H2].
      rewrite Nat.add_succ_r. now repeat split.
    + now apply IH.
    + now apply IH.
Qed.

(** A relation kept by the four primitives that touch the state or the
    outside world is kept by the delivery client. *)
Section DeliveryHolds.

Variable net : network.
Variable I : state -> state -> list event -> Prop.
Hypothesis I_refl : forall st, I st st [].
Hypothesis I_trans :
  forall st st1 st2 t1 t2,
    I st st1 t1 -> I st1 st2 t2 -> I st st2 (t1 ++ t2).
Hypothesis I_msal : holds I (msal_acquire_token net).
Hypothesis I_post : forall req, holds I (post net req).
Hypothesis I_now : holds I (now net).
Hypothesis I_modify : forall f, holds I (modify_sender f).

Lemma holds_get_sender : holds I get_sender.
Proof. intros st. apply I_refl. Qed.

Lemma holds_authenticate : holds I (authenticate net).
Proof.
  unfold authenticate.
  apply holds_try_except; [exact I_trans| |];
    [|intros e; now apply holds_ret].
  apply holds_bind; [exact I_trans|exact I_msal|].
  intros [tok| |]; try now apply holds_ret.
  apply holds_bind; [exact I_trans|apply I_modify|]. intros _.
  apply holds_bind; [exact I_trans|exact I_now|]. intros t.
  apply holds_bind; [exact I_trans|apply I_modify|]. intros _.
  now apply holds_ret.
Qed.

Lemma holds_is_token_expired : holds I (is_token_expired net).
Proof.
  unfold is_token_expired.
  apply holds_bind; [exact I_trans|apply holds_get_sender|]. intros s.
  destruct (no_token s); [now apply holds_ret|].
  destruct (token_expires_at s); [|now apply holds_ret].
  apply holds_bind; [exact I_trans|exact I_now|]. intros t.
  now apply holds_ret.
Qed.

Lemma holds_send_prepared to subj html atts cc :
  holds I (send_prepared net to subj html atts cc).
Proof.
  unfold send_prepared.
  apply holds_bind; [exact I_trans|apply holds_get_sender|].
  intros s.
  apply holds_try_except; [exact I_trans| |];
    [|intros e; now apply holds_ret].
  apply holds_bind; [exact I_trans|apply I_post|].
  intros resp.
  apply holds_bind; [exact I_trans| |];
    [|intros [r|]; now apply holds_ret].
  unfold refresh_on_401.
  destruct (status_code resp =? 401); [|now apply holds_ret].
  apply holds_bind; [exact I_trans| |].
  { unfold response_json. destruct (json_body resp);
      [now apply holds_ret|now apply holds_raise]. }
  intros j.
  apply holds_bind; [exact I_trans|now apply holds_lift|].
  intros [|]; [|now apply holds_ret].
  apply holds_bind; [exact I_trans|apply holds_authenticate|].
  intros [|]; [|now apply holds_ret].
  apply holds_bind; [exact I_trans|apply holds_get_sender|].
  intros s'.
  apply holds_bind; [exact I_trans|apply I_post|].
  intros resp'. now apply holds_ret.
Qed.

Lemma holds_send_email to subj html atts cc :
  holds I (send_email net to subj html atts cc).
Proof.
  unfold send_email.
  apply holds_bind; [exact I_trans|apply holds_get_sender|].
  intros s. apply holds_bind; [exact I_trans| |].
  { destruct (no_token s);
      [now apply holds_ret|apply holds_is_token_expired]. }
  intros [|]; [|apply holds_send_prepared].
  apply holds_bind; [exact I_trans|apply holds_authenticate|].
  intros [|]; [apply holds_send_prepared|].
  now apply holds_ret.
Qed.

End DeliveryHolds.

Section OracleFacts.

Variable net : network.

Lemma oracle_run_refl st : oracle_run net st st [].
Proof. unfold oracle_run. cbn. now rewrite !Nat.add_0_r. Qed.

Lemma oracle_run_trans st st1 st2 t1 t2 :
  oracle_run net st st1 t1 -> oracle_run net st1 st2 t2 ->
  oracle_run net st st2 (t1 ++ t2).
Proof.
  intros (A1 & T1 & P1) (A2 & T2 & P2). unfold oracle_run.
  rewrite !count_events_app. split; [|lia].
  apply answers_app; [exact A1|]. now rewrite <- T1, <- P1.
Qed.

(** A piece of code that asks neither the provider nor the mail API. *)
Lemma oracle_quiet st st' tr :
  token_calls st' = token_calls st ->
  post_calls st' = post_calls st ->
  Forall (fun e => is_post e = false /\ is_token_call e = false) tr ->
  oracle_run net st st' tr.
Proof.
  intros Ht Hp Hq. unfold oracle_run. rewrite Ht, Hp.
  induction Hq as [|e tr [H1 H2] _ IH].
  { cbn. now rewrite !Nat.add_0_r. }
  destruct IH as (IH1 & IH2 & IH3).
  destruct e; try discriminate; cbn in *; now repeat split.
Qed.

Lemma oracle_emit to ok :
  holds (oracle_run net) (emit (SendEmailReturned to ok)).
Proof. intros st. apply oracle_quiet; repeat constructor. Qed.

Lemma oracle_get_sender : holds (oracle_run net) get_sender.
Proof. intros st. apply oracle_run_refl. Qed.

Lemma oracle_sleep site d : holds (oracle_run net) (sleep net site d).
Proof.
  intros st. unfold sleep.
  destruct ((d <? - sleep_limit) || (sleep_limit <? d));
    [apply oracle_run_refl|].
  destruct (d <? 0); [apply oracle_run_refl|].
  destruct (os_sleep net (sleep_calls st) d);
    apply oracle_quiet; repeat constructor.
Qed.

Lemma oracle_now : holds (oracle_run net) (now net).
Proof. intros st. apply oracle_quiet; repeat constructor. Qed.


Lemma oracle_msal : holds (oracle_run net) (msal_acquire_token net).
Proof.
  intros st. unfold msal_acquire_token, oracle_run.
  destruct (acquire_token_for_client net (token_calls st)) eqn:E;
    cbn; rewrite E; repeat split; lia.
Qed.

Lemma oracle_post req : holds (oracle_run net) (post net req).
Proof.
  intros st. unfold post, oracle_run.
  destruct (requests_post net (post_calls st) req) eqn:E;
    cbn; rewrite E; repeat split; lia.
Qed.

Lemma oracle_modify_sender f : holds (oracle_run net) (modify_sender f).
Proof. intros st. apply oracle_quiet; repeat constructor. Qed.

Lemma oracle_send_email to subj html atts cc :
  holds (oracle_run net) (send_email net to subj html atts cc).
Proof.
  apply holds_send_email.
  - apply oracle_run_refl.
  - apply oracle_run_trans.
  - apply oracle_msal.
  - apply oracle_post.
  - apply oracle_now.
  - apply oracle_modify_sender.
Qed.

Lemma oracle_retry_loop subj html atts max_retries cc to remaining attempt :
  holds (oracle_run net)
    (retry_loop net subj html atts max_retries cc to remaining attempt).
Proof.
  apply (holds_retry_loop (oracle_run net) oracle_run_refl oracle_run_trans
           net subj html atts max_retries cc (fun _ => True)).
  - intros to' _. apply oracle_send_email.
  - apply oracle_emit.
  - apply oracle_sleep.
  - exact I.
Qed.

Lemma oracle_deliver subj html atts max_retries cc to :
  holds (oracle_run net) (deliver net subj html atts max_retries cc to).
Proof. apply oracle_retry_loop. Qed.



End OracleFacts.

(** ** One call of [send_email], case by case *)

Section SendEmailCases.

Variable net : network.

Lemma stale_run st :
  (if no_token (sender st) then ret true else is_token_expired net) st
  = (Return (stale net st),
     (if no_token (sender st) then st
      else match token_expires_at (sender st) with
           | None => st
           | Some _ => count_clock_read st
           end), []).
Proof.
  unfold stale, is_token_expired, bind, get_sender, now, ret.
  destruct (no_token (sender st)) eqn:E; [reflexivity|].
  cbn. rewrite E.
  destruct (token_expires_at (sender st)); reflexivity.
Qed.

(** With a stale token the call starts with a token call and goes on only
    when a token was granted; with a fresh one it starts with the
    request.  The request is the message for [to] under the token held
    when it goes out. *)
Lemma send_email_cases to subj html atts cc st :
  exists b st' tr,
    send_email net to subj html atts cc st = (Return b, st', tr)
    /\ if stale net st then
         match acquire_token_for_client net (token_calls st) with
         | TokenGranted tok =>
             exists tr',
               tr = Authenticated (TokenGranted tok) :: tr'
               /\ prepared_run
                    (send_request (sender st) ("Bearer " ++ tok)
                       (email_data to subj html atts cc)) tr' b
         | g => tr = [Authenticated g] /\ b = false /\ sender st' = sender st
         end
       else
         prepared_run
           (send_request (sender st) (bearer (sender st))
              (email_data to subj html atts cc)) tr b.
Proof.
  unfold send_email.
  unfold bind at 1. unfold get_sender at 1.
  unfold bind at 1. rewrite stale_run.
  set (st1 := if no_token (sender st) then st
              else match token_expires_at (sender st) with
                   | None => st
                   | Some _ => count_clock_read st
                   end).
  assert (Hs : sender st1 = sender st /\ token_calls st1 = token_calls st).
  { subst st1. destruct (no_token (sender st)); [now split|].
    destruct (token_expires_at (sender st)); now split. }
  destruct Hs as [Hs Ht].
  destruct (stale net st).
  - unfold bind at 1. rewrite authenticate_run, Ht.
    destruct (acquire_token_for_client net (token_calls st)) as [tok| |].
    + destruct (send_prepared_run net to subj html atts cc
                  (granted_state net tok st1)) as (b & st' & tr & Hrun & Hp).
      rewrite Hrun. exists b, st', (Authenticated (TokenGranted tok) :: tr).
      split; [reflexivity|]. exists tr. split; [reflexivity|].
      cbn in Hp. rewrite Hs in Hp. exact Hp.
    + do 3 eexists. split; [reflexivity|]. cbn. now repeat split.
    + do 3 eexists. split; [reflexivity|]. cbn. now repeat split.
  - destruct (send_prepared_run net to subj html atts cc st1)
      as (b & st' & tr & Hrun & Hp).
    rewrite Hrun. exists b, st', tr.
    split; [reflexivity|]. now rewrite Hs in Hp.
Qed.

Lemma prepared_run_starts req tr b :
  prepared_run req tr b ->
  starts_with_token_call tr = false /\ first_post tr <> None.
Proof. destruct 1; cbn; split; (reflexivity || discriminate). Qed.

Lemma prepared_run_rejected req tr b tc pc :
  prepared_run req tr b ->
  answers net tc pc tr ->
  (forall k r, accepted_outcome (requests_post net k r) = false) ->
  b = false.
Proof.
  intros Hp Ha Hno.
  destruct Hp as [|resp Hinv|resp g Hinv Hg|resp tok o Hinv];
    cbn in Ha; try reflexivity.
  - destruct Ha as [Ho _]. specialize (Hno pc req).
    rewrite <- Ho in Hno. exact Hno.
  - destruct Ha as (_ & _ & Ho & _). rewrite Ho. apply Hno.
Qed.

Lemma prepared_run_accepted_all req tr b tc pc :
  prepared_run req tr b ->
  answers net tc pc tr ->
  (forall k, is_granted (acquire_token_for_client net k) = true) ->
  (forall k r, accepted_outcome (requests_post net k r) = true) ->
  b = true.
Proof.
  intros Hp Ha Hg Hyes.
  destruct Hp as [|resp Hinv|resp g Hinv Hng|resp tok o Hinv]; cbn in Ha.
  - destruct Ha as [Ho _]. specialize (Hyes pc req).
    rewrite <- Ho in Hyes. discriminate.
  - destruct Ha as [Ho _]. specialize (Hyes pc req).
    rewrite <- Ho in Hyes. exact Hyes.
  - destruct Ha as (_ & Hg' & _). rewrite Hg', Hg in Hng. discriminate.
  - destruct Ha as (_ & _ & Ho & _). rewrite Ho. apply Hyes.
Qed.

Lemma email_run_rejected tr b tc pc :
  email_run tr b ->
  answers net tc pc tr ->
  (forall k r, accepted_outcome (requests_post net k r) = false) ->
  b = false.
Proof.
  intros Hr Ha Hno.
  destruct Hr as [g Hg|tok req tr b Hp|req tr b Hp]; [reflexivity| |].
  - cbn in Ha. destruct Ha as [_ Ha].
    eapply prepared_run_rejected; eassumption.
  - eapply prepared_run_rejected; eassumption.
Qed.

Lemma email_run_accepted_all tr b tc pc :
  email_run tr b ->
  answers net tc pc tr ->
  (forall k, is_granted (acquire_token_for_client net k) = true) ->
  (forall k r, accepted_outcome (requests_post net k r) = true) ->
  b = true.
Proof.
  intros Hr Ha Hg Hyes.
  destruct Hr as [g Hng|tok req tr b Hp|req tr b Hp].
  - cbn in Ha. destruct Ha as [Hg' _]. rewrite Hg', Hg in Hng.
    discriminate.
  - cbn in Ha. destruct Ha as [_ Ha].
    eapply prepared_run_accepted_all; eassumption.
  - eapply prepared_run_accepted_all; eassumption.
Qed.

End SendEmailCases.

(** ** The steps of a run *)

Lemma schedule_app t1 t2 : schedule (t1 ++ t2) = schedule t1 ++ schedule t2.
Proof. unfold schedule. apply flat_map_app. Qed.

Lemma prepared_run_schedule req tr b : prepared_run req tr b -> schedule tr = [].
Proof. destruct 1; reflexivity. Qed.

Lemma email_run_schedule tr b : email_run tr b -> schedule tr = [].
Proof.
  destruct 1 as [g Hg|tok req tr b Hp|req tr b Hp]; simpl;
    eauto using prepared_run_schedule.
Qed.

Lemma prepared_run_counts req tr b :
  prepared_run req tr b ->
  (count_events is_post tr <= 2)%nat
  /\ (count_events is_token_call tr <= 1)%nat
  /\ count_events is_attempt tr = 0%nat.
Proof. destruct 1; unfold count_events; simpl; lia. Qed.

Lemma email_run_counts tr b :
  email_run tr b ->
  (count_events is_post tr <= 2)%nat
  /\ (count_events is_token_call tr <= 2)%nat
  /\ count_events is_attempt tr = 0%nat
  /\ count_events is_success tr = 0%nat.
Proof.
  destruct 1 as [g Hg|tok req tr b Hp|req tr b Hp].
  - unfold count_events. simpl. lia.
  - pose proof Hp as Hp'. apply prepared_run_counts in Hp as (H1 & H2 & H3).
    unfold count_events in *. simpl.
    assert (List.length (filter is_success tr) = 0%nat)
      by (destruct Hp'; reflexivity).
    lia.
  - pose proof Hp as Hp'. apply prepared_run_counts in Hp as (H1 & H2 & H3).
    assert (count_events is_success tr = 0%nat)
      by (destruct Hp'; reflexivity).
    lia.
Qed.

Lemma backoff_delay_pos attempt : 0 <= attempt -> 0 < backoff_delay attempt.
Proof.
  intros H. unfold backoff_delay.
  assert (0 < 2 ^ attempt) by (apply Z.pow_pos_nonneg; lia). lia.
Qed.

Lemma backoff_delay_range attempt :
  0 <= attempt -> 60 <= backoff_delay attempt <= 300.
Proof.
  intros H. unfold backoff_delay.
  assert (1 <= 2 ^ attempt).
  { change 1 with (2 ^ 0). apply Z.pow_le_mono_r; lia. }
  lia.
Qed.

Lemma nth_backoff_S a : nth_backoff (S a) = backoff_delay (Z.of_nat a).
Proof. unfold nth_backoff, backoff_delay. do 3 f_equal. lia. Qed.

(** A sleep that is taken. *)
Lemma sleep_taken net site d st :
  0 <= d <= sleep_limit ->
  os_sleep net (sleep_calls st) d = true ->
  sleep net site d st = (Return tt, count_sleep st, [Slept site d]).
Proof.
  intros Hd Hos. unfold sleep.
  replace ((d <? - sleep_limit) || (sleep_limit <? d)) with false.
  2: { symmetry. apply orb_false_iff. unfold sleep_limit in *.
       split; [apply Z.ltb_ge|apply Z.ltb_ge]; lia. }
  replace (d <? 0) with false by (symmetry; apply Z.ltb_ge; lia).
  now rewrite Hos.
Qed.

Lemma schedule_retry_trace to failures :
  forall first last ok,
    Forall (fun run => email_run run false) failures ->
    email_run last ok ->
    schedule (retry_trace to first failures last ok)
    = failed_steps to first (List.length failures) ++ [Attempt to ok].
Proof.
  induction failures as [|run failures IH]; intros first last ok Hf Hl.
  - cbn. rewrite schedule_app, (email_run_schedule _ _ Hl). reflexivity.
  - inversion Hf as [|? ? Hrun Hrest]; subst.
    cbn [retry_trace List.length failed_steps].
    rewrite schedule_app, (email_run_schedule _ _ Hrun). cbn.
    now rewrite IH.
Qed.

Lemma count_attempts_retry_trace to failures :
  forall first last ok,
    Forall (fun run => email_run run false) failures ->
    email_run last ok ->
    count_events is_attempt (retry_trace to first failures last ok)
    = S (List.length failures).
Proof.
  induction failures as [|run failures IH]; intros first last ok Hf Hl.
  - cbn [retry_trace List.length]. rewrite count_events_app.
    apply email_run_counts in Hl as (_ & _ & -> & _). reflexivity.
  - inversion Hf as [|? ? Hrun Hrest]; subst.
    cbn [retry_trace List.length]. rewrite count_events_app.
    apply email_run_counts in Hrun as (_ & _ & -> & _).
    specialize (IH (S first) last ok Hrest Hl).
    unfold count_events in *. cbn. now rewrite IH.
Qed.

Section BatchFacts.

Variable net : network.
Variables (subj processed_html : string) (atts : list attachment).
Variables (min_delay max_delay max_retries : Z).
Variable cc_addresses : option (list string).

Hypothesis backoff_taken : sleeps_taken net 60 300.

Lemma retry_loop_run to remaining a st :
  Z.of_nat a + Z.of_nat remaining = max_retries + 1 ->
  exists b st' tr,
    retry_loop net subj processed_html atts max_retries cc_addresses to
        remaining (Z.of_nat a) st = (Return b, st', tr)
    /\ match remaining with
       | O => b = false /\ tr = []
       | S r =>
           exists failures last,
             (List.length failures <= r)%nat
             /\ tr = retry_trace to (S a) failures last b
             /\ Forall (fun run => email_run run false) failures
             /\ email_run last b
             /\ (b = false -> List.length failures = r)
       end.
Proof.
  revert a st.
  induction remaining as [|r IH]; intros a st Hinv.
  - simpl. do 3 eexists. split; [reflexivity|]. now split.
  - cbn [retry_loop].
    destruct (send_email_run net to subj processed_html (Some atts)
                cc_addresses st) as (ok & st1 & tr1 & Hrun & Hshape).
    unfold bind at 1. rewrite Hrun.
    unfold bind at 1. unfold emit at 1.
    destruct ok.
    + unfold ret. do 3 eexists. split; [reflexivity|].
      exists [], tr1. split; [simpl; lia|]. split; [reflexivity|].
      split; [constructor|]. split; [exact Hshape|discriminate].
    + destruct (Z.of_nat a <? max_retries) eqn:Hlt.
      * apply Z.ltb_lt in Hlt.
        unfold bind at 1.
        pose proof (backoff_delay_range (Z.of_nat a) ltac:(lia)) as Hrange.
        rewrite sleep_taken;
          [|unfold sleep_limit; lia|now apply backoff_taken].
        replace (Z.of_nat a + 1) with (Z.of_nat (S a)) by lia.
        destruct (IH (S a) (count_sleep st1) ltac:(lia))
          as (b & st' & tr & Hrec & Hspec).
        rewrite Hrec.
        do 3 eexists. split; [reflexivity|].
        destruct r as [|r']; [lia|].
        destruct Hspec as (failures & last & Hj & Htr & Hf & Hl & Hfail).
        exists (tr1 :: failures), last.
        split; [simpl; lia|]. split.
        { cbn [retry_trace]. rewrite Htr, nth_backoff_S. reflexivity. }
        split; [now constructor|]. split; [exact Hl|].
        intros Hb. simpl. f_equal. auto.
      * apply Z.ltb_ge in Hlt.
        replace (Z.of_nat a + 1) with (Z.of_nat (S a)) by lia.
        destruct (IH (S a) st1 ltac:(lia)) as (b & st' & tr & Hrec & Hspec).
        rewrite Hrec.
        do 3 eexists. split; [reflexivity|].
        destruct r as [|r']; [|lia].
        destruct Hspec as [-> ->].
        exists [], tr1. split; [simpl; lia|].
        split; [reflexivity|].
        split; [constructor|]. split; [exact Hshape|reflexivity].
Qed.

Lemma deliver_run to st :
  exists b st' tr,
    deliver net subj processed_html atts max_retries cc_addresses to st
      = (Return b, st', tr)
    /\ delivery max_retries to tr b.
Proof.
  unfold deliver, delivery.
  destruct (max_retries <? 0) eqn:Hneg.
  - apply Z.ltb_lt in Hneg.
    replace (Z.to_nat (max_retries + 1)) with O by lia.
    simpl. exists false, st, []. now repeat split.
  - apply Z.ltb_ge in Hneg.
    destruct (retry_loop_run to (Z.to_nat (max_retries + 1)) O st
                ltac:(lia)) as (b & st' & tr & Hrun & Hspec).
    simpl in Hrun.
    destruct (Z.to_nat (max_retries + 1)) as [|r] eqn:Hr; [lia|].
    destruct Hspec as (failures & last & Hj & Htr & Hf & Hl & Hfail).
    exists b, st', tr. split; [exact Hrun|].
    exists failures, last. repeat split; try assumption; [lia|].
    intros Hb. rewrite (Hfail Hb). lia.
Qed.

End BatchFacts.


(** ** The loop over the recipients *)

Section DrawFacts.

Variable net : network.


End DrawFacts.



Section BatchLoopFacts.

Variable net : network.
Variables (subj processed_html : string) (atts : list attachment).
Variables (min_delay max_delay max_retries : Z).
Variable cc_addresses : option (list string).

Hypothesis backoff_taken : sleeps_taken net 60 300.


End BatchLoopFacts.




(** ** C6: [authenticate] is atomic on failure *)

(** C6. [authenticate] always returns.  When it returns [False] (the
    provider's answer holds no access token, or the exchange raised), the
    sender object, and so the stored token and expiry, is what it was before
    the call.  When it returns [True], the stored token is the one the
    provider returned and the stored expiry is the time read during the call
    plus 55 minutes. *)
Theorem authenticate_atomic_on_failure (net : network) (st : state) :
  exists b st' tr,
    authenticate net st = (Return b, st', tr)
    /\ if b then
         exists tok,
           acquire_token_for_client net (token_calls st) = TokenGranted tok
           /\ access_token (sender st') = Some tok
           /\ token_expires_at (sender st')
              = Some (datetime_now net (clock_reads st) + 55 * 60 * 1000000)
       else
         is_granted (acquire_token_for_client net (token_calls st)) = false
         /\ sender st' = sender st.
Proof.
  rewrite authenticate_run.
  destruct (acquire_token_for_client net (token_calls st)) as [tok| |] eqn:E.
  - exists true, (granted_state net tok st), [Authenticated (TokenGranted tok)].
    split; [reflexivity|]. exists tok. repeat split.
  - do 3 eexists. split; [reflexivity|]. simpl. now split.
  - do 3 eexists. split; [reflexivity|]. simpl. now split.
Qed.

(** ** C5: [send_email] reports a boolean and never raises *)

Lemma prepared_run_accepted req tr b :
  prepared_run req tr b ->
  b = accepted tr /\ (List.length (filter is_post tr) <= 2)%nat.
Proof.
  destruct 1 as [|resp Hno|resp g Hinv Hg|resp tok o Hinv];
    unfold accepted; simpl; split; auto.
  apply token_invalid_status in Hinv. now rewrite Hinv.
Qed.

Lemma email_run_accepted tr b :
  email_run tr b ->
  b = accepted tr /\ (List.length (filter is_post tr) <= 2)%nat.
Proof.
  destruct 1 as [g Hg|tok req tr b Hp|req tr b Hp].
  - split; [reflexivity|simpl; lia].
  - apply prepared_run_accepted in Hp as [Hb Hn].
    unfold accepted in *. simpl. now split.
  - now apply prepared_run_accepted in Hp.
Qed.

(** What [send_email_cases] says of the shape of the trace. *)
Lemma send_email_shape (net : network) (to subj html : string)
  (atts : option (list attachment)) (cc : option (list string)) (st : state) :
  exists b st' tr,
    send_email net to subj html atts cc st = (Return b, st', tr)
    /\ email_run tr b
    /\ starts_with_token_call tr = stale net st
    /\ (first_post tr = None
        <-> stale net st = true
            /\ is_granted (acquire_token_for_client net (token_calls st))
               = false).
Proof.
  destruct (send_email_cases net to subj html atts cc st)
    as (b & st' & tr & Hrun & Hcases).
  exists b, st', tr. split; [exact Hrun|].
  destruct (stale net st).
  - destruct (acquire_token_for_client net (token_calls st)) as [tok| |].
    + destruct Hcases as (tr' & -> & Hp).
      split; [eapply run_renewed_first; exact Hp|]. split; [reflexivity|].
      apply prepared_run_starts in Hp as [_ Hfirst]. cbn.
      split; [intros H; contradiction|intros [_ H]; discriminate].
    + destruct Hcases as (-> & -> & _).
      split; [now constructor|]. now repeat split.
    + destruct Hcases as (-> & -> & _).
      split; [now constructor|]. now repeat split.
  - split; [eapply run_fresh; exact Hcases|].
    apply prepared_run_starts in Hcases as [Hstart Hfirst].
    split; [exact Hstart|].
    split; [intros H; contradiction|intros [H _]; discriminate].
Qed.

(** C5. [send_email] never raises: from every state it returns a boolean.
    Its trace is one of the runs of [email_run], so never empty: a token
    call first exactly when the token is missing or stale, and, unless
    that call granted no token, the request.  Every answer in the trace is
    the oracle's, in call order.  The boolean is [True] exactly when the
    last request of the call (the first one, or the one sent again after a
    token renewal) was answered with status 202; it is [False] when no
    request went out, when the last answer has another status, and when
    the request raised.  At most two requests go out.  So the call returns
    [False] when the mail API accepts no request, and [True] when it
    accepts every request and the provider grants every token. *)
Theorem send_email_never_raises (net : network) (to subj html : string)
  (atts : option (list attachment)) (cc : option (list string)) (st : state) :
  exists b st' tr,
    send_email net to subj html atts cc st = (Return b, st', tr)
    /\ email_run tr b
    /\ answers net (token_calls st) (post_calls st) tr
    /\ starts_with_token_call tr = stale net st
    /\ b = accepted tr
    /\ (List.length (filter is_post tr) <= 2)%nat
    /\ ((forall k r, accepted_outcome (requests_post net k r) = false) ->
        b = false)
    /\ ((forall k, is_granted (acquire_token_for_client net k) = true) ->
        (forall k r, accepted_outcome (requests_post net k r) = true) ->
        b = true).
Proof.
  destruct (send_email_shape net to subj html atts cc st)
    as (b & st' & tr & Hrun & Hshape & Hstart & _).
  pose proof (oracle_send_email net to subj html atts cc st) as Horacle.
  rewrite Hrun in Horacle. destruct Horacle as (Ha & _).
  cbn [fst snd] in Ha.
  exists b, st', tr. split; [exact Hrun|]. split; [exact Hshape|].
  split; [exact Ha|]. split; [exact Hstart|].
  destruct (email_run_accepted tr b Hshape) as [Hb Hn].
  split; [exact Hb|]. split; [exact Hn|]. split.
  - intros Hno. eapply email_run_rejected; eassumption.
  - intros Hg Hyes. eapply email_run_accepted_all; eassumption.
Qed.

(** ** C4: the token renewal inside [send_email] *)




(** ** C2: backoff waits of one recipient *)

Lemma waits_at_app site s1 s2 :
  waits_at site (s1 ++ s2) = waits_at site s1 ++ waits_at site s2.
Proof. unfold waits_at. apply flat_map_app. Qed.

Lemma waits_at_failed_steps to j :
  forall first,
    waits_at Backoff (failed_steps to first j) = map nth_backoff (seq first j)
    /\ waits_at BetweenRecipients (failed_steps to first j) = [].
Proof.
  induction j as [|j IH]; intros first; [now split|].
  destruct (IH (S first)) as [H1 H2]. simpl. split; [now f_equal|exact H2].
Qed.


Lemma nth_backoff_capped i : (4 <= i)%nat -> nth_backoff i = 300.
Proof.
  intros Hi. unfold nth_backoff.
  assert (2 ^ 3 <= 2 ^ (Z.of_nat i - 1)) by (apply Z.pow_le_mono_r; lia).
  change (2 ^ 3) with 8 in *. lia.
Qed.

(** The answers of the pieces of a retry trace are the oracles', each
    piece from the counts reached before it. *)
Lemma answers_retry_trace net to failures :
  forall first last ok tc pc,
    answers net tc pc (retry_trace to first failures last ok) ->
    Forall (fun run => exists tc' pc', answers net tc' pc' run) failures
    /\ exists tc' pc', answers net tc' pc' last.
Proof.
  induction failures as [|run failures IH]; intros first last ok tc pc H.
  - cbn in H. apply answers_app_inv in H as [H _].
    split; [constructor|eauto].
  - cbn [retry_trace] in H. apply answers_app_inv in H as [H1 H2].
    cbn in H2. apply IH in H2 as [Hf Hl].
    split; [constructor; eauto|exact Hl].
Qed.

(** C2. Under a retry budget [max_retries >= 0], and when the operating
    system takes the sleeps of 60 to 300 seconds, the loop of one
    recipient returns, and its trace is made of calls of [send_email]
    ([retry_trace]): k-1 calls that returned [False], each followed by its
    return and its backoff wait, and the k-th call with its return, 1 <= k
    <= max_retries + 1.  Each call is a run of [send_email] (so asks the
    provider or the mail API at least once), and every answer in the trace
    is the oracle's, in call order; the result of the loop is the result
    of the last call.  There is no wait before the first attempt, one
    before each retry, k-1 in all.  The i-th wait lasts
    min(60 * 2^(i-1), 300) seconds: 60, 120, 240, then 300.  A failure is
    reported only after attempt max_retries + 1, so after [max_retries]
    waits, and is recorded as "failed".  When the mail API accepts no
    request, all max_retries + 1 attempts are made and the result is
    [False]; when it accepts every request and the provider grants every
    token, the first attempt succeeds and nothing is waited for. *)
Theorem backoff_before_each_retry (net : network) (subj html : string)
  (atts : list attachment) (max_retries : Z) (cc : option (list string))
  (to : string) (st : state) :
  0 <= max_retries ->
  sleeps_taken net 60 300 ->
  exists b st' tr failures last,
    deliver net subj html atts max_retries cc to st = (Return b, st', tr)
    /\ tr = retry_trace to 1 failures last b
    /\ Forall (fun run => email_run run false) failures
    /\ email_run last b
    /\ answers net (token_calls st) (post_calls st) tr
    /\ Z.of_nat (S (List.length failures)) <= max_retries + 1
    /\ schedule tr
       = failed_steps to 1 (List.length failures) ++ [Attempt to b]
    /\ waits_at Backoff (schedule tr)
       = map nth_backoff (seq 1 (List.length failures))
    /\ (forall i, nth_backoff i = Z.min (60 * 2 ^ (Z.of_nat i - 1)) 300)
    /\ nth_backoff 1 = 60 /\ nth_backoff 2 = 120 /\ nth_backoff 3 = 240
    /\ (forall i, (4 <= i)%nat -> nth_backoff i = 300)
    /\ (b = false ->
        Z.of_nat (S (List.length failures)) = max_retries + 1
        /\ forall results ts,
             details (record_result results ts to b)
             = details results
                 ++ [{| timestamp := ts; recipient := to;
                        status := "failed" |}])
    /\ ((forall k r, accepted_outcome (requests_post net k r) = false) ->
        b = false
        /\ Z.of_nat (S (List.length failures)) = max_retries + 1)
    /\ ((forall k, is_granted (acquire_token_for_client net k) = true) ->
        (forall k r, accepted_outcome (requests_post net k r) = true) ->
        b = true /\ failures = []).
Proof.
  intros Hm Hos.
  destruct (deliver_run net subj html atts max_retries cc Hos to st)
    as (b & st' & tr & Hrun & Hdel).
  pose proof (oracle_deliver net subj html atts max_retries cc to st)
    as Horacle.
  rewrite Hrun in Horacle. destruct Horacle as (Ha & _).
  cbn [fst snd] in Ha.
  unfold delivery in Hdel.
  replace (max_retries <? 0) with false in Hdel
    by (symmetry; apply Z.ltb_ge; lia).
  destruct Hdel as (failures & last & Htr & Hf & Hl & Hle & Hfail).
  exists b, st', tr, failures, last.
  split; [exact Hrun|]. split; [exact Htr|]. split; [exact Hf|].
  split; [exact Hl|]. split; [exact Ha|].
  split; [lia|].
  assert (Hsched : schedule tr
                   = failed_steps to 1 (List.length failures)
                       ++ [Attempt to b])
    by (rewrite Htr; now apply schedule_retry_trace).
  split; [exact Hsched|].
  split.
  { rewrite Hsched, waits_at_app.
    destruct (waits_at_failed_steps to (List.length failures) 1%nat)
      as [-> _].
    cbn. now rewrite app_nil_r. }
  split; [reflexivity|].
  split; [reflexivity|]. split; [reflexivity|]. split; [reflexivity|].
  split; [exact nth_backoff_capped|].
  rewrite Htr in Ha.
  destruct (answers_retry_trace net to failures 1%nat last b _ _ Ha)
    as [Haf (tcl & pcl & Hal)].
  split; [|split].
  - intros ->. split; [specialize (Hfail eq_refl); lia|reflexivity].
  - intros Hno.
    assert (Hb : b = false) by (eapply email_run_rejected; eassumption).
    split; [exact Hb|]. specialize (Hfail Hb). lia.
  - intros Hg Hyes. split; [eapply email_run_accepted_all; eassumption|].
    destruct failures as [|run failures]; [reflexivity|].
    inversion Hf as [|? ? Hrun1 _]; subst.
    inversion Haf as [|? ? (tc1 & pc1 & Ha1) _]; subst.
    pose proof (email_run_accepted_all net run false tc1 pc1 Hrun1 Ha1
                  Hg Hyes).
    discriminate.
Qed.

(** ** C1: the summary of a batch *)


Section SendBatchFacts.

Variable net : network.
Variable world : markup_world.

(** When html.parser rejects the sanitized template, the batch ends
    before anything is sent. *)
Lemma send_batch_rejected recipients subj template min_delay max_delay
  max_retries cc st :
  parse_html_parser world (sanitize_html world template) = None ->
  send_batch net world recipients subj template min_delay max_delay
    max_retries cc st = (Raise ParserRejectedMarkup, st, []).
Proof.
  intros Hparse. unfold send_batch, extract_inline_images.
  now rewrite Hparse.
Qed.

(** When it takes it, the batch is the loop over the recipients. *)
Lemma send_batch_parsed recipients subj template min_delay max_delay
  max_retries cc st doc :
  parse_html_parser world (sanitize_html world template) = Some doc ->
  extract_inline_images world (sanitize_html world template)
  = Return (Bs4.decode (fst (extract_from_soup world doc)),
            snd (extract_from_soup world doc))
  /\ send_batch net world recipients subj template min_delay max_delay
       max_retries cc st
     = batch_loop net subj (Bs4.decode (fst (extract_from_soup world doc)))
         (snd (extract_from_soup world doc)) min_delay max_delay max_retries
         cc 0 (Z.of_nat (List.length recipients)) recipients
         {| total := Z.of_nat (List.length recipients); sent := 0;
            failed := 0; skipped := 0; details := [] |} st.
Proof.
  intros Hparse. unfold send_batch, extract_inline_images.
  rewrite Hparse.
  destruct (extract_from_soup world doc) as [doc' atts]. cbn [fst snd].
  split; [reflexivity|].
  unfold lift, bind, ret.
  now destruct (batch_loop _ _ _ _ _ _ _ _ _ _ _ _ st) as [[r st'] tr].
Qed.


End SendBatchFacts.



(** ** C3: waits between recipients *)






(** ** Runs of the example worlds *)



(** C2, witness: a mail API that answers 500 to every request, three
    retries: four attempts, waits of 60, 120 and 240 seconds, and the
    recipient has failed. *)
Lemma backoff_before_each_retry_witness :
  exists st' tr,
    deliver Example.failing_net "Hello" "<p>Hi</p>" [] 3 None
      "ann@example.com" Example.fresh_state = (Return false, st', tr)
    /\ count_events is_attempt tr = 4%nat
    /\ waits_at Backoff (schedule tr) = [60; 120; 240].
Proof.
  destruct (backoff_before_each_retry Example.failing_net "Hello" "<p>Hi</p>"
              [] 3 None "ann@example.com" Example.fresh_state)
    as (b & st' & tr & failures & last & Hrun & Htr & Hf & Hl & _ & _ & _
        & Hwaits & _ & _ & _ & _ & _ & _ & Hforced & _).
  - lia.
  - intros k d Hd. apply Z.ltb_lt. lia.
  - destruct Hforced as [-> Hk]; [reflexivity|].
    assert (Hlen : List.length failures = 3%nat) by lia.
    exists st', tr. split; [exact Hrun|].
    split; [|now rewrite Hwaits, Hlen].
    rewrite Htr, (count_attempts_retry_trace _ _ _ _ _ Hf Hl), Hlen.
    reflexivity.
Defined.



(** A delay that does not fit the count of nanoseconds: [time.sleep]
    raises [OverflowError] after the first recipient. *)
Example scenario_delay_too_long :
  let run :=
    send_batch Example.accepting_net Example.plain_world
      Example.two_recipients "Hello" "<p>Hi</p>" 9223372037 9223372037 3
      None Example.fresh_state in
  fst (fst run) = Raise OverflowError
  /\ schedule (snd run) = [Attempt "ann@example.com" true].
Proof. vm_compute. split; reflexivity. Qed.

(** A delay that the operating system rejects: [time.sleep] raises
    [OSError] after the first recipient. *)
Example scenario_delay_rejected :
  let run :=
    send_batch Example.accepting_net Example.plain_world
      Example.two_recipients "Hello" "<p>Hi</p>" 9223372035 9223372035 3
      None Example.fresh_state in
  fst (fst run) = Raise OSError
  /\ schedule (snd run) = [Attempt "ann@example.com" true].
Proof. vm_compute. split; reflexivity. Qed.

(** Scenario D: the first request meets an expired token; one token call
    and one more request follow inside the same call of [send_email], and
    the recipient is delivered on the first attempt although the retry
    budget is 0. *)
Example scenario_token_expired_mid_send :
  let run :=
    send_batch Example.expiring_net Example.plain_world ["ann@example.com"]
      "Hello" "<p>Hi</p>" 30 120 0 None Example.fresh_state in
  schedule (snd run) = [Attempt "ann@example.com" true]
  /\ map is_post (snd run) = [false; true; false; true; false]
  /\ map is_token_call (snd run) = [true; false; true; false; false]
  /\ exists res st', fst run = (Return res, st') /\ sent res = 1.
Proof. vm_compute. repeat split. do 2 eexists. split; reflexivity. Qed.

(** Scenario E: every attempt fails; each recipient is tried
    [max_retries + 1] times with the backoff waits in between, is recorded
    as failed, and the batch goes on to the next recipient. *)
Example scenario_all_attempts_fail :
  let run :=
    send_batch Example.failing_net Example.plain_world Example.two_recipients
      "Hello" "<p>Hi</p>" 30 120 2 None Example.fresh_state in
  schedule (snd run)
  = [Attempt "ann@example.com" false; Wait Backoff 60;
     Attempt "ann@example.com" false; Wait Backoff 120;
     Attempt "ann@example.com" false;
     Wait BetweenRecipients 30;
     Attempt "bob@example.com" false; Wait Backoff 60;
     Attempt "bob@example.com" false; Wait Backoff 120;
     Attempt "bob@example.com" false]
  /\ exists res st',
       fst run = (Return res, st')
       /\ failed res = 2 /\ sent res = 0
       /\ map status (details res) = ["failed"; "failed"].
Proof. vm_compute. split; [reflexivity|]. do 2 eexists. repeat split. Qed.

(** ** Markup preprocessor *)

(** Induction on a parse tree: a tag's children satisfy the property. *)
Lemma node_induction (P : node -> Prop) :
  (forall nm attrs ch, Forall P ch -> P (Tag nm attrs ch)) ->
  (forall t, P (NavigableString t)) ->
  (forall t, P (Comment t)) ->
  (forall t, P (Doctype t)) ->
  (forall t, P (CData t)) ->
  (forall t, P (ProcessingInstruction t)) ->
  (forall t, P (Declaration t)) ->
  forall n, P n.
Proof.
  intros Htag Hstr Hcom Hdoc Hcdata Hpi Hdecl.
  fix IH 1. intros [nm attrs ch|t|t|t|t|t|t];
    [|apply Hstr|apply Hcom|apply Hdoc|apply Hcdata|apply Hpi|apply Hdecl].
  apply Htag. induction ch as [|c ch IHch]; constructor.
  - apply IH.
  - exact IHch.
Qed.

Lemma flat_map_nil_Forall {A B : Type} (f : A -> list B) (l : list A) :
  Forall (fun x => f x = []) l -> flat_map f l = [].
Proof. induction 1 as [|x l Hx _ IH]; simpl; [|rewrite Hx, IH]; reflexivity. Qed.

Lemma flat_map_ext_Forall {A B : Type} (f g : A -> list B) (l : list A) :
  Forall (fun x => f x = g x) l -> flat_map f l = flat_map g l.
Proof. induction 1 as [|x l Hx _ IH]; simpl; [|rewrite Hx, IH]; reflexivity. Qed.

Lemma flat_map_flat_map {A B C : Type} (f : A -> list B) (g : B -> list C)
  (l : list A) :
  flat_map g (flat_map f l) = flat_map (fun x => flat_map g (f x)) l.
Proof.
  induction l as [|x l IH]; [reflexivity|].
  cbn [flat_map]. now rewrite flat_map_app, IH.
Qed.

Section DecomposeFacts.

Variable names : list string.

(** No tag of these names is left. *)
Lemma decompose_all_complete n :
  flat_map (Bs4.find_all names) (Bs4.decompose_all names n) = [].
Proof.
  induction n as [nm attrs ch IH|t|t|t|t|t|t] using node_induction;
    try reflexivity.
  cbn [Bs4.decompose_all].
  destruct (Bs4.in_names nm names) eqn:E; [reflexivity|].
  cbn [flat_map Bs4.find_all]. rewrite E, app_nil_r. cbn [app].
  rewrite flat_map_flat_map. apply flat_map_nil_Forall. exact IH.
Qed.

(** What is left is what stood outside these tags, in place. *)
Lemma decompose_all_outline n :
  forall depth,
    flat_map (outline depth) (Bs4.decompose_all names n)
    = outline_outside names depth n.
Proof.
  induction n as [nm attrs ch IH|t|t|t|t|t|t] using node_induction;
    intros depth; try reflexivity.
  cbn [Bs4.decompose_all outline_outside].
  destruct (Bs4.in_names nm names) eqn:E; [reflexivity|].
  cbn [flat_map outline]. rewrite app_nil_r. f_equal.
  rewrite flat_map_flat_map. apply flat_map_ext_Forall.
  eapply Forall_impl; [|exact IH]. intros c Hc. apply Hc.
Qed.

(** A tree without such tags is left as it is. *)
Lemma decompose_all_clean n :
  Bs4.find_all names n = [] -> Bs4.decompose_all names n = [n].
Proof.
  induction n as [nm attrs ch IH|t|t|t|t|t|t] using node_induction;
    intros Hclean; try reflexivity.
  cbn [Bs4.find_all] in Hclean. cbn [Bs4.decompose_all].
  destruct (Bs4.in_names nm names); [discriminate|].
  cbn [app] in Hclean. do 2 f_equal.
  induction IH as [|c ch Hc _ IHch]; [reflexivity|].
  cbn [flat_map] in *. apply app_eq_nil in Hclean as [H1 H2].
  rewrite (Hc H1), (IHch H2). reflexivity.
Qed.

End DecomposeFacts.

(** C7.  For every input, [sanitize_html] returns a string.  When html5lib
    parses the input, the result is the serialization of a document that
    has no script and no style element and in which everything that stood
    outside such elements is kept, in place; a document that had none is
    serialized as it was parsed.  When parsing fails the result is the
    input itself.  On the document that html5lib builds from
    [<p>Hi</p><script>evil()</script>] the result has no script element
    and keeps [<p>Hi</p>]. *)
Theorem sanitize_html_removes_script_and_style (world : markup_world)
  (html : string) :
  match parse_html5lib world html with
  | None => sanitize_html world html = html
  | Some doc =>
      exists clean,
        sanitize_html world html = Bs4.decode clean
        /\ flat_map (Bs4.find_all ["script"; "style"]) clean = []
        /\ flat_map (outline 0) clean
           = flat_map (outline_outside ["script"; "style"] 0) doc
        /\ (flat_map (Bs4.find_all ["script"; "style"]) doc = [] ->
            clean = doc)
        /\ (doc = MarkupExample.script_doc ->
            sanitize_html world html
            = "<html><head></head><body><p>Hi</p></body></html>")
  end.
Proof.
  unfold sanitize_html.
  destruct (parse_html5lib world html) as [doc|]; [|reflexivity].
  exists (flat_map (Bs4.decompose_all ["script"; "style"]) doc).
  split; [reflexivity|]. split.
  { rewrite flat_map_flat_map. apply flat_map_nil_Forall, Forall_forall.
    intros n _. apply decompose_all_complete. }
  split.
  { rewrite flat_map_flat_map. apply flat_map_ext_Forall, Forall_forall.
    intros n _. apply decompose_all_outline. }
  split.
  { intros Hclean. induction doc as [|n doc IH]; [reflexivity|].
    cbn [flat_map] in *. apply app_eq_nil in Hclean as [H1 H2].
    rewrite (decompose_all_clean _ n H1), (IH H2). reflexivity. }
  intros ->. reflexivity.
Qed.

(** Scenario A in a world whose html5lib knows the input. *)
Example scenario_script_removed :
  sanitize_html MarkupExample.world MarkupExample.script_input
  = "<html><head></head><body><p>Hi</p></body></html>"
  /\ PyStr.contains "<script"
       (sanitize_html MarkupExample.world MarkupExample.script_input) = false
  /\ PyStr.contains "<p>Hi</p>"
       (sanitize_html MarkupExample.world MarkupExample.script_input) = true
  /\ sanitize_html MarkupExample.world "<p>not parsed" = "<p>not parsed".
Proof. vm_compute. repeat split. Qed.

(** *** Strings *)

Lemma strip_prefix_Some p :
  forall s r, strip_prefix p s = Some r -> s = (p ++ r)%string.
Proof.
  induction p as [|c p IH]; intros s r H; simpl in *.
  - now injection H as ->.
  - destruct s as [|d s]; [discriminate|].
    destruct (Ascii.eqb_spec c d) as [->|]; [|discriminate].
    now rewrite (IH s r H).
Qed.

Lemma break_at_spec c s :
  forall a b,
    break_at c s = (a, b) ->
    s = (a ++ b)%string
    /\ PyStr.contains_char c a = false
    /\ (b = EmptyString \/ exists b', b = String c b').
Proof.
  induction s as [|d s IH]; intros a b H; simpl in H.
  - injection H as <- <-. auto.
  - destruct (Ascii.eqb_spec d c) as [->|Hdc].
    + injection H as <- <-. simpl. eauto.
    + destruct (break_at c s) as [a' b'] eqn:E. injection H as <- <-.
      destruct (IH a' b' eq_refl) as (Hs & Ha & Hb).
      simpl. rewrite Hs. split; [reflexivity|]. split; [|exact Hb].
      destruct (Ascii.eqb_spec c d) as [->|]; [contradiction|exact Ha].
Qed.

Lemma break_at_app c a :
  forall b,
    PyStr.contains_char c a = false ->
    break_at c (a ++ String c b) = (a, String c b).
Proof.
  induction a as [|d a IH]; intros b H; simpl in *.
  - now rewrite Ascii.eqb_refl.
  - destruct (Ascii.eqb_spec c d) as [->|Hcd]; [discriminate|].
    destruct (Ascii.eqb_spec d c) as [->|_]; [contradiction|].
    now rewrite (IH b H).
Qed.


(** *** The pattern of line 211 *)

Lemma match_data_uri_complete src mime payload :
  image_data_uri_form src mime payload ->
  match_data_uri src = Some (mime, fst (break_at LF payload)).
Proof.
  intros (subtype & Hne & Hsemi & -> & ->).
  unfold match_data_uri. simpl.
  rewrite (break_at_app ";" subtype _ Hsemi).
  destruct subtype as [|c subtype]; [contradiction|]. reflexivity.
Qed.

Lemma match_data_uri_sound src mime p :
  match_data_uri src = Some (mime, p) ->
  exists payload,
    image_data_uri_form src mime payload /\ p = fst (break_at LF payload).
Proof.
  unfold match_data_uri. intros H.
  destruct (strip_prefix "data:image/" src) as [rest|] eqn:Hpre;
    [|discriminate].
  apply strip_prefix_Some in Hpre.
  destruct (break_at ";" rest) as [subtype rest'] eqn:Hbreak.
  apply break_at_spec in Hbreak as (Hrest & Hsemi & _).
  destruct subtype as [|c subtype]; [discriminate|].
  destruct (strip_prefix ";base64," rest') as [payload|] eqn:Hb64;
    [|discriminate].
  apply strip_prefix_Some in Hb64.
  injection H as <- <-.
  exists payload. split; [|reflexivity].
  exists (String c subtype). split; [discriminate|]. split; [exact Hsemi|].
  split; [reflexivity|].
  rewrite Hpre, Hrest, Hb64. reflexivity.
Qed.



Section ExtractFacts.

Variable world : markup_world.

(** *** The loop body *)


Lemma process_img_unmatched atts src :
  PyStr.startswith "data:" src = true ->
  match_data_uri src = None ->
  process_img world atts src = (src, atts).
Proof. intros H1 H2. unfold process_img. now rewrite H1, H2. Qed.


Lemma process_img_converted atts src :
  List.length (snd (process_img world atts src))
  = (List.length atts + if converted world src then 1 else 0)%nat.
Proof.
  unfold converted, process_img.
  destruct (PyStr.startswith "data:" src).
  { destruct (match_data_uri src) as [[mime_type base64_data]|];
      cbn [snd app]; rewrite ?length_app; simpl; lia. }
  destruct (PyStr.startswith "file://" src || PyStr.startswith "/" src);
    [simpl; lia|].
  destruct (negb (PyStr.startswith "http" src)
            && negb (PyStr.startswith "cid:" src)); [|simpl; lia].
  destruct (os_path_exists world (resolve_image_path world src));
    [|simpl; lia].
  destruct (read_base64 world (resolve_image_path world src));
    cbn [snd app]; rewrite ?length_app; simpl; lia.
Qed.

(** *** The loop *)

Lemma process_imgs_app l1 :
  forall atts l2,
    process_imgs world atts (l1 ++ l2)
    = (fst (process_imgs world atts l1)
         ++ fst (process_imgs world (snd (process_imgs world atts l1)) l2),
       snd (process_imgs world (snd (process_imgs world atts l1)) l2)).
Proof.
  induction l1 as [|src l1 IH]; intros atts l2.
  - simpl. now destruct (process_imgs world atts l2).
  - cbn [app process_imgs].
    destruct (process_img world atts src) as [src' atts1].
    rewrite IH.
    destruct (process_imgs world atts1 l1) as [r1 a1]. simpl.
    reflexivity.
Qed.

Lemma process_imgs_length l :
  forall atts, List.length (fst (process_imgs world atts l)) = List.length l.
Proof.
  induction l as [|src l IH]; intros atts; [reflexivity|].
  cbn [process_imgs].
  destruct (process_img world atts src) as [src' atts1].
  specialize (IH atts1).
  destruct (process_imgs world atts1 l). simpl in *. now rewrite IH.
Qed.


Lemma process_imgs_count l :
  forall atts,
    List.length (snd (process_imgs world atts l))
    = (List.length atts + List.length (filter (converted world) l))%nat.
Proof.
  induction l as [|src l IH]; intros atts; [simpl; lia|].
  cbn [process_imgs filter].
  pose proof (process_img_converted atts src) as H1.
  destruct (process_img world atts src) as [src' atts1]. simpl in H1.
  specialize (IH atts1).
  destruct (process_imgs world atts1 l) as [r a]. simpl in *.
  rewrite IH, H1. destruct (converted world src); simpl; lia.
Qed.

End ExtractFacts.

(** *** Writing the new values back into the tree *)

Lemma get_attr_set_attr k v attrs :
  forall old,
    Bs4.get_attr k attrs = Some old ->
    Bs4.get_attr k (Bs4.set_attr k v attrs) = Some v.
Proof.
  induction attrs as [|[k' v'] attrs IH]; intros old H; simpl in *;
    [discriminate|].
  destruct (String.eqb k k') eqn:E; simpl; rewrite E; [reflexivity|].
  now apply (IH old).
Qed.

Lemma assign_srcs_Tag nm attrs ch srcs :
  assign_srcs (Tag nm attrs ch) srcs
  = (let '(attrs', srcs1) :=
       if String.eqb nm "img" then
         match Bs4.get_attr "src" attrs, srcs with
         | Some _, src' :: rest => (Bs4.set_attr "src" src' attrs, rest)
         | _, _ => (attrs, srcs)
         end
       else (attrs, srcs) in
     let '(ch', srcs2) := assign_srcs_all ch srcs1 in
     (Tag nm attrs' ch', srcs2)).
Proof. reflexivity. Qed.

Lemma assign_srcs_all_spec doc :
  Forall assigned doc ->
  forall srcs,
    (List.length (flat_map img_srcs doc) <= List.length srcs)%nat ->
    flat_map img_srcs (fst (assign_srcs_all doc srcs))
    = firstn (List.length (flat_map img_srcs doc)) srcs
    /\ snd (assign_srcs_all doc srcs)
       = skipn (List.length (flat_map img_srcs doc)) srcs.
Proof.
  induction 1 as [|n doc Hn _ IH]; intros srcs Hlen.
  - simpl. now split.
  - cbn [flat_map assign_srcs_all] in *.
    rewrite length_app in *.
    destruct (Hn srcs ltac:(lia)) as [H1 H2].
    destruct (assign_srcs n srcs) as [n' rest] eqn:En. simpl in H1, H2.
    destruct (IH rest) as [H3 H4].
    { subst rest. rewrite length_skipn. lia. }
    destruct (assign_srcs_all doc rest) as [doc' rest'] eqn:Ed.
    simpl in H3, H4 |- *.
    rewrite H1, H3, H4, H2.
    split.
    + rewrite <- (firstn_skipn (List.length (img_srcs n))
                    (firstn (List.length (img_srcs n)
                             + List.length (flat_map img_srcs doc)) srcs))
        at 1.
      rewrite firstn_firstn, Nat.min_l by lia.
      f_equal. now rewrite skipn_firstn_comm, Nat.add_comm, Nat.add_sub.
    + now rewrite skipn_skipn, Nat.add_comm.
Qed.

Lemma assign_srcs_spec n : assigned n.
Proof.
  induction n as [nm attrs ch IH|t|t|t|t|t|t] using node_induction;
    try (intros srcs _; now split).
  intros srcs Hlen. rewrite assign_srcs_Tag.
  cbn [img_srcs] in *. rewrite length_app in Hlen.
  destruct (String.eqb nm "img") eqn:Eimg.
  - destruct (Bs4.get_attr "src" attrs) as [old|] eqn:Esrc.
    + destruct srcs as [|src' rest]; [simpl in Hlen; lia|].
      simpl in Hlen.
      destruct (assign_srcs_all_spec ch IH rest ltac:(lia)) as [H1 H2].
      destruct (assign_srcs_all ch rest) as [ch' rest'].
      cbn [fst snd img_srcs] in *.
      rewrite Eimg, (get_attr_set_attr "src" src' attrs old Esrc).
      cbn [app List.length firstn skipn]. now rewrite H1, H2.
    + simpl in Hlen.
      destruct (assign_srcs_all_spec ch IH srcs ltac:(lia)) as [H1 H2].
      destruct (assign_srcs_all ch srcs) as [ch' rest'].
      cbn [fst snd img_srcs] in *. rewrite Eimg, Esrc.
      cbn [app]. now rewrite H1, H2.
  - simpl in Hlen.
    destruct (assign_srcs_all_spec ch IH srcs ltac:(lia)) as [H1 H2].
    destruct (assign_srcs_all ch srcs) as [ch' rest'].
    cbn [fst snd img_srcs] in *. rewrite Eimg.
    cbn [app]. now rewrite H1, H2.
Qed.

Lemma assign_srcs_all_exact doc srcs :
  List.length srcs = List.length (flat_map img_srcs doc) ->
  flat_map img_srcs (fst (assign_srcs_all doc srcs)) = srcs.
Proof.
  intros Hlen.
  destruct (assign_srcs_all_spec doc) with (srcs := srcs) as [H _].
  - apply Forall_forall. intros n _. apply assign_srcs_spec.
  - lia.
  - rewrite H, <- Hlen. apply firstn_all.
Qed.

Section ExtractTheorems.

Variable world : markup_world.

(** The tags found carry, afterwards, the values the loop gave them, and
    the attachments are those of the loop. *)
Lemma extract_from_soup_spec doc :
  flat_map img_srcs (fst (extract_from_soup world doc))
  = fst (process_imgs world [] (flat_map img_srcs doc))
  /\ snd (extract_from_soup world doc)
     = snd (process_imgs world [] (flat_map img_srcs doc)).
Proof.
  unfold extract_from_soup.
  pose proof (process_imgs_length world (flat_map img_srcs doc) []) as Hlen.
  destruct (process_imgs world [] (flat_map img_srcs doc)) as [srcs' atts].
  simpl in *. split; [|reflexivity].
  now apply assign_srcs_all_exact.
Qed.

End ExtractTheorems.

Lemma nth_error_middle {A : Type} (l1 : list A) (x : A) (l2 : list A) :
  nth_error (l1 ++ x :: l2) (List.length l1) = Some x.
Proof. induction l1; simpl; auto. Qed.

Section ImageTheorems.

Variable world : markup_world.

Lemma process_imgs_around before src after :
  process_imgs world [] (before ++ src :: after)
  = (fst (process_imgs world [] before)
       ++ fst (process_img world (snd (process_imgs world [] before)) src)
       :: fst (process_imgs world
                 (snd (process_img world
                         (snd (process_imgs world [] before)) src)) after),
     snd (process_imgs world
            (snd (process_img world (snd (process_imgs world [] before)) src))
            after)).
Proof.
  rewrite process_imgs_app. cbn [process_imgs].
  destruct (process_img world (snd (process_imgs world [] before)) src)
    as [src' atts1].
  cbn [fst snd].
  destruct (process_imgs world atts1 after) as [r a]. reflexivity.
Qed.

End ImageTheorems.


(** C10.  Let an image element have a [src] that starts with [data:] and
    is not of the form [data:image/<subtype>;base64,<payload>].  Then the
    loop body leaves it as it is whatever the attachments so far; in the
    document returned the element carries the same [src]; and both the
    attachment list and the values given to the other elements are what
    they would be without that element, so that it takes no number. *)
Theorem unmatched_data_uri_is_left_alone (world : markup_world) (doc : soup)
  (before : list string) (src : string) (after : list string) :
  flat_map img_srcs doc = before ++ src :: after ->
  PyStr.startswith "data:" src = true ->
  (forall mime payload, ~ image_data_uri_form src mime payload) ->
  let found := flat_map img_srcs (fst (extract_from_soup world doc)) in
  let atts := snd (extract_from_soup world doc) in
  let others := process_imgs world [] (before ++ after) in
  (forall atts0, process_img world atts0 src = (src, atts0))
  /\ nth_error found (List.length before) = Some src
  /\ atts = snd others
  /\ found
     = firstn (List.length before) (fst others)
         ++ src :: skipn (List.length before) (fst others).
Proof.
  intros Hdoc Hdata Hform found atts others.
  assert (Hnone : match_data_uri src = None).
  { destruct (match_data_uri src) as [[mime p]|] eqn:E; [|reflexivity].
    apply match_data_uri_sound in E as (payload & Huri & _).
    now destruct (Hform mime payload). }
  assert (Hbody : forall atts0, process_img world atts0 src = (src, atts0))
    by (intros atts0; now apply process_img_unmatched).
  destruct (extract_from_soup_spec world doc) as [Hfound Hatts].
  fold found in Hfound. fold atts in Hatts.
  rewrite Hdoc, process_imgs_around, Hbody in Hfound, Hatts.
  cbn [fst snd] in Hfound, Hatts.
  assert (Hothers : others
    = (fst (process_imgs world [] before)
         ++ fst (process_imgs world (snd (process_imgs world [] before))
                   after),
       snd (process_imgs world (snd (process_imgs world [] before)) after)))
    by (subst others; apply process_imgs_app).
  pose proof (process_imgs_length world before []) as Hlen.
  split; [exact Hbody|]. split.
  { rewrite Hfound, <- Hlen. apply nth_error_middle. }
  rewrite Hothers. cbn [fst snd]. split; [exact Hatts|].
  rewrite Hfound, <- Hlen.
  rewrite firstn_app, Nat.sub_diag, firstn_all, firstn_O, app_nil_r.
  rewrite skipn_app, Nat.sub_diag, skipn_all, skipn_O. reflexivity.
Qed.

(** C8, counterexample.  Two base64 data URIs of an image type that the
    pattern of line 211 does not take as the claim says: with a parameter
    after the media type the image is not converted at all, its [src]
    stays and there is no attachment; with a payload broken over two
    lines the attachment holds the first line only. *)
Lemma base64_image_uris_that_are_not_converted :
  extract_from_soup MarkupExample.world
    [Tag "img" [("src", "data:image/svg+xml;charset=utf-8;base64,QUJD")] []]
  = ([Tag "img" [("src", "data:image/svg+xml;charset=utf-8;base64,QUJD")] []],
     [])
  /\ map contentBytes
       (snd (extract_from_soup MarkupExample.world
               [Tag "img"
                  [("src",
                    ("data:image/png;base64,QUJD" ++ String LF "REVG")
                      %string)] []]))
     = ["QUJD"].
Proof. vm_compute. split; reflexivity. Qed.


(** C10, witness: the second element of [mixed_doc] is a data URI of type
    [text/plain]. *)
Lemma unmatched_data_uri_is_left_alone_witness :
  nth_error
    (flat_map img_srcs
       (fst (extract_from_soup MarkupExample.world MarkupExample.mixed_doc)))
    1
  = Some "data:text/plain;base64,SGk="
  /\ snd (extract_from_soup MarkupExample.world MarkupExample.mixed_doc)
     = snd (process_imgs MarkupExample.world []
              ["data:image/png;base64,QUJD"; "data:image/gif;base64,R0lG"]).
Proof.
  destruct (unmatched_data_uri_is_left_alone MarkupExample.world
              MarkupExample.mixed_doc ["data:image/png;base64,QUJD"]
              "data:text/plain;base64,SGk=" ["data:image/gif;base64,R0lG"])
    as (_ & H1 & H2 & _).
  - reflexivity.
  - reflexivity.
  - intros mime payload Huri.
    apply match_data_uri_complete in Huri. vm_compute in Huri. discriminate.
  - split; [exact H1|exact H2].
Defined.

(** The pattern on three sources outside the reach of C8 and within that
    of C10: a payload broken over two lines gives its first line only; a
    media type with a parameter and an upper-case type do not match. *)
Example pattern_on_unusual_sources :
  match_data_uri
    ("data:image/png;base64,QUJD" ++ String LF "REVG")
  = Some ("image/png", "QUJD")
  /\ match_data_uri "data:image/png;charset=utf-8;base64,QUJD" = None
  /\ match_data_uri "data:IMAGE/png;base64,QUJD" = None.
Proof. vm_compute. repeat split. Qed.

(** Scenario B in a world whose html.parser knows the input. *)
Example scenario_inline_image :
  extract_inline_images MarkupExample.world MarkupExample.image_input
  = Return
      (("<img src=" ++ MarkupExample.quoted "cid:image_1@example.com"
          ++ "/>")%string,
       [inline_image 1 "image/png" "QUJD"])
  /\ PyStr.contains
       ("src=" ++ MarkupExample.quoted "cid:image_1@example.com")
       ("<img src=" ++ MarkupExample.quoted "cid:image_1@example.com"
          ++ "/>") = true.
Proof. vm_compute. split; reflexivity. Qed.

(** ** Recipient file *)

Section RecipientsFacts.

Variable files : file_world.

(** A file that holds a JSON array gives its items, as strings, stripped,
    the empty ones left out. *)
Lemma load_recipients_json_array path text items :
  read_text files path = FileContent text ->
  json_loads files (PyStr.strip text) = Loaded (JList items) ->
  load_recipients files path = Returns (stripped_items files items).
Proof. intros Hread Hjson. unfold load_recipients. now rewrite Hread, Hjson. Qed.

(** A file that is no JSON gives its lines, stripped, the empty ones left
    out. *)
Lemma load_recipients_plain_text path text :
  read_text files path = FileContent text ->
  json_loads files (PyStr.strip text) = NotJson ->
  load_recipients files path
  = Returns (stripped_lines (PyStr.strip text)).
Proof. intros Hread Hjson. unfold load_recipients. now rewrite Hread, Hjson. Qed.

(** A file that holds JSON other than an array gives no list: the function
    runs off its end. *)
Lemma load_recipients_json_not_array path text v :
  read_text files path = FileContent text ->
  json_loads files (PyStr.strip text) = Loaded v ->
  (forall items, v <> JList items) ->
  load_recipients files path = ReturnsNone.
Proof.
  intros Hread Hjson Hv. unfold load_recipients. rewrite Hread, Hjson.
  destruct v; try reflexivity. now destruct (Hv items).
Qed.

Lemma stripped_items_nonempty items :
  Forall (fun s => s <> EmptyString) (stripped_items files items).
Proof.
  unfold stripped_items. apply Forall_forall. intros s Hs.
  apply filter_In in Hs as [_ Hs]. now destruct s.
Qed.

End RecipientsFacts.

Lemma stripped_lines_nonempty content :
  Forall (fun s => s <> EmptyString) (stripped_lines content).
Proof.
  unfold stripped_lines. apply Forall_forall. intros s Hs.
  apply filter_In in Hs as [_ Hs]. now destruct s.
Qed.

(** C9, the failing input.  On a readable file whose content is JSON but
    no array, here [{"to": "ann@example.com"}] and the single quoted
    address ["ann@example.com"], [load_recipients] returns [None]: it does
    not fall back to the lines of the file and returns no list.  On a JSON
    array and on plain lines it returns the lists that the claim
    describes. *)
Theorem load_recipients_returns_none_on_json_that_is_no_array :
  load_recipients RecipientsExample.files "object.json" = ReturnsNone
  /\ load_recipients RecipientsExample.files "address.txt" = ReturnsNone
  /\ load_recipients RecipientsExample.files "array.json"
     = Returns ["ann@example.com"; "bob@example.com"]
  /\ load_recipients RecipientsExample.files "lines.txt"
     = Returns ["ann@example.com"; "bob@example.com"].
Proof. vm_compute. repeat split. Qed.

(** * Further properties *)

(** ** What every run keeps *)

Lemma same_config_refl s : same_config s s.
Proof. repeat split. Qed.

Lemma same_config_trans s1 s2 s3 :
  same_config s1 s2 -> same_config s2 s3 -> same_config s1 s3.
Proof.
  intros (A1 & A2 & A3 & A4 & A5) (B1 & B2 & B3 & B4 & B5).
  repeat split; congruence.
Qed.

Lemma last_granted_app t1 :
  forall tok t2,
    last_granted tok (t1 ++ t2) = last_granted (last_granted tok t1) t2.
Proof.
  induction t1 as [|e t1 IH]; intros tok t2; [reflexivity|].
  destruct e as [[t| |]| | |]; simpl; apply IH.
Qed.

Lemma well_authorised_app t1 :
  forall tok t2,
    well_authorised tok t1 ->
    well_authorised (last_granted tok t1) t2 ->
    well_authorised tok (t1 ++ t2).
Proof.
  induction t1 as [|e t1 IH]; intros tok t2 H1 H2; [exact H2|].
  destruct e as [[t| |]| | |]; simpl in *; try (apply IH; assumption).
  destruct H1 as [Ha H1]. split; [exact Ha|]. apply IH; assumption.
Qed.

Lemma request_to_same_config allowed s s' subj html atts cc e :
  same_config s s' ->
  request_to allowed s' subj html atts cc e ->
  request_to allowed s subj html atts cc e.
Proof.
  intros (_ & _ & _ & Hm & Hb) H. destruct e; try exact I.
  destruct H as (to & Hto & Hurl & Hrest). exists to. split; [exact Hto|].
  split; [|exact Hrest]. now rewrite Hurl, Hm, Hb.
Qed.

Section InvariantFacts.

Variable allowed : string -> Prop.
Variables (subj html : string) (atts : option (list attachment)).
Variable cc : option (list string).

Lemma delivery_invariant_refl st :
  delivery_invariant allowed subj html atts cc st st [].
Proof.
  split; [apply same_config_refl|]. split; [reflexivity|].
  split; [exact I|constructor].
Qed.

Lemma delivery_invariant_trans st st1 st2 t1 t2 :
  delivery_invariant allowed subj html atts cc st st1 t1 ->
  delivery_invariant allowed subj html atts cc st1 st2 t2 ->
  delivery_invariant allowed subj html atts cc st st2 (t1 ++ t2).
Proof.
  intros (C1 & T1 & W1 & F1) (C2 & T2 & W2 & F2).
  split; [eapply same_config_trans; eassumption|].
  split; [now rewrite T2, T1, last_granted_app|].
  split; [apply well_authorised_app; [exact W1|now rewrite <- T1]|].
  apply Forall_app. split; [exact F1|].
  eapply Forall_impl; [|exact F2]. intros e.
  now apply request_to_same_config.
Qed.

End InvariantFacts.

(** *** The delivery side keeps the invariant *)

Section DeliveryInvariant.

Variable net : network.
Variable allowed : string -> Prop.
Variables (subj html : string) (atts : option (list attachment)).
Variable cc : option (list string).

Lemma invariant_quiet st st' tr :
  sender st' = sender st ->
  Forall (fun e => is_post e = false /\ is_token_call e = false) tr ->
  delivery_invariant allowed subj html atts cc st st' tr.
Proof.
  intros Hs Hq. unfold delivery_invariant. rewrite Hs.
  split; [apply same_config_refl|].
  induction Hq as [|e tr [Hp Ht] _ IH].
  { split; [reflexivity|]. split; [exact I|constructor]. }
  destruct IH as (IH1 & IH2 & IH3).
  destruct e; try discriminate; simpl;
    (split; [exact IH1|]); (split; [exact IH2|]);
    (constructor; [exact I|exact IH3]).
Qed.

Lemma invariant_emit to ok :
  holds (delivery_invariant allowed subj html atts cc)
    (emit (SendEmailReturned to ok)).
Proof. intros st. apply invariant_quiet; repeat constructor. Qed.

Lemma invariant_sleep site d :
  holds (delivery_invariant allowed subj html atts cc) (sleep net site d).
Proof.
  intros st. unfold sleep.
  destruct ((d <? - sleep_limit) || (sleep_limit <? d));
    [apply invariant_quiet; repeat constructor|].
  destruct (d <? 0); [apply invariant_quiet; repeat constructor|].
  destruct (os_sleep net (sleep_calls st) d);
    apply invariant_quiet; repeat constructor.
Qed.

Lemma invariant_now :
  holds (delivery_invariant allowed subj html atts cc) (now net).
Proof. intros st. apply invariant_quiet; repeat constructor. Qed.

Lemma invariant_randint a b :
  holds (delivery_invariant allowed subj html atts cc) (randint net a b).
Proof.
  intros st. unfold randint. destruct (b <? a);
    apply invariant_quiet; repeat constructor.
Qed.

Lemma invariant_authenticate :
  holds (delivery_invariant allowed subj html atts cc) (authenticate net).
Proof.
  intros st. rewrite authenticate_run.
  destruct (acquire_token_for_client net (token_calls st)); simpl;
    (split; [repeat split|]); repeat split; repeat constructor.
Qed.

Lemma invariant_is_token_expired :
  holds (delivery_invariant allowed subj html atts cc)
    (is_token_expired net).
Proof.
  intros st. unfold is_token_expired, bind, get_sender. simpl.
  destruct (no_token (sender st)); simpl;
    [apply invariant_quiet; repeat constructor|].
  destruct (token_expires_at (sender st)); simpl;
    apply invariant_quiet; repeat constructor.
Qed.

Lemma invariant_post st req :
  authorization req = bearer_of (access_token (sender st)) ->
  (exists to,
     allowed to /\ request_for (sender st) subj html atts cc to req) ->
  delivery_invariant allowed subj html atts cc st
    (snd (fst (post net req st))) (snd (post net req st)).
Proof.
  intros Hauth Hreq. unfold post.
  destruct (requests_post net (post_calls st) req); simpl;
    (split; [apply same_config_refl|]); repeat split; auto.
Qed.

Lemma request_for_send_request s auth to :
  request_for s subj html atts cc to
    (send_request s auth (email_data to subj html atts cc)).
Proof.
  unfold request_for, send_request, email_data, if_truthy. simpl.
  repeat split.
Qed.

Lemma invariant_send_prepared to :
  allowed to ->
  holds (delivery_invariant allowed subj html atts cc)
    (send_prepared net to subj html atts cc).
Proof.
  intros Hto st.
  assert (Hreq : forall auth,
    exists to',
      allowed to'
      /\ request_for (sender st) subj html atts cc to'
           (send_request (sender st) auth (email_data to subj html atts cc)))
    by (intros auth; exists to; split;
        [exact Hto|apply request_for_send_request]).
  assert (Hreq' : forall auth,
    exists to',
      allowed to'
      /\ request_for (sender st) subj html atts cc to'
           (with_authorization auth
              (send_request (sender st) (bearer (sender st))
                 (email_data to subj html atts cc))))
    by (intros auth; exists to; split;
        [exact Hto|apply request_for_send_request]).
  unfold send_prepared, try_except, bind, get_sender, post.
  set (req := send_request _ _ _) in *.
  unfold delivery_invariant.
  destruct (requests_post net (post_calls st) req) as [resp|]; simpl.
  2: { repeat first [split|apply Forall_cons|apply Forall_nil]; simpl; auto;
      try apply (Hreq (bearer (sender st))); try apply Hreq'. }
  unfold refresh_on_401.
  destruct (status_code resp =? 401); simpl;
    [|repeat first [split|apply Forall_cons|apply Forall_nil]; simpl; auto;
      try apply (Hreq (bearer (sender st))); try apply Hreq'].
  unfold response_json, bind.
  destruct (json_body resp) as [j|]; simpl;
    [|repeat first [split|apply Forall_cons|apply Forall_nil]; simpl; auto;
      try apply (Hreq (bearer (sender st))); try apply Hreq'].
  destruct (invalid_token_body j) as [[|]|e]; simpl;
    try (repeat first [split|apply Forall_cons|apply Forall_nil]; simpl;
         auto; try apply (Hreq (bearer (sender st))); try apply Hreq'; fail).
  rewrite authenticate_run.
  destruct (acquire_token_for_client net (token_calls (count_post st)))
    as [tok| |]; simpl;
    try (repeat first [split|apply Forall_cons|apply Forall_nil]; simpl;
         auto; try apply (Hreq (bearer (sender st))); try apply Hreq'; fail).
  unfold post.
  match goal with
  | |- context [requests_post net ?k ?r] =>
      destruct (requests_post net k r) as [resp'|]
  end; simpl;
    repeat first [split|apply Forall_cons|apply Forall_nil]; simpl; auto;
      try apply (Hreq (bearer (sender st))); try apply Hreq'.
Qed.

Lemma invariant_send_email to :
  allowed to ->
  holds (delivery_invariant allowed subj html atts cc)
    (send_email net to subj html atts cc).
Proof.
  intros Hto. unfold send_email.
  apply holds_bind; [apply delivery_invariant_trans| |].
  { intros st. apply delivery_invariant_refl. }
  intros s. apply holds_bind; [apply delivery_invariant_trans| |].
  { destruct (no_token s);
      [apply holds_ret, delivery_invariant_refl
      |apply invariant_is_token_expired]. }
  intros [|]; [|now apply invariant_send_prepared].
  apply holds_bind; [apply delivery_invariant_trans| |].
  { apply invariant_authenticate. }
  intros [|]; [now apply invariant_send_prepared|].
  apply holds_ret, delivery_invariant_refl.
Qed.

End DeliveryInvariant.
(** *** The batch keeps the invariant *)

Lemma send_batch_invariant (net : network) (world : markup_world)
  (recipients : list string) (subj template : string)
  (min_delay max_delay max_retries : Z) (cc : option (list string))
  (st : state) :
  match extract_inline_images world (sanitize_html world template) with
  | Return (processed_html, atts) =>
      delivery_invariant (fun to => In to recipients) subj processed_html
        (Some atts) cc st
        (snd (fst (send_batch net world recipients subj template min_delay
                     max_delay max_retries cc st)))
        (snd (send_batch net world recipients subj template min_delay
                max_delay max_retries cc st))
  | Raise e =>
      send_batch net world recipients subj template min_delay max_delay
        max_retries cc st = (Raise e, st, [])
  end.
Proof.
  unfold send_batch.
  destruct (extract_inline_images world (sanitize_html world template))
    as [[processed_html atts]|e]; [|reflexivity].
  assert (H : holds
                (delivery_invariant (fun to => In to recipients) subj
                   processed_html (Some atts) cc)
                (batch_loop net subj processed_html atts min_delay max_delay
                   max_retries cc 0 (Z.of_nat (List.length recipients))
                   recipients
                   {| total := Z.of_nat (List.length recipients); sent := 0;
                      failed := 0; skipped := 0; details := [] |})).
  { apply (holds_batch_loop
             (delivery_invariant (fun to => In to recipients) subj
                processed_html (Some atts) cc)
             (delivery_invariant_refl _ _ _ _ _)
             (delivery_invariant_trans _ _ _ _ _)
             net subj processed_html atts min_delay max_delay max_retries cc
             (fun to => In to recipients)).
    - intros to Hto. now apply invariant_send_email.
    - apply invariant_emit.
    - apply invariant_sleep.
    - apply invariant_now.
    - apply invariant_randint.
    - apply Forall_forall. auto. }
  specialize (H st). unfold lift, bind, ret.
  destruct (batch_loop _ _ _ _ _ _ _ _ _ _ _ _ st) as [[r st'] tr].
  exact H.
Qed.

(** X1.  One message, one recipient.  Every request that [send_batch]
    posts, in every run, whether it returns or raises, is addressed to
    exactly one recipient, taken from the list given.  All of them go to
    the [sendMail] address of the sender's mailbox and carry the subject
    given, the markup that the preprocessing made of the template once,
    the attachments it extracted (left out when there are none), the
    carbon copies given (left out when there are none), and the flag to
    save the sent item.  When the preprocessing raises, because
    html.parser rejects the sanitized template, nothing is posted at
    all. *)
Theorem every_request_addresses_one_recipient (net : network)
  (world : markup_world) (recipients : list string) (subj template : string)
  (min_delay max_delay max_retries : Z) (cc : option (list string))
  (st : state) :
  match extract_inline_images world (sanitize_html world template) with
  | Return (processed_html, atts) =>
      Forall
        (request_to (fun to => In to recipients) (sender st) subj
           processed_html (Some atts) cc)
        (snd (send_batch net world recipients subj template min_delay
                max_delay max_retries cc st))
  | Raise _ =>
      snd (send_batch net world recipients subj template min_delay
             max_delay max_retries cc st) = []
  end.
Proof.
  pose proof (send_batch_invariant net world recipients subj template
                min_delay max_delay max_retries cc st) as H.
  destruct (extract_inline_images world (sanitize_html world template))
    as [[processed_html atts]|e].
  - apply H.
  - now rewrite H.
Qed.

(** What every run of [send_batch] keeps, whatever the preprocessing
    did. *)
Lemma send_batch_token_invariant (net : network) (world : markup_world)
  (recipients : list string) (subj template : string)
  (min_delay max_delay max_retries : Z) (cc : option (list string))
  (st : state) :
  same_config (sender st)
    (sender
       (snd (fst (send_batch net world recipients subj template min_delay
                    max_delay max_retries cc st))))
  /\ access_token
       (sender
          (snd (fst (send_batch net world recipients subj template min_delay
                       max_delay max_retries cc st))))
     = last_granted (access_token (sender st))
         (snd (send_batch net world recipients subj template min_delay
                 max_delay max_retries cc st))
  /\ well_authorised (access_token (sender st))
       (snd (send_batch net world recipients subj template min_delay
               max_delay max_retries cc st)).
Proof.
  pose proof (send_batch_invariant net world recipients subj template
                min_delay max_delay max_retries cc st) as H.
  destruct (extract_inline_images world (sanitize_html world template))
    as [[processed_html atts]|e].
  - destruct H as (Hc & Ht & Hw & _).
    split; [exact Hc|]. split; [exact Ht|exact Hw].
  - rewrite H. cbn. split; [apply same_config_refl|]. now split.
Qed.

(** X2.  Every request carries the current token.  In every run of
    [send_batch], each request is authorised by [Bearer <token>] where the
    token is the one the last successful token call before the request
    granted (the token held at the start when there was none), and the
    token held at the end is the last one granted in the run. *)
Theorem every_request_carries_the_last_granted_token (net : network)
  (world : markup_world) (recipients : list string) (subj template : string)
  (min_delay max_delay max_retries : Z) (cc : option (list string))
  (st : state) :
  well_authorised (access_token (sender st))
    (snd (send_batch net world recipients subj template min_delay max_delay
            max_retries cc st))
  /\ access_token
       (sender
          (snd (fst (send_batch net world recipients subj template min_delay
                       max_delay max_retries cc st))))
     = last_granted (access_token (sender st))
         (snd (send_batch net world recipients subj template min_delay
                 max_delay max_retries cc st)).
Proof.
  destruct (send_batch_token_invariant net world recipients subj template
              min_delay max_delay max_retries cc st) as (_ & Ht & Hw).
  now split.
Qed.

(** X3.  The configuration is never touched.  No run of [send_batch]
    changes the tenant, the client id, the client secret, the mailbox or
    the base address of the sender; only the token and its expiry move. *)
Theorem send_batch_keeps_the_configuration (net : network)
  (world : markup_world) (recipients : list string) (subj template : string)
  (min_delay max_delay max_retries : Z) (cc : option (list string))
  (st : state) :
  same_config (sender st)
    (sender
       (snd (fst (send_batch net world recipients subj template min_delay
                    max_delay max_retries cc st)))).
Proof. apply send_batch_token_invariant. Qed.

(** ** How much a batch can send *)

Lemma backoff_delay_bounds attempt : 0 <= backoff_delay attempt <= 300.
Proof.
  unfold backoff_delay. pose proof (Z.pow_nonneg 2 attempt ltac:(lia)). lia.
Qed.

(** A backoff wait is taken or rejected by the operating system. *)
Lemma sleep_backoff net attempt st :
  sleep net Backoff (backoff_delay attempt) st
  = if os_sleep net (sleep_calls st) (backoff_delay attempt)
    then (Return tt, count_sleep st,
          [Slept Backoff (backoff_delay attempt)])
    else (Raise OSError, count_sleep st, []).
Proof.
  unfold sleep. pose proof (backoff_delay_bounds attempt).
  replace ((backoff_delay attempt <? - sleep_limit)
           || (sleep_limit <? backoff_delay attempt)) with false.
  2: { symmetry. apply orb_false_iff. unfold sleep_limit.
       split; apply Z.ltb_ge; lia. }
  replace (backoff_delay attempt <? 0) with false
    by (symmetry; apply Z.ltb_ge; lia).
  reflexivity.
Qed.

Section CountFacts.

Variable net : network.
Variables (subj processed_html : string) (atts : list attachment).
Variables (min_delay max_delay max_retries : Z).
Variable cc_addresses : option (list string).

(** The loop of one recipient, from every state and attempt number: it
    makes at most [remaining] attempts, of which the last one at most
    succeeds, and each attempt costs at most two requests and two token
    calls; it returns, or raises the [OSError] of a backoff wait that the
    operating system rejected, after an attempt. *)
Lemma retry_loop_counts to remaining :
  forall attempt st,
  exists r st' tr,
    retry_loop net subj processed_html atts max_retries cc_addresses to
      remaining attempt st = (r, st', tr)
    /\ (count_events is_attempt tr <= remaining)%nat
    /\ (count_events is_post tr <= 2 * count_events is_attempt tr)%nat
    /\ (count_events is_token_call tr <= 2 * count_events is_attempt tr)%nat
    /\ count_events is_success tr
       = (match r with Return true => 1 | _ => 0 end)%nat
    /\ match r with
       | Return _ => True
       | Raise e => e = OSError /\ (0 < count_events is_attempt tr)%nat
       end.
Proof.
  induction remaining as [|r IH]; intros attempt st.
  - exists (Return false), st, []. repeat split; simpl; auto.
  - cbn [retry_loop].
    destruct (send_email_run net to subj processed_html (Some atts)
                cc_addresses st) as (ok & st1 & tr1 & Hrun & Hshape).
    apply email_run_counts in Hshape as (Hp & Ht & Ha & Hs).
    unfold bind at 1. rewrite Hrun.
    unfold bind at 1. unfold emit at 1.
    destruct ok.
    + unfold ret. do 3 eexists. split; [reflexivity|].
      unfold count_events in *.
      rewrite !filter_app, !length_app. simpl. repeat split; lia.
    + assert (Hrest : exists r' st' tr,
        (if attempt <? max_retries
         then bind (sleep net Backoff (backoff_delay attempt))
                (fun _ => retry_loop net subj processed_html atts max_retries
                            cc_addresses to r (attempt + 1))
         else retry_loop net subj processed_html atts max_retries
                cc_addresses to r (attempt + 1)) st1 = (r', st', tr)
        /\ (count_events is_attempt tr <= r)%nat
        /\ (count_events is_post tr <= 2 * count_events is_attempt tr)%nat
        /\ (count_events is_token_call tr
            <= 2 * count_events is_attempt tr)%nat
        /\ count_events is_success tr
           = (match r' with Return true => 1 | _ => 0 end)%nat
        /\ match r' with
           | Return _ => True
           | Raise e => e = OSError
           end).
      { destruct (attempt <? max_retries).
        - unfold bind. rewrite sleep_backoff.
          destruct (os_sleep net (sleep_calls st1) (backoff_delay attempt)).
          + destruct (IH (attempt + 1) (count_sleep st1))
              as (r' & st' & tr & Hrec & H1 & H2 & H3 & H4 & H5).
            rewrite Hrec. do 3 eexists. split; [reflexivity|].
            change (count_events is_attempt (Slept Backoff _ :: tr))
              with (count_events is_attempt tr).
            change (count_events is_post (Slept Backoff _ :: tr))
              with (count_events is_post tr).
            change (count_events is_token_call (Slept Backoff _ :: tr))
              with (count_events is_token_call tr).
            change (count_events is_success (Slept Backoff _ :: tr))
              with (count_events is_success tr).
            repeat (split; [assumption|]).
            destruct r'; [exact I|apply H5].
          + do 3 eexists. split; [reflexivity|].
            unfold count_events. simpl. repeat split; lia.
        - destruct (IH (attempt + 1) st1)
            as (r' & st' & tr & Hrec & H1 & H2 & H3 & H4 & H5).
          rewrite Hrec. do 3 eexists. split; [reflexivity|].
          repeat (split; [assumption|]).
          destruct r'; [exact I|apply H5]. }
      destruct Hrest as (r' & st' & tr & Hrec & H1 & H2 & H3 & H4 & H5).
      rewrite Hrec. do 3 eexists. split; [reflexivity|].
      unfold count_events in *.
      rewrite !filter_app, !length_app. simpl.
      split; [lia|]. split; [lia|]. split; [lia|]. split; [lia|].
      destruct r'; [exact I|]. split; [exact H5|lia].
Qed.

(** What the run of a delay between two recipients can be. *)
Lemma delay_cases (wanted : bool) st :
  exists r st' tr,
    (if wanted
     then bind (randint net min_delay max_delay)
            (fun delay => sleep net BetweenRecipients delay)
     else ret tt) st = (r, st', tr)
    /\ count_events is_attempt tr = 0%nat
    /\ count_events is_post tr = 0%nat
    /\ count_events is_token_call tr = 0%nat
    /\ count_events is_success tr = 0%nat
    /\ match r with
       | Return _ => True
       | Raise e =>
           (e = ValueError \/ e = OverflowError \/ e = OSError)
           /\ wanted = true
       end.
Proof.
  destruct wanted; [|exists (Return tt), st, []; now auto].
  unfold bind, randint. destruct (max_delay <? min_delay).
  { exists (Raise ValueError), st, []. repeat split; auto. }
  unfold sleep.
  match goal with
  | |- context [(?d <? - sleep_limit) || (sleep_limit <? ?d)] =>
      destruct ((d <? - sleep_limit) || (sleep_limit <? d));
        [|destruct (d <? 0);
          [|destruct (os_sleep net
                        (sleep_calls (count_random_draw st)) d)]]
  end; do 3 eexists; (split; [reflexivity|]); repeat split; auto.
Qed.

(** The loop over the recipients, in every run: how much it does, how it
    can end, and what the counters of a summary returned say. *)
Lemma batch_loop_counts n rest :
  forall i results st,
    i + Z.of_nat (List.length rest) = n ->
    exists r st' tr,
      batch_loop net subj processed_html atts min_delay max_delay
        max_retries cc_addresses i n rest results st = (r, st', tr)
      /\ (count_events is_attempt tr
          <= List.length rest * Z.to_nat (max_retries + 1))%nat
      /\ (count_events is_post tr <= 2 * count_events is_attempt tr)%nat
      /\ (count_events is_token_call tr
          <= 2 * count_events is_attempt tr)%nat
      /\ (count_events is_success tr <= List.length rest)%nat
      /\ match r with
         | Return res =>
             sent res = sent results + Z.of_nat (count_events is_success tr)
             /\ failed res
                = failed results + Z.of_nat (List.length rest)
                  - Z.of_nat (count_events is_success tr)
             /\ total res = total results
             /\ skipped res = skipped results
         | Raise e =>
             (e = OSError /\ (0 < count_events is_attempt tr)%nat)
             \/ ((e = ValueError \/ e = OverflowError \/ e = OSError)
                 /\ (2 <= List.length rest)%nat)
         end.
Proof.
  induction rest as [|to rest' IH]; intros i results st Hn.
  - exists (Return results), st, []. split; [reflexivity|].
    unfold count_events. simpl. repeat split; lia.
  - cbn [batch_loop]. unfold deliver.
    destruct (retry_loop_counts to (Z.to_nat (max_retries + 1)) 0 st)
      as (rb & st1 & tr1 & Hrun & Ha & Hp & Ht & Hs & Hr).
    unfold bind at 1. rewrite Hrun.
    cbn [List.length] in Hn |- *.
    destruct rb as [b|e].
    2: { destruct Hr as [-> Hpos]. do 3 eexists. split; [reflexivity|].
         split; [nia|]. split; [lia|]. split; [lia|]. split; [lia|].
         left. now split. }
    unfold bind at 1. unfold now at 1.
    set (results' :=
           record_result results (datetime_now net (clock_reads st1)) to b).
    set (st2 := count_clock_read st1).
    assert (Hres : sent results' = sent results + (if b then 1 else 0)
                   /\ failed results'
                      = failed results + (if b then 0 else 1)
                   /\ total results' = total results
                   /\ skipped results' = skipped results)
      by (subst results'; unfold record_result; destruct b; simpl;
          repeat split; lia).
    destruct Hres as (Rs & Rf & Rt & Rk).
    assert (Hs' : count_events is_success tr1 = (if b then 1 else 0)%nat)
      by (rewrite Hs; now destruct b).
    destruct (delay_cases (i <? n - 1) st2)
      as (r3 & st3 & tr3 & Hd & D1 & D2 & D3 & D4 & Dr).
    unfold bind at 1. rewrite Hd.
    destruct r3 as [[]|e].
    + destruct (IH (i + 1) results' st3 ltac:(lia))
        as (r & st' & tr & Hloop & I1 & I2 & I3 & I4 & I5).
      rewrite Hloop. do 3 eexists. split; [reflexivity|].
      rewrite !count_events_app, D1, D2, D3, D4.
      change (count_events is_attempt []) with 0%nat.
      change (count_events is_post []) with 0%nat.
      change (count_events is_token_call []) with 0%nat.
      change (count_events is_success []) with 0%nat.
      split; [lia|]. split; [lia|]. split; [lia|].
      split; [destruct b; lia|].
      destruct r as [res|e].
      * destruct I5 as (J1 & J2 & J3 & J4).
        rewrite J1, J2, J3, J4, Rs, Rf, Rt, Rk, Hs'.
        destruct b; repeat split; lia.
      * destruct I5 as [[-> I5]|[I5 I6]].
        -- left. split; [reflexivity|lia].
        -- right. split; [exact I5|lia].
    + destruct Dr as [De Di]. apply Z.ltb_lt in Di.
      do 3 eexists. split; [reflexivity|].
      rewrite !count_events_app, D1, D2, D3, D4.
      change (count_events is_attempt []) with 0%nat.
      change (count_events is_post []) with 0%nat.
      change (count_events is_token_call []) with 0%nat.
      change (count_events is_success []) with 0%nat.
      split; [nia|]. split; [lia|]. split; [lia|].
      split; [destruct b; lia|].
      right. split; [exact De|lia].
Qed.

End CountFacts.

Lemma send_batch_counts (net : network) (world : markup_world)
  (recipients : list string) (subj template : string)
  (min_delay max_delay max_retries : Z) (cc : option (list string))
  (st : state) :
  exists r st' tr,
    send_batch net world recipients subj template min_delay max_delay
      max_retries cc st = (r, st', tr)
    /\ (count_events is_attempt tr
        <= List.length recipients * Z.to_nat (max_retries + 1))%nat
    /\ (count_events is_post tr <= 2 * count_events is_attempt tr)%nat
    /\ (count_events is_token_call tr <= 2 * count_events is_attempt tr)%nat
    /\ (count_events is_success tr <= List.length recipients)%nat
    /\ match r with
       | Return res =>
           sent res = Z.of_nat (count_events is_success tr)
           /\ failed res
              = Z.of_nat (List.length recipients)
                - Z.of_nat (count_events is_success tr)
           /\ total res = Z.of_nat (List.length recipients)
           /\ skipped res = 0
       | Raise e =>
           (e = ParserRejectedMarkup
            /\ parse_html_parser world (sanitize_html world template) = None
            /\ tr = [])
           \/ (e = OSError /\ (0 < count_events is_attempt tr)%nat)
           \/ ((e = ValueError \/ e = OverflowError \/ e = OSError)
               /\ (2 <= List.length recipients)%nat)
       end.
Proof.
  destruct (parse_html_parser world (sanitize_html world template))
    as [doc|] eqn:Hparse.
  - destruct (send_batch_parsed net world recipients subj template min_delay
                max_delay max_retries cc st doc Hparse) as [_ ->].
    destruct (batch_loop_counts net subj
                (Bs4.decode (fst (extract_from_soup world doc)))
                (snd (extract_from_soup world doc)) min_delay
                max_delay max_retries cc (Z.of_nat (List.length recipients))
                recipients 0
                {| total := Z.of_nat (List.length recipients); sent := 0;
                   failed := 0; skipped := 0; details := [] |} st ltac:(lia))
      as (r & st' & tr & Hrun & H1 & H2 & H3 & H4 & H5).
    exists r, st', tr. split; [exact Hrun|].
    repeat (split; [assumption|]).
    destruct r; [simpl in H5; exact H5|]. right. exact H5.
  - rewrite (send_batch_rejected net world recipients subj template min_delay
               max_delay max_retries cc st Hparse).
    do 3 eexists. split; [reflexivity|].
    unfold count_events. simpl.
    split; [lia|]. split; [lia|]. split; [lia|]. split; [lia|].
    left. now repeat split.
Qed.

(** X4.  A bound on what a batch sends.  In every run of [send_batch],
    whether it returns or raises, [send_email] is called at most
    N * (max_retries + 1) times for N recipients (not at all under a
    negative budget), and for each call at most two requests are posted
    and at most two token calls are made. *)
Theorem send_batch_sends_a_bounded_number_of_requests (net : network)
  (world : markup_world) (recipients : list string) (subj template : string)
  (min_delay max_delay max_retries : Z) (cc : option (list string))
  (st : state) :
  (count_events is_attempt
     (snd (send_batch net world recipients subj template min_delay max_delay
             max_retries cc st))
   <= List.length recipients * Z.to_nat (max_retries + 1))%nat
  /\ (count_events is_post
        (snd (send_batch net world recipients subj template min_delay
                max_delay max_retries cc st))
      <= 2 * count_events is_attempt
               (snd (send_batch net world recipients subj template min_delay
                       max_delay max_retries cc st)))%nat
  /\ (count_events is_token_call
        (snd (send_batch net world recipients subj template min_delay
                max_delay max_retries cc st))
      <= 2 * count_events is_attempt
               (snd (send_batch net world recipients subj template min_delay
                       max_delay max_retries cc st)))%nat.
Proof.
  destruct (send_batch_counts net world recipients subj template min_delay
              max_delay max_retries cc st)
    as (r & st' & tr & -> & H1 & H2 & H3 & _).
  now repeat split.
Qed.



(** X7.  A negative retry budget sends nothing.  With [max_retries < 0]
    the loop [range(max_retries + 1)] is empty: no run of [send_batch]
    calls [send_email], posts a request or asks for a token, and a summary
    returned counts every recipient as failed. *)
Theorem negative_budget_sends_nothing (net : network) (world : markup_world)
  (recipients : list string) (subj template : string)
  (min_delay max_delay max_retries : Z) (cc : option (list string))
  (st : state) :
  max_retries < 0 ->
  count_events is_attempt
    (snd (send_batch net world recipients subj template min_delay max_delay
            max_retries cc st)) = 0%nat
  /\ count_events is_post
       (snd (send_batch net world recipients subj template min_delay
               max_delay max_retries cc st)) = 0%nat
  /\ count_events is_token_call
       (snd (send_batch net world recipients subj template min_delay
               max_delay max_retries cc st)) = 0%nat
  /\ match fst (fst (send_batch net world recipients subj template min_delay
                       max_delay max_retries cc st)) with
     | Return res =>
         sent res = 0 /\ failed res = Z.of_nat (List.length recipients)
     | Raise _ => True
     end.
Proof.
  intros Hneg.
  destruct (send_batch_counts net world recipients subj template min_delay
              max_delay max_retries cc st)
    as (r & st' & tr & -> & H1 & H2 & H3 & H4 & H5).
  cbn [fst snd].
  replace (Z.to_nat (max_retries + 1)) with 0%nat in H1 by lia.
  rewrite Nat.mul_0_r in H1.
  assert (Ha : count_events is_attempt tr = 0%nat) by lia.
  assert (Hs : count_events is_success tr = 0%nat).
  { unfold count_events in *. clear - Ha.
    induction tr as [|e tr IH]; [reflexivity|].
    destruct e as [| | |to [|]]; simpl in *; try discriminate; auto. }
  split; [exact Ha|]. split; [lia|]. split; [lia|].
  destruct r; [|exact I]. destruct H5 as (J1 & J2 & _). lia.
Qed.

(** X7, witness: two recipients, a budget of -1. *)
Lemma negative_budget_sends_nothing_witness :
  count_events is_post
    (snd (send_batch Example.accepting_net Example.plain_world
            Example.two_recipients "Hello" "<p>Hi</p>" 30 120 (-1) None
            Example.fresh_state)) = 0%nat.
Proof.
  destruct (negative_budget_sends_nothing Example.accepting_net
              Example.plain_world Example.two_recipients "Hello" "<p>Hi</p>"
              30 120 (-1) None Example.fresh_state) as (_ & H & _).
  - lia.
  - exact H.
Defined.



(** ** The life of a token *)

(** X9.  A token is held for 50 minutes.  After an [authenticate] that
    was granted the token [tok] when the clock read [t], the next call of
    [is_token_expired] answers [True] exactly when the clock, read again,
    has reached [t] + 50 minutes (the 55 minutes of validity less the
    margin of 5), or when [tok] is the empty string, which the code takes
    for no token at all. *)
Theorem token_is_held_for_fifty_minutes (net : network) (st : state)
  (tok : string) :
  acquire_token_for_client net (token_calls st) = TokenGranted tok ->
  fst (fst (is_token_expired net (snd (fst (authenticate net st)))))
  = Return
      (negb (PyStr.truthy tok)
       || (datetime_now net (clock_reads st) + 50 * 60 * 1000000
           <=? datetime_now net (S (clock_reads st)))).
Proof.
  intros Hgrant. rewrite authenticate_run, Hgrant. cbn [fst snd].
  unfold is_token_expired, bind, get_sender, no_token. simpl.
  destruct (PyStr.truthy tok); simpl; [|reflexivity].
  do 2 f_equal. unfold minutes. lia.
Qed.

(** X9, witness: [accepting_net] grants at every call. *)
Lemma token_is_held_for_fifty_minutes_witness :
  fst (fst (is_token_expired Example.accepting_net
              (snd (fst (authenticate Example.accepting_net
                           Example.fresh_state)))))
  = Return false.
Proof.
  rewrite (token_is_held_for_fifty_minutes Example.accepting_net
             Example.fresh_state "token0"); reflexivity.
Defined.

Lemma prepared_run_starts_with_request req tr b :
  prepared_run req tr b ->
  exists o rest, tr = Posted req o :: rest
    /\ (count_events is_token_call rest <= 1)%nat.
Proof.
  destruct 1; do 2 eexists; (split; [reflexivity|]);
    unfold count_events; simpl; lia.
Qed.

(** X10.  Without a token, [send_email] authenticates first, once.  When
    the sender holds no token ([None] or the empty string), the call
    starts with exactly one token call.  When that call grants no token,
    nothing else happens: no request is posted, the result is [False] and
    the sender is what it was.  When it grants one, the first request
    follows at once and carries the new token. *)
Theorem send_email_without_token_authenticates_first (net : network)
  (to subj html : string) (atts : option (list attachment))
  (cc : option (list string)) (st : state) :
  no_token (sender st) = true ->
  exists b st' rest,
    send_email net to subj html atts cc st
    = (Return b, st',
       Authenticated (acquire_token_for_client net (token_calls st)) :: rest)
    /\ match acquire_token_for_client net (token_calls st) with
       | TokenGranted tok =>
           exists req o rest',
             rest = Posted req o :: rest'
             /\ authorization req = ("Bearer " ++ tok)%string
             /\ toRecipients (body req) = [to]
       | _ => rest = [] /\ b = false /\ sender st' = sender st
       end.
Proof.
  intros Hno. unfold send_email.
  unfold bind at 1. unfold get_sender at 1.
  unfold bind at 1. rewrite Hno. unfold ret at 1.
  unfold bind at 1. rewrite authenticate_run.
  destruct (acquire_token_for_client net (token_calls st)) as [tok| |].
  - destruct (send_prepared_run net to subj html atts cc
                (granted_state net tok st))
      as (b & st' & tr & Hrun & Hshape).
    rewrite Hrun. exists b, st', tr. split; [reflexivity|].
    apply prepared_run_starts_with_request in Hshape
      as (o & rest' & -> & _).
    do 3 eexists. split; [reflexivity|]. now split.
  - exists false. do 2 eexists. split; [reflexivity|]. now repeat split.
  - exists false. do 2 eexists. split; [reflexivity|]. now repeat split.
Qed.

(** X10, witness: the sender fresh from [__init__] holds no token. *)
Lemma send_email_without_token_authenticates_first_witness :
  exists b st' rest,
    send_email Example.accepting_net "ann@example.com" "Hello" "<p>Hi</p>"
      None None Example.fresh_state
    = (Return b, st',
       Authenticated
         (acquire_token_for_client Example.accepting_net
            (token_calls Example.fresh_state)) :: rest).
Proof.
  destruct (send_email_without_token_authenticates_first
              Example.accepting_net "ann@example.com" "Hello" "<p>Hi</p>"
              None None Example.fresh_state)
    as (b & st' & rest & Hrun & _).
  - reflexivity.
  - now exists b, st', rest.
Defined.

(** X11.  A token that is not stale is not asked for again.  When the
    sender holds a non-empty token whose expiry is more than 5 minutes
    after the clock reading, [send_email] goes straight to its request,
    which carries that token; a token call can only follow that request,
    and at most one does. *)
Theorem send_email_reuses_a_fresh_token (net : network)
  (to subj html : string) (atts : option (list attachment))
  (cc : option (list string)) (st : state) (tok : string) (expires : Z) :
  access_token (sender st) = Some tok ->
  PyStr.truthy tok = true ->
  token_expires_at (sender st) = Some expires ->
  datetime_now net (clock_reads st) < expires - 5 * 60 * 1000000 ->
  exists b st' req o rest,
    send_email net to subj html atts cc st
    = (Return b, st', Posted req o :: rest)
    /\ authorization req = ("Bearer " ++ tok)%string
    /\ (count_events is_token_call rest <= 1)%nat.
Proof.
  intros Htok Htruthy Hexp Hfresh. unfold send_email.
  assert (Hno : no_token (sender st) = false)
    by (unfold no_token; now rewrite Htok, Htruthy).
  unfold bind at 1. unfold get_sender at 1.
  unfold bind at 1. rewrite Hno.
  unfold is_token_expired, bind at 1, get_sender at 1. rewrite Hno, Hexp.
  unfold bind at 1. unfold now at 1. unfold ret at 1.
  replace (expires - minutes 5 <=? datetime_now net (clock_reads st))
    with false by (symmetry; apply Z.leb_gt; unfold minutes; lia).
  destruct (send_prepared_run net to subj html atts cc (count_clock_read st))
    as (b & st' & tr & Hrun & Hshape).
  cbn [app]. rewrite Hrun.
  apply prepared_run_starts_with_request in Hshape as (o & rest & -> & Hc).
  exists b, st'. do 3 eexists. split; [reflexivity|].
  split; [|exact Hc]. simpl. unfold bearer. simpl. now rewrite Htok.
Qed.

(** X11, witness: a token granted at time 0, used one second later. *)
Lemma send_email_reuses_a_fresh_token_witness :
  exists b st' req o rest,
    send_email Example.accepting_net "ann@example.com" "Hello" "<p>Hi</p>"
      None None
      (snd (fst (authenticate Example.accepting_net Example.fresh_state)))
    = (Return b, st', Posted req o :: rest)
    /\ authorization req = "Bearer token0".
Proof.
  destruct (send_email_reuses_a_fresh_token Example.accepting_net
              "ann@example.com" "Hello" "<p>Hi</p>" None None
              (snd (fst (authenticate Example.accepting_net
                           Example.fresh_state)))
              "token0" 3300000000)
    as (b & st' & req & o & rest & Hrun & Hauth & _);
    try reflexivity.
  now exists b, st', req, o, rest.
Defined.

(** ** Inline images: numbering, references, second pass *)

Lemma startswith_first_char (p : string) (c d : ascii) (q s : string) :
  PyStr.startswith (String c p) s = true ->
  Ascii.eqb c d = false ->
  PyStr.startswith (String d q) s = false.
Proof.
  destruct s as [|e s]; [reflexivity|]. cbn [PyStr.startswith].
  intros H Hcd. apply andb_true_iff in H as [H _].
  apply Ascii.eqb_eq in H. subst e.
  destruct (Ascii.eqb_spec d c) as [->|_]; [|reflexivity].
  now rewrite Ascii.eqb_refl in Hcd.
Qed.

Lemma set_attr_same k v attrs :
  Bs4.get_attr k attrs = Some v -> Bs4.set_attr k v attrs = attrs.
Proof.
  induction attrs as [|[k' v'] attrs IH]; [reflexivity|].
  cbn [Bs4.get_attr Bs4.set_attr].
  destruct (String.eqb k k'); intros H.
  - now injection H as ->.
  - now rewrite IH.
Qed.

Lemma assign_srcs_all_same doc :
  Forall (fun n => forall rest,
            assign_srcs n (img_srcs n ++ rest) = (n, rest)) doc ->
  forall rest,
    assign_srcs_all doc (flat_map img_srcs doc ++ rest) = (doc, rest).
Proof.
  induction 1 as [|n doc Hn _ IH]; intros rest; [reflexivity|].
  cbn [flat_map assign_srcs_all]. rewrite <- app_assoc, Hn, IH. reflexivity.
Qed.

Lemma assign_srcs_same n :
  forall rest, assign_srcs n (img_srcs n ++ rest) = (n, rest).
Proof.
  induction n as [nm attrs ch IH|t|t|t|t|t|t] using node_induction;
    try reflexivity.
  intros rest. rewrite assign_srcs_Tag. cbn [img_srcs].
  destruct (String.eqb nm "img").
  - destruct (Bs4.get_attr "src" attrs) as [old|] eqn:Esrc.
    + cbn [app]. rewrite (assign_srcs_all_same ch IH).
      now rewrite (set_attr_same _ _ _ Esrc).
    + cbn [app]. now rewrite (assign_srcs_all_same ch IH).
  - cbn [app]. now rewrite (assign_srcs_all_same ch IH).
Qed.

Lemma assign_srcs_all_own doc :
  assign_srcs_all doc (flat_map img_srcs doc) = (doc, []).
Proof.
  rewrite <- (app_nil_r (flat_map img_srcs doc)).
  apply assign_srcs_all_same, Forall_forall. intros n _.
  apply assign_srcs_same.
Qed.

Section NumberingFacts.

Variable world : markup_world.

(** The loop body either leaves [src] and the attachments alone or
    appends one attachment, with the next number, and refers to it. *)
Lemma process_img_cases atts src :
  (converted world src = false /\ process_img world atts src = (src, atts))
  \/ (converted world src = true
      /\ exists nm mime data,
           process_img world atts src
           = (("cid:" ++ new_cid atts)%string,
              atts ++ [file_attachment nm mime data (new_cid atts)])
           /\ PyStr.startswith "image/" mime = true).
Proof.
  unfold converted, process_img.
  destruct (PyStr.startswith "data:" src).
  { destruct (match_data_uri src) as [[mime_type base64_data]|] eqn:Hm;
      [right|left; now split].
    split; [reflexivity|]. exists (image_name atts), mime_type, base64_data.
    split; [reflexivity|].
    apply match_data_uri_sound in Hm as (payload & Hform & _).
    destruct Hform as (subtype & _ & _ & -> & _). reflexivity. }
  destruct (PyStr.startswith "file://" src || PyStr.startswith "/" src);
    [left; now split|].
  destruct (negb (PyStr.startswith "http" src)
            && negb (PyStr.startswith "cid:" src)); [|left; now split].
  destruct (os_path_exists world (resolve_image_path world src));
    [|left; now split].
  destruct (read_base64 world (resolve_image_path world src)) as [data|];
    [right|left; now split].
  split; [reflexivity|].
  exists (OsPath.last_component src), (mime_of_extension src), data.
  split; [reflexivity|].
  unfold mime_of_extension.
  destruct (_ || _); [reflexivity|]. now destruct (String.eqb _ _).
Qed.

Lemma left_alone_not_converted src :
  left_alone world src = true -> converted world src = false.
Proof.
  unfold left_alone, converted, process_img. intros H.
  destruct (PyStr.startswith "data:" src) eqn:Hdata.
  - rewrite (startswith_first_char _ _ "f" "ile://" _ Hdata eq_refl),
      (startswith_first_char _ _ "/" EmptyString _ Hdata eq_refl),
      (startswith_first_char _ _ "h" "ttp" _ Hdata eq_refl),
      (startswith_first_char _ _ "c" "id:" _ Hdata eq_refl) in H.
    discriminate.
  - destruct (PyStr.startswith "file://" src); [reflexivity|].
    destruct (PyStr.startswith "/" src); [reflexivity|].
    destruct (PyStr.startswith "http" src); [reflexivity|].
    destruct (PyStr.startswith "cid:" src); [reflexivity|].
    simpl in H |- *.
    destruct (os_path_exists world (resolve_image_path world src));
      [discriminate|reflexivity].
Qed.


Lemma new_cid_numbered atts :
  new_cid atts = numbered_cid (List.length atts + 1).
Proof. reflexivity. Qed.

Lemma numbered_cid_not_converted k :
  converted world ("cid:" ++ numbered_cid k) = false.
Proof. reflexivity. Qed.

(** The loop: the values left behind, the content ids, the shape of the
    attachments. *)
Lemma process_imgs_numbering srcs :
  forall atts,
    fst (process_imgs world atts srcs)
    = relabel world (List.length atts + 1) srcs
    /\ map contentId (snd (process_imgs world atts srcs))
       = map contentId atts
           ++ map numbered_cid
                (seq (List.length atts + 1)
                   (List.length (filter (converted world) srcs)))
    /\ (Forall inline_image_attachment atts ->
        Forall inline_image_attachment (snd (process_imgs world atts srcs))).
Proof.
  induction srcs as [|src srcs IH]; intros atts.
  - simpl. rewrite app_nil_r. auto.
  - cbn [process_imgs relabel filter].
    destruct (process_img_cases atts src)
      as [[Hc Hrun]|[Hc (nm & mime & data & Hrun & Hmime)]];
      rewrite Hrun, Hc.
    + destruct (IH atts) as (H1 & H2 & H3).
      destruct (process_imgs world atts srcs) as [r a]. cbn [fst snd] in *.
      now rewrite H1.
    + destruct (IH (atts ++ [file_attachment nm mime data (new_cid atts)]))
        as (H1 & H2 & H3).
      destruct (process_imgs world _ srcs) as [r a]. cbn [fst snd] in *.
      rewrite length_app in *. cbn [List.length] in *.
      replace (List.length atts + 1 + 1)%nat
        with (S (List.length atts + 1)) in * by lia.
      split; [now rewrite H1|]. split.
      * rewrite H2, map_app, <- app_assoc. reflexivity.
      * intros Hatts. apply H3, Forall_app. split; [exact Hatts|].
        constructor; [|constructor]. now repeat split.
Qed.

Lemma relabel_not_converted srcs :
  forall k,
    Forall (fun s => converted world s = false) (relabel world k srcs).
Proof.
  induction srcs as [|src srcs IH]; intros k; [constructor|].
  cbn [relabel]. destruct (converted world src) eqn:Hc.
  - constructor; [apply numbered_cid_not_converted|apply IH].
  - constructor; [exact Hc|apply IH].
Qed.

Lemma process_imgs_nothing_converted srcs :
  Forall (fun s => converted world s = false) srcs ->
  forall atts, process_imgs world atts srcs = (srcs, atts).
Proof.
  induction 1 as [|src srcs Hc _ IH]; intros atts; [reflexivity|].
  cbn [process_imgs].
  destruct (process_img_cases atts src) as [[_ ->]|[Hc' _]];
    [|congruence].
  now rewrite IH.
Qed.

Lemma extract_from_soup_nothing_converted doc :
  Forall (fun s => converted world s = false) (flat_map img_srcs doc) ->
  extract_from_soup world doc = (doc, []).
Proof.
  intros H. unfold extract_from_soup.
  rewrite (process_imgs_nothing_converted _ H), assign_srcs_all_own.
  reflexivity.
Qed.

Lemma extract_from_soup_twice doc :
  extract_from_soup world (fst (extract_from_soup world doc))
  = (fst (extract_from_soup world doc), []).
Proof.
  apply extract_from_soup_nothing_converted.
  destruct (extract_from_soup_spec world doc) as [-> _].
  destruct (process_imgs_numbering (flat_map img_srcs doc) []) as [-> _].
  apply relabel_not_converted.
Qed.

End NumberingFacts.

(** X12.  Attachments are numbered in document order, without gaps.
    When html.parser takes the markup, [extract_inline_images] returns
    the markup of a document in which the image elements found carry, in
    order, [cid:image_<k>@example.com] for the [k]-th element converted
    and their old [src] where nothing was converted.  There are as many
    attachments as converted elements; the [k]-th has the content id
    [image_<k>@example.com]; every one is a [fileAttachment], inline, of a
    type that starts with [image/].  When html.parser rejects the markup,
    the call raises [ParserRejectedMarkup]. *)
Theorem attachments_are_numbered_in_document_order (world : markup_world)
  (html : string) :
  match parse_html_parser world html with
  | None => extract_inline_images world html = Raise ParserRejectedMarkup
  | Some doc =>
      exists doc' atts,
        extract_inline_images world html = Return (Bs4.decode doc', atts)
        /\ flat_map img_srcs doc' = relabel world 1 (flat_map img_srcs doc)
        /\ List.length atts
           = List.length (filter (converted world) (flat_map img_srcs doc))
        /\ map contentId atts
           = map numbered_cid (seq 1 (List.length atts))
        /\ Forall inline_image_attachment atts
  end.
Proof.
  unfold extract_inline_images.
  destruct (parse_html_parser world html) as [doc|]; [|reflexivity].
  destruct (extract_from_soup_spec world doc) as [Hsrcs Hatts].
  destruct (process_imgs_numbering world (flat_map img_srcs doc) [])
    as (H1 & H2 & H3).
  pose proof (process_imgs_count world (flat_map img_srcs doc) [])
    as Hcount.
  destruct (extract_from_soup world doc) as [doc' atts].
  cbn [fst snd] in *. subst atts.
  exists doc', (snd (process_imgs world [] (flat_map img_srcs doc))).
  split; [reflexivity|].
  split; [now rewrite Hsrcs, H1|].
  split; [exact Hcount|].
  split; [now rewrite H2, Hcount|].
  apply H3. constructor.
Qed.

(** X13.  Images that are not embedded are left alone.  When every
    [src] found is a [file://] address, an absolute path, an address that
    starts with [http], a [cid:] reference, or a relative path whose file
    is not there, the document comes back as the parser built it, written
    out again, and there is no attachment. *)
Theorem images_that_are_not_embedded_are_left_alone (world : markup_world)
  (html : string) (doc : soup) :
  parse_html_parser world html = Some doc ->
  Forall (fun src => left_alone world src = true) (flat_map img_srcs doc) ->
  extract_inline_images world html = Return (Bs4.decode doc, []).
Proof.
  intros Hparse H. unfold extract_inline_images. rewrite Hparse.
  rewrite extract_from_soup_nothing_converted; [reflexivity|].
  eapply Forall_impl; [|exact H].
  intros src. apply left_alone_not_converted.
Qed.

(** X13, witness: a remote image, a local path and a missing file. *)
Lemma images_that_are_not_embedded_are_left_alone_witness :
  extract_inline_images SecondPassExample.remote_world
    SecondPassExample.remote_input
  = Return (Bs4.decode SecondPassExample.remote_doc, []).
Proof.
  apply (images_that_are_not_embedded_are_left_alone
           SecondPassExample.remote_world SecondPassExample.remote_input
           SecondPassExample.remote_doc).
  - reflexivity.
  - repeat constructor.
Defined.

(** X14.  A second pass converts nothing.  When the parser reads the
    markup that [extract_inline_images] returned as the document it was
    written from, a second call returns the same markup and no
    attachment: the references of the first pass stay, and the
    attachments they refer to are those of the first call only. *)
Theorem second_pass_converts_nothing (world : markup_world) (html : string)
  (doc : soup) :
  parse_html_parser world html = Some doc ->
  parse_html_parser world (Bs4.decode (fst (extract_from_soup world doc)))
  = Some (fst (extract_from_soup world doc)) ->
  exists html' atts,
    extract_inline_images world html = Return (html', atts)
    /\ extract_inline_images world html' = Return (html', []).
Proof.
  intros Hparse Hagain.
  exists (Bs4.decode (fst (extract_from_soup world doc))),
    (snd (extract_from_soup world doc)).
  unfold extract_inline_images. rewrite Hparse, Hagain.
  rewrite extract_from_soup_twice.
  now destruct (extract_from_soup world doc).
Qed.

(** X14, witness: the document of one embedded image, twice. *)
Lemma second_pass_converts_nothing_witness :
  exists atts,
    extract_inline_images SecondPassExample.world MarkupExample.image_input
    = Return
        (("<img src=" ++ MarkupExample.quoted "cid:image_1@example.com"
            ++ "/>")%string, atts)
    /\ extract_inline_images SecondPassExample.world
         ("<img src=" ++ MarkupExample.quoted "cid:image_1@example.com"
            ++ "/>")
       = Return
           (("<img src=" ++ MarkupExample.quoted "cid:image_1@example.com"
               ++ "/>")%string, []).
Proof.
  destruct (second_pass_converts_nothing SecondPassExample.world
              MarkupExample.image_input MarkupExample.image_doc)
    as (html' & atts & H1 & H2).
  - reflexivity.
  - reflexivity.
  - exists atts.
    assert (E : html'
                = ("<img src=" ++ MarkupExample.quoted
                                    "cid:image_1@example.com" ++ "/>")%string).
    { vm_compute in H1. now injection H1 as <- _. }
    rewrite <- E. split; [exact H1|exact H2].
Defined.

(** ** The recipients file *)

Lemma lstrip_head s :
  match PyStr.lstrip s with
  | EmptyString => True
  | String c _ => PyStr.isspace c = false
  end.
Proof.
  induction s as [|c s IH]; [exact I|]. cbn [PyStr.lstrip].
  destruct (PyStr.isspace c) eqn:E; [exact IH|exact E].
Qed.

Lemma rstrip_rstrip s : PyStr.rstrip (PyStr.rstrip s) = PyStr.rstrip s.
Proof.
  induction s as [|c s IH]; [reflexivity|]. cbn [PyStr.rstrip].
  destruct (PyStr.rstrip s) as [|d r] eqn:E.
  - destruct (PyStr.isspace c) eqn:Ec; [reflexivity|].
    cbn [PyStr.rstrip]. now rewrite Ec.
  - cbn [PyStr.rstrip] in *. now rewrite IH.
Qed.

Lemma rstrip_head c s :
  PyStr.isspace c = false ->
  exists r, PyStr.rstrip (String c s) = String c r.
Proof.
  intros Hc. cbn [PyStr.rstrip].
  destruct (PyStr.rstrip s); rewrite ?Hc; eauto.
Qed.

Lemma strip_strip s : PyStr.strip (PyStr.strip s) = PyStr.strip s.
Proof.
  unfold PyStr.strip. pose proof (lstrip_head s) as H.
  destruct (PyStr.lstrip s) as [|c t]; [reflexivity|].
  destruct (rstrip_head c t H) as [r Hr].
  rewrite <- (rstrip_rstrip (String c t)) at 2.
  rewrite Hr at 1. cbn [PyStr.lstrip]. rewrite H, <- Hr. reflexivity.
Qed.

Lemma rstrip_plain s : has_space s = false -> PyStr.rstrip s = s.
Proof.
  induction s as [|c s IH]; [reflexivity|]. cbn [has_space PyStr.rstrip].
  intros H. apply orb_false_iff in H as [Hc Hs]. rewrite (IH Hs), Hc.
  now destruct s.
Qed.

Lemma lstrip_plain s : has_space s = false -> PyStr.lstrip s = s.
Proof.
  destruct s as [|c s]; [reflexivity|]. cbn [has_space PyStr.lstrip].
  intros H. apply orb_false_iff in H as [-> _]. reflexivity.
Qed.

Lemma strip_plain s : has_space s = false -> PyStr.strip s = s.
Proof.
  intros H. unfold PyStr.strip. now rewrite (lstrip_plain s H), rstrip_plain.
Qed.

Lemma rstrip_app_space s t :
  all_space t = true -> PyStr.rstrip (s ++ t) = PyStr.rstrip s.
Proof.
  intros Ht. induction s as [|c s IH].
  - cbn [append]. induction t as [|d t IHt]; [reflexivity|].
    cbn [all_space PyStr.rstrip] in *.
    apply andb_true_iff in Ht as [Hd Ht]. now rewrite (IHt Ht), Hd.
  - cbn [append PyStr.rstrip]. now rewrite IH.
Qed.

Lemma lstrip_space t : all_space t = true -> PyStr.lstrip t = EmptyString.
Proof.
  induction t as [|d t IH]; [reflexivity|]. cbn [all_space PyStr.lstrip].
  intros H. apply andb_true_iff in H as [-> Ht]. exact (IH Ht).
Qed.

Lemma has_space_app s t :
  has_space (s ++ t) = has_space s || has_space t.
Proof.
  induction s as [|c s IH]; [reflexivity|]. cbn [append has_space].
  now rewrite IH, orb_assoc.
Qed.

Lemma rstrip_app_fixed s t :
  PyStr.rstrip t = t -> t <> EmptyString ->
  PyStr.rstrip (s ++ t) = (s ++ t)%string.
Proof.
  intros Ht Hne. induction s as [|c s IH]; [exact Ht|].
  cbn [append PyStr.rstrip]. rewrite IH.
  destruct (s ++ t)%string eqn:E; [|reflexivity].
  destruct s; [now destruct t|discriminate].
Qed.

Lemma LF_is_space : PyStr.isspace (ascii_of_nat 10) = true.
Proof. reflexivity. Qed.

Lemma split_plain s :
  has_space s = false -> PyStr.split (ascii_of_nat 10) s = [s].
Proof.
  induction s as [|c s IH]; [reflexivity|]. cbn [has_space PyStr.split].
  intros H. apply orb_false_iff in H as [Hc Hs]. rewrite (IH Hs).
  destruct (Ascii.eqb_spec c (ascii_of_nat 10)) as [->|_]; [|reflexivity].
  now rewrite LF_is_space in Hc.
Qed.

Lemma split_app_newline s t :
  has_space s = false ->
  PyStr.split (ascii_of_nat 10) (s ++ String (ascii_of_nat 10) t)
  = s :: PyStr.split (ascii_of_nat 10) t.
Proof.
  induction s as [|c s IH]; intros H.
  - cbn [append PyStr.split]. now rewrite Ascii.eqb_refl.
  - cbn [has_space] in H. apply orb_false_iff in H as [Hc Hs].
    cbn [append PyStr.split]. rewrite (IH Hs).
    destruct (Ascii.eqb_spec c (ascii_of_nat 10)) as [->|_]; [|reflexivity].
    now rewrite LF_is_space in Hc.
Qed.

(** The lines of addresses joined by line feeds are the addresses. *)
Lemma split_concat_plain a addrs :
  Forall plain_address (a :: addrs) ->
  PyStr.split (ascii_of_nat 10)
    (String.concat (String (ascii_of_nat 10) EmptyString) (a :: addrs))
  = a :: addrs
  /\ String.concat (String (ascii_of_nat 10) EmptyString) (a :: addrs)
     <> EmptyString
  /\ PyStr.lstrip
       (String.concat (String (ascii_of_nat 10) EmptyString) (a :: addrs)
          ++ EmptyString)
     = (String.concat (String (ascii_of_nat 10) EmptyString) (a :: addrs)
          ++ EmptyString)%string
  /\ PyStr.rstrip
       (String.concat (String (ascii_of_nat 10) EmptyString) (a :: addrs))
     = String.concat (String (ascii_of_nat 10) EmptyString) (a :: addrs).
Proof.
  revert a. induction addrs as [|b addrs IH]; intros a Hall.
  - apply Forall_inv in Hall as [Hne Hs]. cbn [String.concat].
    split; [now apply split_plain|]. split; [exact Hne|].
    split; [|now apply rstrip_plain].
    apply lstrip_plain. now rewrite has_space_app, Hs.
  - pose proof (Forall_inv Hall) as [Hne Hs].
    apply Forall_inv_tail in Hall.
    destruct (IH b Hall) as (H1 & H2 & _ & H4).
    change (String.concat (String (ascii_of_nat 10) EmptyString)
              (a :: b :: addrs))
      with (a ++ String (ascii_of_nat 10)
                   (String.concat (String (ascii_of_nat 10) EmptyString)
                      (b :: addrs)))%string.
    set (rest := String.concat (String (ascii_of_nat 10) EmptyString)
                   (b :: addrs)) in *.
    split; [now rewrite split_app_newline, H1|].
    split; [now destruct a|].
    split.
    + destruct a as [|c a]; [contradiction|].
      cbn [has_space] in Hs. apply orb_false_iff in Hs as [Hc _].
      cbn [append PyStr.lstrip]. now rewrite Hc.
    + apply rstrip_app_fixed; [|discriminate].
      cbn [PyStr.rstrip]. rewrite H4. now destruct rest.
Qed.

Lemma lstrip_app_head s t :
  PyStr.lstrip (s ++ EmptyString) = (s ++ EmptyString)%string ->
  s <> EmptyString ->
  PyStr.lstrip (s ++ t) = (s ++ t)%string.
Proof.
  destruct s as [|c s]; [contradiction|]. intros H _.
  cbn [append PyStr.lstrip] in *.
  destruct (PyStr.isspace c); [|reflexivity].
  exfalso. apply (f_equal String.length) in H.
  assert (Hle : forall u, (String.length (PyStr.lstrip u)
                           <= String.length u)%nat).
  { induction u as [|d u IHu]; [simpl; lia|].
    cbn [PyStr.lstrip]. destruct (PyStr.isspace d); simpl in *; lia. }
  specialize (Hle (s ++ EmptyString)%string). simpl in H. lia.
Qed.

Lemma stripped_lines_plain addrs :
  Forall plain_address addrs ->
  stripped_lines
    (String.concat (String (ascii_of_nat 10) EmptyString) addrs)
  = addrs.
Proof.
  intros Hall. unfold stripped_lines.
  destruct addrs as [|a addrs]; [reflexivity|].
  destruct (split_concat_plain a addrs Hall) as (-> & _).
  induction Hall as [|x l Hx _ IH]; [reflexivity|].
  destruct Hx as [Hne Hs].
  cbn [map filter]. rewrite (strip_plain x Hs), IH.
  now destruct x.
Qed.

(** X15.  What [load_recipients] returns is clean.  Every entry of a list
    that [load_recipients] returns, from a JSON array or from lines, is
    not empty and has no white space at either end. *)
Theorem loaded_recipients_are_stripped_and_not_empty (files : file_world)
  (path : string) (rs : list string) :
  load_recipients files path = Returns rs ->
  Forall (fun r => r <> EmptyString /\ PyStr.strip r = r) rs.
Proof.
  unfold load_recipients. intros H.
  assert (Hgen : forall l,
             Forall (fun r => r <> EmptyString /\ PyStr.strip r = r)
               (filter PyStr.truthy (map PyStr.strip l))).
  { intros l. apply Forall_forall. intros r Hr.
    apply filter_In in Hr as [Hin Ht]. split; [now destruct r|].
    apply in_map_iff in Hin as (x & <- & _). apply strip_strip. }
  destruct (read_text files path) as [text| |]; try discriminate.
  destruct (json_loads files (PyStr.strip text)) as [v| |];
    try discriminate.
  - destruct v; try discriminate. injection H as <-.
    unfold stripped_items.
    rewrite <- (map_map (py_str files) PyStr.strip). apply Hgen.
  - injection H as <-. apply Hgen.
Qed.

(** X15, witness: the file of lines with blanks around an address. *)
Lemma loaded_recipients_are_stripped_and_not_empty_witness :
  Forall (fun r => r <> EmptyString /\ PyStr.strip r = r)
    ["ann@example.com"; "bob@example.com"].
Proof.
  apply (loaded_recipients_are_stripped_and_not_empty RecipientsExample.files
           "lines.txt").
  reflexivity.
Defined.

(** X16.  A file of lines gives back its addresses.  Let the file hold
    addresses without white space, none empty, joined by line feeds and
    followed by white space only (a last line feed, blank lines), and let
    the text, stripped, be no JSON.  Then [load_recipients] returns
    exactly these addresses, in order. *)
Theorem file_of_lines_gives_back_its_addresses (files : file_world)
  (path : string) (addrs : list string) (trailer : string) :
  Forall plain_address addrs ->
  all_space trailer = true ->
  read_text files path
  = FileContent
      (String.concat (String (ascii_of_nat 10) EmptyString) addrs
         ++ trailer) ->
  json_loads files
    (String.concat (String (ascii_of_nat 10) EmptyString) addrs) = NotJson ->
  load_recipients files path = Returns addrs.
Proof.
  intros Hall Htr Hread Hjson. unfold load_recipients. rewrite Hread.
  assert (Hstrip :
            PyStr.strip
              (String.concat (String (ascii_of_nat 10) EmptyString) addrs
                 ++ trailer)
            = String.concat (String (ascii_of_nat 10) EmptyString) addrs).
  { destruct addrs as [|a addrs].
    - cbn [String.concat append]. unfold PyStr.strip.
      now rewrite (lstrip_space trailer Htr).
    - destruct (split_concat_plain a addrs Hall) as (_ & H2 & H3 & H4).
      unfold PyStr.strip.
      rewrite (lstrip_app_head _ trailer H3 H2), rstrip_app_space
        by exact Htr.
      exact H4. }
  rewrite Hstrip, Hjson. now rewrite stripped_lines_plain.
Qed.

(** X16, witness: two addresses, each on its line. *)
Lemma file_of_lines_gives_back_its_addresses_witness :
  load_recipients MainExample.files "clean.txt"
  = Returns ["ann@example.com"; "bob@example.com"].
Proof.
  apply (file_of_lines_gives_back_its_addresses MainExample.files
           "clean.txt" ["ann@example.com"; "bob@example.com"]
           RecipientsExample.newline).
  - repeat constructor; discriminate.
  - reflexivity.
  - reflexivity.
  - reflexivity.
Defined.

(** ** The program *)

Lemma validate_dict items fields :
  validate (JDict items) fields
  = if forallb (fun field => json_truthy (field_of items field)) fields
    then None else Some (MainExit 1).
Proof.
  induction fields as [|f fields IH]; [reflexivity|].
  cbn [validate config_get forallb].
  destruct (json_truthy (field_of items f)); [exact IH|reflexivity].
Qed.

Lemma validate_stops config fields r :
  validate config fields = Some r ->
  r = MainExit 1 \/ r = MainRaised AttributeError.
Proof.
  induction fields as [|f fields IH]; [discriminate|].
  cbn [validate]. destruct (config_get config f) as [v|].
  - destruct (json_truthy v); [exact IH|].
    intros H. injection H as <-. now left.
  - intros H. injection H as <-. now right.
Qed.

Lemma validate_passes config :
  validate config required_fields = None ->
  exists items,
    config = JDict items
    /\ forallb (fun field => json_truthy (field_of items field))
         required_fields = true.
Proof.
  intros H. destruct config as [| | | | | |items]; try discriminate.
  exists items. split; [reflexivity|].
  rewrite validate_dict in H.
  now destruct (forallb _ required_fields).
Qed.

Lemma getitem_truthy items field :
  json_truthy (field_of items field) = true ->
  PyJson.getitem (JDict items) field = Return (field_of items field).
Proof.
  unfold field_of. cbn [PyJson.getitem].
  destruct (PyJson.lookup field items); [reflexivity|discriminate].
Qed.

Section MainFacts.

Variable net : network.
Variable world : markup_world.
Variable files : file_world.

Lemma configured_sender_checked items :
  forallb (fun field => json_truthy (field_of items field)) required_fields
  = true ->
  PyJson.getitem (JDict items) "shared_mailbox"
  = Return (field_of items "shared_mailbox")
  /\ configured_sender files (JDict items)
     = Return
         (new_sender (py_str files (field_of items "tenant_id"))
            (py_str files (field_of items "client_id"))
            (py_str files (field_of items "client_secret"))
            (py_str files (field_of items "shared_mailbox"))).
Proof.
  cbn [forallb required_fields]. intros H.
  apply andb_true_iff in H as [H1 H].
  apply andb_true_iff in H as [H2 H].
  apply andb_true_iff in H as [H3 H].
  apply andb_true_iff in H as [H4 _].
  unfold configured_sender.
  now rewrite (getitem_truthy _ _ H1), (getitem_truthy _ _ H2),
    (getitem_truthy _ _ H3), (getitem_truthy _ _ H4).
Qed.

(** What is left of [main] once its inputs are loaded. *)
Lemma deliver_batch_run args rs html s :
  deliver_batch net world args rs html s
  = match acquire_token_for_client net 0 with
    | TokenGranted tok =>
        match send_batch net world rs (Args.subject args) html
                (Args.min_delay args) (Args.max_delay args)
                (Args.max_retries args) (Args.cc args)
                (granted_state net tok (start_state s)) with
        | (Raise e, _, tr2) =>
            (MainRaised (Uncaught e), Authenticated (TokenGranted tok) :: tr2)
        | (Return results, _, tr2) =>
            (MainDone results
               (match Args.output args with
                | Some (String c p) => Some (String c p)
                | _ => None
                end),
             Authenticated (TokenGranted tok) :: tr2)
        end
    | g => (MainExit 1, [Authenticated g])
    end.
Proof.
  unfold deliver_batch. rewrite authenticate_run. cbn [token_calls start_state].
  destruct (acquire_token_for_client net 0); reflexivity.
Qed.

(** [main] stops without a trace, or loads its inputs and goes on to the
    delivery. *)
Lemma main_cases args :
  (snd (main net world files args) = []
   /\ match fst (main net world files args) with
      | MainDone _ _ => False
      | _ => True
      end)
  \/ (exists items rs html,
        load_config files args = Some (JDict items)
        /\ forallb (fun field => json_truthy (field_of items field))
             required_fields = true
        /\ load_recipients files (Args.recipients args) = Returns rs
        /\ load_html_template files (Args.template args) = Some html
        /\ Args.dry_run args = false
        /\ main net world files args
           = deliver_batch net world args rs html
               (new_sender (py_str files (field_of items "tenant_id"))
                  (py_str files (field_of items "client_id"))
                  (py_str files (field_of items "client_secret"))
                  (py_str files (field_of items "shared_mailbox")))).
Proof.
  unfold main.
  destruct (load_config files args) as [config|]; [|left; now split].
  destruct (validate config required_fields) as [r|] eqn:Hv.
  { left. split; [reflexivity|]. cbn [fst].
    now destruct (validate_stops _ _ _ Hv) as [->| ->]. }
  apply validate_passes in Hv as (items & -> & Hall).
  destruct (configured_sender_checked items Hall) as [-> ->].
  destruct (load_recipients files (Args.recipients args)) as [rs| |code];
    [| |left; now split].
  - destruct (load_html_template files (Args.template args)) as [html|];
      [|left; now split].
    destruct (Args.dry_run args); [left; now split|].
    right. exists items, rs, html. now repeat split.
  - destruct (load_html_template files (Args.template args));
      left; now split.
Qed.

End MainFacts.

(** X17.  A dry run contacts nothing.  With [--dry-run], [main] asks
    for no token, posts no request and waits nowhere, whatever the files
    and the other arguments are; it ends in the return of the dry run, in
    an exit or in an exception, never with a summary. *)
Theorem dry_run_contacts_nothing (net : network) (world : markup_world)
  (files : file_world) (args : Args.arguments) :
  Args.dry_run args = true ->
  snd (main net world files args) = []
  /\ match fst (main net world files args) with
     | MainDone _ _ => False
     | _ => True
     end.
Proof.
  intros Hdry.
  destruct (main_cases net world files args)
    as [H|(items & rs & html & _ & _ & _ & _ & Hreal & _)];
    [exact H|congruence].
Qed.

(** X17, witness: the example command line with [--dry-run]. *)
Lemma dry_run_contacts_nothing_witness :
  main Example.accepting_net Example.plain_world MainExample.files
    (set_dry_run true MainExample.args)
  = (MainDryRun, []).
Proof.
  destruct (dry_run_contacts_nothing Example.accepting_net
              Example.plain_world MainExample.files
              (set_dry_run true MainExample.args) eq_refl) as [_ _].
  reflexivity.
Defined.

(** X18.  The configuration is checked before anything else.  When the
    configuration file cannot be read or decoded, [main] exits with
    status 1.  When the configuration is a dict in which one of
    [tenant_id], [client_id], [client_secret], [shared_mailbox] is missing
    or falsy (an argument not given, an empty string, [null], 0), [main]
    exits with status 1.  When the file holds JSON that is no object,
    [config.get] raises [AttributeError], which nothing catches.  In all
    three cases nothing was asked of the network. *)
Theorem configuration_is_checked_first (net : network)
  (world : markup_world) (files : file_world) (args : Args.arguments) :
  match load_config files args with
  | None => main net world files args = (MainExit 1, [])
  | Some (JDict items) =>
      forallb (fun field => json_truthy (field_of items field))
        required_fields = false ->
      main net world files args = (MainExit 1, [])
  | Some _ => main net world files args = (MainRaised AttributeError, [])
  end.
Proof.
  unfold main.
  destruct (load_config files args) as [[| | | | | |items]|];
    try reflexivity.
  intros H. now rewrite validate_dict, H.
Qed.

(** X19.  Nothing is sent before a token was granted.  The trace of
    [main] is empty or starts with the first token call.  When that call
    grants no token, it is the whole trace and [main] exits with status
    1; no request is posted. *)
Theorem nothing_is_sent_before_a_token_was_granted (net : network)
  (world : markup_world) (files : file_world) (args : Args.arguments) :
  snd (main net world files args) = []
  \/ exists rest,
       snd (main net world files args)
       = Authenticated (acquire_token_for_client net 0) :: rest
       /\ match acquire_token_for_client net 0 with
          | TokenGranted _ => True
          | _ => rest = [] /\ fst (main net world files args) = MainExit 1
          end.
Proof.
  destruct (main_cases net world files args)
    as [[H _]|(items & rs & html & _ & _ & _ & _ & _ & ->)];
    [now left|right].
  rewrite deliver_batch_run.
  destruct (acquire_token_for_client net 0) as [tok| |].
  - destruct (send_batch _ _ _ _ _ _ _ _ _ _) as [[[results|e] st2] tr2];
      eexists; (split; [reflexivity|exact I]).
  - exists []. now repeat split.
  - exists []. now repeat split.
Qed.



(** X21.  A recipients file of JSON that is no array ends the program in
    a [TypeError].  With a configuration that passes the check and a
    template that can be read, a recipients file whose text, stripped, is
    JSON but no array makes [main] raise [TypeError] at
    [len(recipients)], with or without [--dry-run], before anything is
    asked of the network: no message about the file is printed and no
    exit status of the program's own is set. *)
Theorem json_recipients_that_are_no_array_end_in_type_error
  (net : network) (world : markup_world) (files : file_world)
  (args : Args.arguments) (items : list (string * json)) (text : string)
  (v : json) (html : string) :
  load_config files args = Some (JDict items) ->
  forallb (fun field => json_truthy (field_of items field)) required_fields
  = true ->
  read_text files (Args.recipients args) = FileContent text ->
  json_loads files (PyStr.strip text) = Loaded v ->
  match v with JList _ => False | _ => True end ->
  read_text files (Args.template args) = FileContent html ->
  main net world files args = (MainRaised (Uncaught TypeError), []).
Proof.
  intros Hconfig Hall Hread Hjson Hv Htemplate. unfold main.
  rewrite Hconfig, validate_dict, Hall.
  unfold load_recipients, load_html_template.
  rewrite Hread, Hjson, Htemplate.
  destruct v; try reflexivity. contradiction.
Qed.

(** X21, witness: the recipients file [{"to": "ann@example.com"}]. *)
Lemma json_recipients_that_are_no_array_end_in_type_error_witness :
  main Example.accepting_net Example.plain_world MainExample.files
    (MainExample.with_recipients "object.json" MainExample.args)
  = (MainRaised (Uncaught TypeError), []).
Proof.
  apply (json_recipients_that_are_no_array_end_in_type_error
           Example.accepting_net Example.plain_world MainExample.files
           (MainExample.with_recipients "object.json" MainExample.args)
           [("tenant_id", JStr "tenant"); ("client_id", JStr "client");
            ("client_secret", JStr "secret");
            ("shared_mailbox", JStr "shared@example.com")]
           RecipientsExample.object_text
           (JDict [("to", JStr "ann@example.com")]) "<p>Hi</p>").
  - reflexivity.
  - reflexivity.
  - reflexivity.
  - reflexivity.
  - exact I.
  - reflexivity.
Defined.

(** X22.  The program writes to the recipients of its file only.  Every
    request in a run of [main] goes to the [sendMail] address of the
    mailbox configured and is addressed to exactly one recipient that
    [load_recipients] returned; it carries the subject and the carbon
    copies of the command line, and the template of the file as
    [sanitize_html] and [extract_inline_images] left it, with its
    attachments.  When [extract_inline_images] raises, no request is
    posted. *)
Theorem main_writes_to_the_loaded_recipients_only (net : network)
  (world : markup_world) (files : file_world) (args : Args.arguments)
  (items : list (string * json)) (rs : list string) (html : string) :
  load_config files args = Some (JDict items) ->
  load_recipients files (Args.recipients args) = Returns rs ->
  load_html_template files (Args.template args) = Some html ->
  match extract_inline_images world (sanitize_html world html) with
  | Return (processed_html, atts) =>
      Forall
        (request_to (fun to => In to rs)
           (new_sender (py_str files (field_of items "tenant_id"))
              (py_str files (field_of items "client_id"))
              (py_str files (field_of items "client_secret"))
              (py_str files (field_of items "shared_mailbox")))
           (Args.subject args) processed_html (Some atts) (Args.cc args))
        (snd (main net world files args))
  | Raise _ =>
      Forall (fun e => is_post e = false) (snd (main net world files args))
  end.
Proof.
  intros Hconfig Hrs Hhtml.
  destruct (main_cases net world files args)
    as [[-> _]|(items' & rs' & html' & Hc' & _ & Hrs' & Hhtml' & _ & ->)].
  { destruct (extract_inline_images world (sanitize_html world html))
      as [[processed_html atts]|e]; constructor. }
  rewrite Hconfig in Hc'. injection Hc' as <-.
  rewrite Hrs in Hrs'. injection Hrs' as <-.
  rewrite Hhtml in Hhtml'. injection Hhtml' as <-.
  rewrite deliver_batch_run.
  destruct (acquire_token_for_client net 0) as [tok| |].
  2, 3: destruct (extract_inline_images world (sanitize_html world html))
          as [[processed_html atts]|e]; repeat constructor.
  set (s := new_sender _ _ _ _).
  pose proof (send_batch_invariant net world rs (Args.subject args) html
                (Args.min_delay args) (Args.max_delay args)
                (Args.max_retries args) (Args.cc args)
                (granted_state net tok (start_state s))) as Hinv.
  destruct (extract_inline_images world (sanitize_html world html))
    as [[processed_html atts]|e].
  - destruct Hinv as (_ & _ & _ & Hreq).
    assert (Hreq' :
              Forall
                (request_to (fun to => In to rs) s (Args.subject args)
                   processed_html (Some atts) (Args.cc args))
                (snd (send_batch net world rs (Args.subject args) html
                        (Args.min_delay args) (Args.max_delay args)
                        (Args.max_retries args) (Args.cc args)
                        (granted_state net tok (start_state s))))).
    { eapply Forall_impl; [|exact Hreq]. intros ev.
      apply request_to_same_config. now repeat split. }
    destruct (send_batch _ _ _ _ _ _ _ _ _ _) as [[[results|e] st2] tr2];
      cbn [snd] in *; constructor; try exact I; exact Hreq'.
  - rewrite Hinv. repeat constructor.
Qed.

(** X22, witness: the example command line, every request accepted. *)
Lemma main_writes_to_the_loaded_recipients_only_witness :
  Forall
    (request_to
       (fun to => In to ["ann@example.com"; "bob@example.com"])
       (new_sender "tenant" "client" "secret" "shared@example.com")
       "Hello" "&lt;p&gt;Hi&lt;/p&gt;" (Some []) None)
    (snd (main Example.accepting_net Example.plain_world MainExample.files
            MainExample.args)).
Proof.
  apply (main_writes_to_the_loaded_recipients_only Example.accepting_net
           Example.plain_world MainExample.files MainExample.args
           [("tenant_id", JStr "tenant"); ("client_id", JStr "client");
            ("client_secret", JStr "secret");
            ("shared_mailbox", JStr "shared@example.com")]
           ["ann@example.com"; "bob@example.com"] "<p>Hi</p>");
    reflexivity.
Defined.


